(** * Product actions of crafts-emporium: variant reconciliation, soft
      deletion, cache refresh and listing queries

    A shallow embedding of [actions/products] (the server actions
    [createProduct], [getProducts], [updateProduct], [deleteProduct],
    [getProductVariants] and the two store helpers) together with the
    statements of the relational store they issue.

    Conventions of the embedding.
    - Numeric columns are integer columns and hold a [Z]; a JavaScript
      number obtained by coercion is a [number], either a finite value or
      [NaN].  Binding [NaN] to an integer column makes the statement raise.
    - A table is the list of its rows in heap order; [id] columns are
      drawn from a sequence kept with the table.  An [UPDATE] is modelled
      as rewriting rows where they are.  SQL leaves the place of an
      updated row open, so what is proved of the variants after an update
      is stated up to their order.
    - Text is held in its UTF-8 encoding.
    - [CURRENT_DATE] and the default of [createdAt] are read from a clock
      value [now] passed to each action.
    - A server action is a state transformer over a [World] (store, cache,
      console, revalidated paths) that returns a value or throws. *)

From Stdlib Require Import ZArith List String Ascii Bool Lia QArith.
From Stdlib Require Import Permutation Sorted.
Import ListNotations.

Local Open Scope string_scope.
Local Open Scope list_scope.
Local Open Scope Z_scope.

(* ================================================================== *)
(** ** JavaScript values used by the actions *)

(** A JavaScript number seen through [===]: finite values compare by
    value, [NaN] is different from everything, itself included. *)
Inductive number : Type :=
| Fin (z : Z)
| NaN.

Definition strict_eq (a b : number) : bool :=
  match a, b with
  | Fin x, Fin y => x =? y
  | _, _ => false
  end.

Definition strict_neq (a b : number) : bool := negb (strict_eq a b).

(** Text is held in its UTF-8 encoding.  [String.prototype.trim] strips
    the white space and line terminator code points: U+0009 to U+000D and
    U+0020 (one byte each), U+00A0 (two bytes), and U+1680, U+2000 to
    U+200A, U+2028, U+2029, U+202F, U+205F, U+3000 and U+FEFF (three
    bytes each). *)
Definition is_space (c : ascii) : bool :=
  let n := nat_of_ascii c in
  (Nat.eqb n 32 || (Nat.leb 9 n && Nat.leb n 13))%bool.

Definition is_space2 (a b : ascii) : bool :=
  (Nat.eqb (nat_of_ascii a) 194 && Nat.eqb (nat_of_ascii b) 160)%bool.

Definition is_space3 (a b c : ascii) : bool :=
  let x := nat_of_ascii a in
  let y := nat_of_ascii b in
  let z := nat_of_ascii c in
  ((Nat.eqb x 225 && Nat.eqb y 154 && Nat.eqb z 128)
   || (Nat.eqb x 226 && Nat.eqb y 128
       && ((Nat.leb 128 z && Nat.leb z 138)
           || Nat.eqb z 168 || Nat.eqb z 169 || Nat.eqb z 175))
   || (Nat.eqb x 226 && Nat.eqb y 129 && Nat.eqb z 159)
   || (Nat.eqb x 227 && Nat.eqb y 128 && Nat.eqb z 128)
   || (Nat.eqb x 239 && Nat.eqb y 187 && Nat.eqb z 191))%bool.

Fixpoint trimStart (s : string) : string :=
  match s with
  | EmptyString => EmptyString
  | String a r =>
      if is_space a then trimStart r
      else
        match r with
        | EmptyString => s
        | String b r' =>
            if is_space2 a b then trimStart r'
            else
              match r' with
              | EmptyString => s
              | String c r'' => if is_space3 a b c then trimStart r'' else s
              end
        end
  end.

(** A text made of white space only. *)
Definition blank (s : string) : bool :=
  match trimStart s with
  | EmptyString => true
  | String _ _ => false
  end.

Fixpoint trimEnd (s : string) : string :=
  match s with
  | EmptyString => EmptyString
  | String c s' => if blank s then EmptyString else String c (trimEnd s')
  end.

(** [String.prototype.trim] *)
Definition trim (s : string) : string := trimEnd (trimStart s).

(** Truthiness of an optional string ([data.title ? ... : ...]). *)
Definition truthy_string (s : option string) : bool :=
  match s with
  | Some EmptyString => false
  | Some _ => true
  | None => false
  end.

(** Truthiness of an optional number read from the cache ([!total]). *)
Definition truthy_count (n : option Z) : bool :=
  match n with
  | Some 0 => false
  | Some _ => true
  | None => false
  end.

(** [ServerActionResponse<T>]: the payload or [{ error }]. *)
Inductive ServerActionResponse (T : Type) : Type :=
| Success (payload : T)
| Failure (error : string).
Arguments Success {T} payload.
Arguments Failure {T} error.

(* ================================================================== *)
(** ** Rows of the store ([db/schema]) *)

Module Product.
Record row : Type := mk {
  id : Z;
  title : string;
  description : string;
  image : string;
  createdAt : Z;
  deletedAt : option Z
}.

Definition with_deletedAt (d : option Z) (p : row) : row :=
  mk (id p) (title p) (description p) (image p) (createdAt p) d.
End Product.

Module Variant.
Record row : Type := mk {
  id : Z;
  productId : Z;
  size : Z;
  price : Z;
  quantity : Z;
  deletedAt : option Z
}.

Definition with_deletedAt (d : option Z) (v : row) : row :=
  mk (id v) (productId v) (size v) (price v) (quantity v) d.
End Variant.

Module PurchaseItem.
Record row : Type := mk {
  id : Z;
  variantId : Z;
  quantity : Z;
  price : Z
}.
End PurchaseItem.

(** Caller input ([schema/products]): every variant field is the text of
    a form control and is coerced with [Number] where it is used. *)
Module TProduct.
Record variant : Type := mkVariant {
  size : string;
  price : string;
  quantity : string
}.

Record t : Type := mk {
  title : string;
  description : string;
  imageId : string;
  variants : list variant
}.

(** [Partial<TProduct>] *)
Record partial : Type := mkPartial {
  p_title : option string;
  p_description : option string;
  p_imageId : option string;
  p_variants : option (list variant)
}.
End TProduct.

Definition isNull {A : Type} (x : option A) : bool :=
  match x with
  | None => true
  | Some _ => false
  end.

(** What the environment supplies to the actions: the [Number] coercion
    on form text, the validator [productSchema.safeParse] (its error
    message when the input is rejected) and the trigram [SIMILARITY] of
    the database.  The actions compare a coerced number with stored
    integers and bind it to integer columns, nothing else; [NaN] stands
    for every result of [Number] that equals no stored integer and that
    an integer column rejects. *)
Class Platform : Type := {
  Number : string -> number;
  safeParse_error : TProduct.t -> option string;
  SIMILARITY : string -> string -> Q
}.

(* ================================================================== *)
(** ** Variant reconciliation inside [updateProduct] *)

Section Reconciler.
Context `{Platform}.

Definition removedVariants
    (prevVariants : list Variant.row)
    (currentVariants : list TProduct.variant) : list Variant.row :=
  filter
    (fun prevVariant =>
       negb (existsb
               (fun currentVariant =>
                  strict_eq (Number (TProduct.size currentVariant))
                            (Fin (Variant.size prevVariant)))
               currentVariants))
    prevVariants.

Definition addedVariants
    (prevVariants : list Variant.row)
    (currentVariants : list TProduct.variant) : list TProduct.variant :=
  filter
    (fun currentVariant =>
       negb (existsb
               (fun prevVariant =>
                  strict_eq (Fin (Variant.size prevVariant))
                            (Number (TProduct.size currentVariant)))
               prevVariants))
    currentVariants.

Definition updatedVariants
    (prevVariants : list Variant.row)
    (currentVariants : list TProduct.variant) : list TProduct.variant :=
  filter
    (fun currentVariant =>
       match find
               (fun prevVariant =>
                  strict_eq (Fin (Variant.size prevVariant))
                            (Number (TProduct.size currentVariant)))
               prevVariants
       with
       | Some prevVariant =>
           strict_neq (Fin (Variant.price prevVariant))
                      (Number (TProduct.price currentVariant))
           || strict_neq (Fin (Variant.quantity prevVariant))
                         (Number (TProduct.quantity currentVariant))
       | None => false
       end)
    currentVariants.

End Reconciler.

(* ================================================================== *)
(** ** The store *)

Module Store.
Record t : Type := mk {
  products : list Product.row;
  variants : list Variant.row;
  purchaseItems : list PurchaseItem.row;
  products_seq : Z;
  variants_seq : Z
}.

(** A transaction that aborts gives back the rows it started from;
    sequence values that were drawn are not given back. *)
Definition rollback (before after : t) : t :=
  mk (products before) (variants before) (purchaseItems before)
     (products_seq after) (variants_seq after).
End Store.

(** A product with its aggregated variants ([TDBProductWithVariants]).
    The product columns selected are all the columns of the row; the
    similarity search additionally selects [total]. *)
Module ProductWithVariants.
Record row : Type := mk {
  product : Product.row;
  variants : list Variant.row;
  total : option Z
}.

Definition id (r : row) : Z := Product.id (product r).
End ProductWithVariants.

(** A row of [getProductVariants] ([ProductSale]). *)
Module ProductSale.
Record row : Type := mk {
  id : Z;
  size : Z;
  stock : Z;
  price : Z;
  sold : option Z;
  revenue : option Z
}.
End ProductSale.

(* ================================================================== *)
(** ** The cache ([lib/cache/products]) *)

(** Modelled from the spec: the cache module [lib/cache/products] is
    not part of the sources.  It holds two independent values, the list
    of the first page and the count of active products, each absent or
    present; [get] returns the value or the absent marker, [set]
    replaces it, [incr] and [decr] return the value after the operation
    (an absent count counts from zero).  [outages] schedules cache
    failures: each cache call consumes the head of the list and raises
    when it is [true]. *)
Module Cache.
Record t : Type := mk {
  products : option (list ProductWithVariants.row);
  count : option Z;
  outages : list bool
}.

Definition with_outages (o : list bool) (c : t) : t :=
  mk (products c) (count c) o.
Definition with_products (p : option (list ProductWithVariants.row)) (c : t) : t :=
  mk p (count c) (outages c).
Definition with_count (n : option Z) (c : t) : t :=
  mk (products c) n (outages c).
End Cache.

Record World : Type := mkWorld {
  db : Store.t;
  cache : Cache.t;
  console : list string;
  revalidated : list string
}.

(* ================================================================== *)
(** ** Asynchronous code that may throw: a state and exception monad *)

Inductive outcome (A : Type) : Type :=
| Return (a : A)
| Throw (e : string).
Arguments Return {A} a.
Arguments Throw {A} e.

Definition M (S A : Type) : Type := S -> outcome A * S.

Definition ret {S A : Type} (a : A) : M S A := fun s => (Return a, s).

Definition throw {S A : Type} (e : string) : M S A := fun s => (Throw e, s).

Definition bind {S A B : Type} (m : M S A) (k : A -> M S B) : M S B :=
  fun s =>
    match m s with
    | (Return a, s') => k a s'
    | (Throw e, s') => (Throw e, s')
    end.

Definition try_catch {S A : Type} (m : M S A) (handler : string -> M S A) : M S A :=
  fun s =>
    match m s with
    | (Return a, s') => (Return a, s')
    | (Throw e, s') => handler e s'
    end.

Declare Scope action_scope.
Delimit Scope action_scope with action.
Notation "x <- m ;; k" := (bind m (fun x => k))
  (at level 61, m at next level, right associativity) : action_scope.
Notation "m ;; k" := (bind m (fun _ => k))
  (at level 61, right associativity) : action_scope.
Local Open Scope action_scope.

(** [await Promise.all(xs.map(async x => f x))]: the statements are
    issued on one connection in list order; the first failure rejects. *)
Fixpoint mapM {S A B : Type} (f : A -> M S B) (xs : list A) : M S (list B) :=
  match xs with
  | [] => ret []
  | x :: xs' => y <- f x ;; ys <- mapM f xs' ;; ret (y :: ys)
  end.

Definition forM_ {S A B : Type} (xs : list A) (f : A -> M S B) : M S unit :=
  mapM f xs ;; ret tt.

Definition gets {S A : Type} (f : S -> A) : M S A := fun s => (Return (f s), s).

Definition modify {S : Type} (f : S -> S) : M S unit := fun s => (Return tt, f s).

(* ================================================================== *)
(** ** Statements of the store *)

Definition nan_error : string := "invalid input syntax for type integer: NaN".

(** Binds a JavaScript number to an integer column. *)
Definition bind_integer {S : Type} (n : number) : M S Z :=
  match n with
  | Fin z => ret z
  | NaN => throw nan_error
  end.

Module Sql.

(** [insert(products).values({title, description, image}).returning()] *)
Definition insert_product (title description image : string) (now : Z)
  : M Store.t Product.row :=
  fun st =>
    let row := Product.mk (Store.products_seq st) title description image now None in
    (Return row,
     Store.mk (Store.products st ++ [row]) (Store.variants st)
              (Store.purchaseItems st)
              (Store.products_seq st + 1) (Store.variants_seq st)).

(** [insert(variants).values({productId, price, quantity, size}).returning()] *)
Definition insert_variant (productId : Z) (price quantity size : number)
  : M Store.t Variant.row :=
  p <- bind_integer price ;;
  q <- bind_integer quantity ;;
  s <- bind_integer size ;;
  fun st =>
    let row := Variant.mk (Store.variants_seq st) productId s p q None in
    (Return row,
     Store.mk (Store.products st) (Store.variants st ++ [row])
              (Store.purchaseItems st)
              (Store.products_seq st) (Store.variants_seq st + 1)).

(** An [UPDATE] seen row by row.  The rows are rewritten where they are;
    where the store really puts an updated row is not fixed by SQL, and
    an aggregate without [ORDER BY], like the [json_agg] of the variants,
    follows the order of the heap. *)
Definition map_products (f : Product.row -> Product.row) (st : Store.t) : Store.t :=
  Store.mk (map f (Store.products st)) (Store.variants st)
           (Store.purchaseItems st)
           (Store.products_seq st) (Store.variants_seq st).

Definition map_variants (f : Variant.row -> Variant.row) (st : Store.t) : Store.t :=
  Store.mk (Store.products st) (map f (Store.variants st))
           (Store.purchaseItems st)
           (Store.products_seq st) (Store.variants_seq st).

(** [update(products).set({image?, title?, description?}).where(eq(products.id, id))] *)
Definition patch_product (image title description : option string)
    (p : Product.row) : Product.row :=
  Product.mk (Product.id p)
    (match title with Some x => x | None => Product.title p end)
    (match description with Some x => x | None => Product.description p end)
    (match image with Some x => x | None => Product.image p end)
    (Product.createdAt p) (Product.deletedAt p).

(** The query builder refuses a [set] without a column: [set({})] throws
    before any statement is sent. *)
Definition no_values_error : string := "No values to set".

Definition update_product (id : Z) (image title description : option string)
  : M Store.t unit :=
  match image, title, description with
  | None, None, None => throw no_values_error
  | _, _, _ =>
      modify (map_products
                (fun p => if Product.id p =? id
                          then patch_product image title description p else p))
  end.

(** [update(variants).set({size, quantity, price, deletedAt: NULL})
      .where(and(eq(variants.size, size), eq(variants.productId, id)))] *)
Definition set_variant (id s q p : Z) (v : Variant.row) : Variant.row :=
  if (Variant.size v =? s) && (Variant.productId v =? id)
  then Variant.mk (Variant.id v) (Variant.productId v) s p q None
  else v.

Definition update_variant (id : Z) (size quantity price : number)
  : M Store.t unit :=
  s <- bind_integer size ;;
  q <- bind_integer quantity ;;
  p <- bind_integer price ;;
  modify (map_variants (set_variant id s q p)).

(** [update(variants).set({deletedAt: CURRENT_DATE})
      .where(and(eq(variants.size, size), eq(variants.productId, id)))] *)
Definition delete_variant_row (id size now : Z) (v : Variant.row) : Variant.row :=
  if (Variant.size v =? size) && (Variant.productId v =? id)
  then Variant.with_deletedAt (Some now) v
  else v.

Definition soft_delete_variant (id size now : Z) : M Store.t unit :=
  modify (map_variants (delete_variant_row id size now)).

(** [update(products).set({deletedAt: CURRENT_DATE}).where(eq(products.id, id))] *)
Definition delete_product_row (id now : Z) (p : Product.row) : Product.row :=
  if Product.id p =? id then Product.with_deletedAt (Some now) p else p.

Definition soft_delete_product (id now : Z) : M Store.t unit :=
  modify (map_products (delete_product_row id now)).

(** [ORDER BY]: a stable insertion sort, [leb x y] meaning that [x] may
    come before [y]. *)
Fixpoint insert_by {A : Type} (leb : A -> A -> bool) (x : A) (l : list A) : list A :=
  match l with
  | [] => [x]
  | y :: l' => if leb x y then x :: l else y :: insert_by leb x l'
  end.

Fixpoint order_by {A : Type} (leb : A -> A -> bool) (l : list A) : list A :=
  match l with
  | [] => []
  | x :: l' => insert_by leb x (order_by leb l')
  end.

(** [LIMIT limit OFFSET offset] *)
Definition limit_offset {A : Type} (limit offset : nat) (l : list A) : list A :=
  firstn limit (skipn offset l).

(** [products INNER JOIN variants ON variants.productId = products.id
     WHERE <keep products> AND variants.deletedAt IS NULL
     GROUP BY products.id], each group carrying [json_agg] of its
    variants.  [products.id] is the primary key, so there is one group
    per product row that has a joined row. *)
Definition active_variants_of (st : Store.t) (p : Product.row) : list Variant.row :=
  filter (fun v => (Variant.productId v =? Product.id p)
                   && isNull (Variant.deletedAt v))
         (Store.variants st).

Definition join_groups (keep : Product.row -> bool) (st : Store.t)
  : list ProductWithVariants.row :=
  flat_map
    (fun p =>
       match active_variants_of st p with
       | [] => []
       | vs => if keep p then [ProductWithVariants.mk p vs None] else []
       end)
    (Store.products st).

(** [gt(x, c)] *)
Definition gt (x c : Q) : bool := negb (Qle_bool x c).

(** [ORDER BY x DESC]: a row scoring [x] may come before a row scoring
    [y]. *)
Definition desc_leb (x y : Q) : bool := Qle_bool y x.

(** An [undefined] value interpolated into an [sql] template leaves no
    text in the statement: with an absent search text the statement reads
    [SIMILARITY(title, )], and the database rejects it. *)
Definition syntax_error : string := "syntax error at or near )".

(** [sum(x)] over the joined rows of a group: null when no row has a
    value. *)
Definition sum (xs : list (option Z)) : option Z :=
  fold_left
    (fun acc x =>
       match x with
       | None => acc
       | Some v => Some (match acc with Some a => a + v | None => v end)
       end)
    xs None.

End Sql.

Definition defaultLimit : nat := 10.

(** The rows that [getProductsFromDBWithoutQuery] pages over. *)
Definition listedProducts (st : Store.t) : list ProductWithVariants.row :=
  Sql.order_by
    (fun a b => ProductWithVariants.id b <=? ProductWithVariants.id a)
    (Sql.join_groups (fun p => isNull (Product.deletedAt p)) st).

Definition getProductsFromDBWithoutQuery (offset limit : nat) (st : Store.t)
  : list ProductWithVariants.row :=
  Sql.limit_offset limit (offset * limit) (listedProducts st).

Definition getProductsCountFromDB (st : Store.t) : Z :=
  Z.of_nat (List.length (filter (fun p => isNull (Product.deletedAt p)) (Store.products st))).

(* ================================================================== *)
(** ** Effects of a server action on the world *)

Definition with_db (st : Store.t) (w : World) : World :=
  mkWorld st (cache w) (console w) (revalidated w).

Definition with_cache (c : Cache.t) (w : World) : World :=
  mkWorld (db w) c (console w) (revalidated w).

(** [db.transaction(async (trx) => body)]: commits when [body] returns,
    rolls back and rethrows when it throws. *)
Definition transaction {A : Type} (body : M Store.t A) : M World A :=
  fun w =>
    match body (db w) with
    | (Return a, st') => (Return a, with_db st' w)
    | (Throw e, st') => (Throw e, with_db (Store.rollback (db w) st') w)
    end.

(** A statement issued outside a transaction commits on its own. *)
Definition statement {A : Type} (stmt : M Store.t A) : M World A :=
  transaction stmt.

Definition query {A : Type} (q : Store.t -> A) : M World A :=
  gets (fun w => q (db w)).

Definition console_log (message : string) : M World unit :=
  modify (fun w => mkWorld (db w) (cache w) (console w ++ [message]) (revalidated w)).

Definition revalidatePath (path : string) : M World unit :=
  modify (fun w => mkWorld (db w) (cache w) (console w) (revalidated w ++ [path])).

Definition cache_error : string := "cache unavailable".

(** One call to the cache: it fails when the schedule says so, and
    otherwise runs [op] on the cached values. *)
Definition cache_call {A : Type} (op : Cache.t -> A * Cache.t) : M World A :=
  fun w =>
    match Cache.outages (cache w) with
    | true :: rest =>
        (Throw cache_error, with_cache (Cache.with_outages rest (cache w)) w)
    | false :: rest =>
        let (a, c) := op (Cache.with_outages rest (cache w)) in
        (Return a, with_cache c w)
    | [] =>
        let (a, c) := op (cache w) in
        (Return a, with_cache c w)
    end.

Module ProductsCache.
Definition get : M World (option (list ProductWithVariants.row)) :=
  cache_call (fun c => (Cache.products c, c)).

Definition set (value : list ProductWithVariants.row) : M World unit :=
  cache_call (fun c => (tt, Cache.with_products (Some value) c)).
End ProductsCache.

Module ProductsCountCache.
Definition get : M World (option Z) :=
  cache_call (fun c => (Cache.count c, c)).

Definition set (value : Z) : M World unit :=
  cache_call (fun c => (tt, Cache.with_count (Some value) c)).

Definition current (c : Cache.t) : Z :=
  match Cache.count c with
  | Some n => n
  | None => 0
  end.

Definition incr : M World Z :=
  cache_call (fun c => (current c + 1, Cache.with_count (Some (current c + 1)) c)).

Definition decr : M World Z :=
  cache_call (fun c => (current c - 1, Cache.with_count (Some (current c - 1)) c)).
End ProductsCountCache.

(* ================================================================== *)
(** ** The server actions *)

Section Actions.
Context `{Platform}.

(** The transaction of [createProduct]. *)
Definition createProduct_trx (data : TProduct.t) (now : Z)
  : M Store.t (Product.row * list Variant.row) :=
  product <- Sql.insert_product (TProduct.title data) (TProduct.description data)
                                (TProduct.imageId data) now ;;
  variantsDB <- mapM
    (fun variant =>
       Sql.insert_variant (Product.id product)
         (Number (TProduct.price variant))
         (Number (TProduct.quantity variant))
         (Number (TProduct.size variant)))
    (TProduct.variants data) ;;
  ret (product, variantsDB).

(** What [createProduct] does once its transaction has committed. *)
Definition createProduct_refresh (res : Product.row * list Variant.row)
  : M World (ServerActionResponse (Product.row * list Variant.row * Z)) :=
  page <- query (getProductsFromDBWithoutQuery 0 defaultLimit) ;;
  ProductsCache.set page ;;
  total <- ProductsCountCache.get ;;
  (if negb (truthy_count total)
   then (total <- query getProductsCountFromDB ;;
         ProductsCountCache.set total)
   else (ProductsCountCache.incr ;; ret tt)) ;;
  revalidatePath "/products" ;;
  total <- ProductsCountCache.get ;;
  ret (Success (res, match total with Some n => n | None => 0 end)).

Definition createProduct (data : TProduct.t) (now : Z)
  : M World (ServerActionResponse (Product.row * list Variant.row * Z)) :=
  try_catch
    (match safeParse_error data with
     | Some message => throw message
     | None => ret tt
     end ;;
     res <- transaction (createProduct_trx data now) ;;
     createProduct_refresh res)
    (fun error =>
       console_log error ;;
       ret (Failure "Error creating product")).

(** The similarity search of [getProducts], for a search text that is
    there. *)
Definition similarProducts (search : string) (st : Store.t)
  : list ProductWithVariants.row :=
  let matches :=
    Sql.order_by
      (fun a b =>
         Sql.desc_leb
           (SIMILARITY (Product.title (ProductWithVariants.product a)) search)
           (SIMILARITY (Product.title (ProductWithVariants.product b)) search))
      (Sql.join_groups
         (fun p => Sql.gt (SIMILARITY (Product.title p) search) (3 # 10)
                   && isNull (Product.deletedAt p))
         st) in
  map (fun r => ProductWithVariants.mk (ProductWithVariants.product r)
                  (ProductWithVariants.variants r)
                  (Some (Z.of_nat (List.length matches))))
      matches.

Definition getProducts (search : option string) (offset limit : nat)
  : M World (ServerActionResponse (list ProductWithVariants.row * Z)) :=
  try_catch
    (cached <- ProductsCountCache.get ;;
     total <- (if negb (truthy_count cached)
               then (total <- query getProductsCountFromDB ;;
                     ProductsCountCache.set total ;;
                     ret total)
               else ret (match cached with Some n => n | None => 0 end)) ;;
     if match search with
        | Some q => String.eqb (trim q) ""
        | None => false
        end
     then
       if negb (Nat.eqb offset 0) || negb (Nat.eqb limit defaultLimit)
       then
         data <- query (getProductsFromDBWithoutQuery offset limit) ;;
         ret (Success (data, total))
       else
         cachedProducts <- ProductsCache.get ;;
         productsDataDB <-
           match cachedProducts with
           | Some (r :: rs) => ret (r :: rs)
           | _ => query (getProductsFromDBWithoutQuery 0 defaultLimit)
           end ;;
         match cachedProducts with
         | None => ProductsCache.set productsDataDB
         | Some _ => ret tt
         end ;;
         ret (Success (productsDataDB, total))
     else
       productsData <-
         match search with
         | Some q =>
             query (fun st => Sql.limit_offset limit (offset * limit)
                                (similarProducts q st))
         | None => throw Sql.syntax_error
         end ;;
       ret (Success (productsData,
                     match productsData with
                     | r :: _ =>
                         match ProductWithVariants.total r with
                         | Some n => n
                         | None => 0
                         end
                     | [] => 0
                     end)))
    (fun error =>
       console_log error ;;
       ret (Failure "Error getting products")).

(** The transaction of [updateProduct]. *)
Definition updateProduct_trx (data : TProduct.partial) (id now : Z)
  : M Store.t unit :=
  prevVariants <- gets (fun st => filter (fun v => Variant.productId v =? id)
                                         (Store.variants st)) ;;
  let currentVariants :=
    match TProduct.p_variants data with
    | Some vs => vs
    | None => []
    end in
  let removed := removedVariants prevVariants currentVariants in
  let added := addedVariants prevVariants currentVariants in
  let updated := updatedVariants prevVariants currentVariants in
  Sql.update_product id
    (if truthy_string (TProduct.p_imageId data) then TProduct.p_imageId data else None)
    (if truthy_string (TProduct.p_title data) then TProduct.p_title data else None)
    (if truthy_string (TProduct.p_description data)
     then TProduct.p_description data else None) ;;
  forM_ added
    (fun addedVariant =>
       Sql.insert_variant id
         (Number (TProduct.price addedVariant))
         (Number (TProduct.quantity addedVariant))
         (Number (TProduct.size addedVariant))) ;;
  forM_ updated
    (fun updatedVariant =>
       Sql.update_variant id
         (Number (TProduct.size updatedVariant))
         (Number (TProduct.quantity updatedVariant))
         (Number (TProduct.price updatedVariant))) ;;
  forM_ removed
    (fun removedVariant =>
       Sql.soft_delete_variant id (Variant.size removedVariant) now).

Definition updateProduct (data : TProduct.partial) (id now : Z)
  : M World (ServerActionResponse string) :=
  try_catch
    (transaction (updateProduct_trx data id now) ;;
     page <- query (getProductsFromDBWithoutQuery 0 defaultLimit) ;;
     ProductsCache.set page ;;
     revalidatePath "/products" ;;
     ret (Success "Product updated successfully"))
    (fun _ => ret (Failure "Error updating product")).

Definition deleteProduct (id now : Z) : M World (ServerActionResponse string) :=
  try_catch
    (statement (Sql.soft_delete_product id now) ;;
     page <- query (getProductsFromDBWithoutQuery 0 defaultLimit) ;;
     ProductsCache.set page ;;
     ProductsCountCache.decr ;;
     revalidatePath "/products" ;;
     ret (Success "Product deleted successfully"))
    (fun _ => ret (Failure "Error deleting product")).

(** [variants LEFT JOIN purchaseItems ON purchaseItems.variantId =
    variants.id]: a variant without purchase items is joined to one
    all-null row. *)
Definition left_join_items (st : Store.t) (v : Variant.row)
  : list (option PurchaseItem.row) :=
  match filter (fun i => PurchaseItem.variantId i =? Variant.id v)
               (Store.purchaseItems st) with
  | [] => [None]
  | items => map Some items
  end.

Definition productSale (st : Store.t) (v : Variant.row) : ProductSale.row :=
  let joined := left_join_items st v in
  ProductSale.mk (Variant.id v) (Variant.size v) (Variant.quantity v) (Variant.price v)
    (Sql.sum (map (option_map PurchaseItem.quantity) joined))
    (Sql.sum (map (option_map (fun i => PurchaseItem.quantity i * PurchaseItem.price i))
                  joined)).

Definition variantSales (id : Z) (st : Store.t) : list ProductSale.row :=
  Sql.order_by
    (fun a b => ProductSale.size a <=? ProductSale.size b)
    (map (productSale st)
         (filter (fun v => Variant.productId v =? id) (Store.variants st))).

Definition getProductVariants (id : string)
  : M World (ServerActionResponse (list ProductSale.row)) :=
  try_catch
    (n <- bind_integer (Number id) ;;
     res <- query (variantSales n) ;;
     ret (Success res))
    (fun _ => ret (Failure "Error getting product sale details")).

End Actions.

(* ================================================================== *)
(** ** The remaining readers: [getProduct], [getProductWithVariants] and
       the total-sale page *)

(** A product as the sale form shows it ([TDBProductWithVariantsForSale]):
    fewer columns, and variants without their deletion timestamp. *)
Module ProductForSale.
Record variant : Type := mkVariant {
  v_id : Z;
  v_price : Z;
  v_quantity : Z;
  v_size : Z
}.

Record row : Type := mk {
  id : Z;
  title : string;
  image : string;
  variants : list variant
}.

Definition of_variant (v : Variant.row) : variant :=
  mkVariant (Variant.id v) (Variant.price v) (Variant.quantity v) (Variant.size v).

Definition of_group (r : ProductWithVariants.row) : row :=
  mk (Product.id (ProductWithVariants.product r))
     (Product.title (ProductWithVariants.product r))
     (Product.image (ProductWithVariants.product r))
     (map of_variant (ProductWithVariants.variants r)).
End ProductForSale.

Section Readers.
Context `{Platform}.

(** [getProduct]: the groups of the join for one product id; the answer
    is the first group, or [undefined] when there is none. *)
Definition getProduct (id : string)
  : M World (ServerActionResponse (option ProductWithVariants.row)) :=
  try_catch
    (n <- bind_integer (Number id) ;;
     product <- query (Sql.join_groups (fun p => Product.id p =? n)) ;;
     ret (Success (hd_error product)))
    (fun _ => ret (Failure "Error getting product")).

(** The groups that [getProductWithVariants] pages over. *)
Definition saleGroups (search : string) (st : Store.t) : list ProductWithVariants.row :=
  Sql.order_by
    (fun a b =>
       Sql.desc_leb
         (SIMILARITY (Product.title (ProductWithVariants.product a)) search)
         (SIMILARITY (Product.title (ProductWithVariants.product b)) search))
    (Sql.join_groups
       (fun p => Sql.gt (SIMILARITY (Product.title p) search) (2 # 10)
                 && isNull (Product.deletedAt p))
       st).

Definition getProductWithVariants (search : string) (offset limit : nat)
  : M World (ServerActionResponse (list ProductForSale.row)) :=
  try_catch
    (if String.eqb (trim search) ""
     then ret (Success [])
     else
       res <- query (fun st => Sql.limit_offset limit offset
                                 (map ProductForSale.of_group (saleGroups search st))) ;;
       ret (Success res))
    (fun error =>
       console_log error ;;
       ret (Failure "Error getting products")).

(** The query of the total-sale page: [purchaseItems INNER JOIN variants
    ON variants.id = purchaseItems.variantId WHERE variants.productId = id
    AND variants.size = size], aggregated to [sum(purchaseItems.quantity)]. *)
Definition totalsale_count (id size : Z) (st : Store.t) : option Z :=
  Sql.sum
    (flat_map
       (fun i =>
          map (fun _ => Some (PurchaseItem.quantity i))
              (filter (fun v => (Variant.id v =? PurchaseItem.variantId i)
                                && (Variant.productId v =? id)
                                && (Variant.size v =? size))
                      (Store.variants st)))
       (Store.purchaseItems st)).

(** The number the page shows, [Number(data[0].count)]: a null count is
    shown as [0].  The page has no handler of its own. *)
Definition totalsale_page (id size : string) : M World Z :=
  n <- bind_integer (Number id) ;;
  s <- bind_integer (Number size) ;;
  count <- query (totalsale_count n s) ;;
  ret (match count with Some z => z | None => 0 end).

End Readers.

(* ================================================================== *)
(** ** A concrete platform, for running the actions on examples *)

(** The value of a digit in a radix up to 16, when it is one. *)
Definition digit_value (radix : Z) (c : ascii) : option Z :=
  let n := Z.of_nat (nat_of_ascii c) in
  let v := if (48 <=? n) && (n <=? 57) then n - 48
           else if (97 <=? n) && (n <=? 102) then n - 87
           else if (65 <=? n) && (n <=? 70) then n - 55
           else radix in
  if v <? radix then Some v else None.

(** Reads the longest run of digits at the head of [s]: the number read
    on top of [acc], how many digits were read, and the text left. *)
Fixpoint read_digits (radix : Z) (s : string) (acc : Z) (len : nat)
  : Z * nat * string :=
  match s with
  | EmptyString => (acc, len, s)
  | String c s' =>
      match digit_value radix c with
      | Some d => read_digits radix s' (radix * acc + d) (S len)
      | None => (acc, len, s)
      end
  end.

(** A value that an integer column holds. *)
Definition storable (z : Z) : number :=
  if (- 2147483648 <=? z) && (z <=? 2147483647) then Fin z else NaN.

(** [0x], [0o] and [0b] literals. *)
Definition radix_literal (radix : Z) (s : string) : number :=
  match read_digits radix s 0 0 with
  | (z, S _, EmptyString) => storable z
  | _ => NaN
  end.

(** The exponent part of a decimal literal, when the text left is one or
    is empty. *)
Definition exponent_part (s : string) : option Z :=
  match s with
  | EmptyString => Some 0
  | String c r =>
      if Ascii.eqb c "e" || Ascii.eqb c "E"
      then
        let (negative, r') :=
          match r with
          | String "-" t => (true, t)
          | String "+" t => (false, t)
          | _ => (false, r)
          end in
        match read_digits 10 r' 0 0 with
        | (e, S _, EmptyString) => Some (if negative then - e else e)
        | _ => None
        end
      else None
  end.

(** Digits, an optional fraction and an optional exponent. *)
Definition decimal_literal (negative : bool) (s : string) : number :=
  let '(i, ni, r) := read_digits 10 s 0 0 in
  let '(m, nf, r') :=
    match r with
    | String "." t => read_digits 10 t i 0
    | _ => (i, 0%nat, r)
    end in
  match (ni + nf)%nat, exponent_part r' with
  | S _, Some e =>
      let scale := e - Z.of_nat nf in
      let m := if negative then - m else m in
      if 0 <=? scale then storable (m * 10 ^ scale)
      else if m mod 10 ^ (- scale) =? 0 then storable (m / 10 ^ (- scale))
      else NaN
  | _, _ => NaN
  end.

(** [Number] on the text of a form control, as far as an integer column
    can tell.  White space around the text is dropped and the empty text
    is [0]; a decimal literal (sign, digits, fraction, exponent) or a
    literal in radix 16, 8 or 2 whose value is an integer of 32 bits is
    that integer.  Every other text is sent to [NaN]: text that is no
    number, and text whose number a stored integer never equals and an
    integer column does not take (a fraction, an infinity, a value out
    of range). *)
Definition decimal_Number (s : string) : number :=
  match trim s with
  | EmptyString => Fin 0
  | String "-" t => decimal_literal true t
  | String "+" t => decimal_literal false t
  | String "0" (String "x" t) | String "0" (String "X" t) => radix_literal 16 t
  | String "0" (String "o" t) | String "0" (String "O" t) => radix_literal 8 t
  | String "0" (String "b" t) | String "0" (String "B" t) => radix_literal 2 t
  | t => decimal_literal false t
  end.

(** Modelled from the spec: the product schema [schema/products] is not
    part of the sources.  The validator requires a title and numeric
    size, price and quantity for every variant, and reports the first
    offending field. *)
Definition required_fields_schema (data : TProduct.t) : option string :=
  if String.eqb (TProduct.title data) "" then Some "title: Required"
  else if forallb
            (fun v =>
               match decimal_Number (TProduct.size v),
                     decimal_Number (TProduct.price v),
                     decimal_Number (TProduct.quantity v) with
               | Fin _, Fin _, Fin _ => true
               | _, _, _ => false
               end)
            (TProduct.variants data)
       then None
       else Some "variants: Expected number".

(** A similarity that scores a title equal to the search text [1], and
    otherwise reads the score of the title from a table. *)
Definition tabled_similarity (title search : string) : Q :=
  if String.eqb title search then 1
  else if String.eqb title "Teapot" then 3 # 10
  else if String.eqb title "Teacup" then 31 # 100
  else if String.eqb title "Tray" then 1 # 4
  else 0.

Definition example_platform : Platform :=
  {| Number := decimal_Number;
     safeParse_error := required_fields_schema;
     SIMILARITY := tabled_similarity |}.

(** The same platform behind a schema that accepts every input. *)
Definition unchecked_platform : Platform :=
  {| Number := decimal_Number;
     safeParse_error := fun _ => None;
     SIMILARITY := tabled_similarity |}.

Definition empty_store : Store.t := Store.mk [] [] [] 1 1.

Definition empty_world : World :=
  mkWorld empty_store (Cache.mk None None []) [] [].

(** A product with a soft-deleted variant of size 10 and an active
    variant of size 12. *)
Definition vase : Product.row := Product.mk 1 "Vase" "Glazed" "vase.png" 0 None.

Definition vase_10 : Variant.row := Variant.mk 1 1 10 5 1 (Some 3).

Definition vase_12 : Variant.row := Variant.mk 2 1 12 7 2 None.

Definition vase_store : Store.t := Store.mk [vase] [vase_10; vase_12] [] 2 3.

Definition vase_world : World :=
  mkWorld vase_store (Cache.mk None None []) [] [].

(** The vase with its purchase items, all of the variant of size 12. *)
Definition sold_vase_world : World :=
  mkWorld
    (Store.mk [vase] [vase_10; vase_12]
              [PurchaseItem.mk 1 2 3 7; PurchaseItem.mk 2 2 1 6] 2 3)
    (Cache.mk None None []) [] [].

(** The vase with the first page and the count in the cache. *)
Definition vase_listed : ProductWithVariants.row :=
  ProductWithVariants.mk vase [vase_12] None.

Definition cached_vase_world : World :=
  mkWorld vase_store (Cache.mk (Some [vase_listed]) (Some 1) []) [] [].

(** A product deleted on day 3. *)
Definition bowl_deleted : Product.row :=
  Product.mk 1 "Bowl" "Stoneware" "bowl.png" 0 (Some 3).

Definition bowl_world : World :=
  mkWorld (Store.mk [bowl_deleted] [Variant.mk 1 1 8 4 2 None] [] 2 2)
          (Cache.mk None None []) [] [].

(** An active product whose only variant is soft-deleted. *)
Definition urn : Product.row := Product.mk 1 "Urn" "Tall" "urn.png" 0 None.

Definition urn_10 : Variant.row := Variant.mk 1 1 10 5 1 (Some 3).

Definition urn_store : Store.t := Store.mk [urn] [urn_10] [] 2 2.

Definition urn_world : World :=
  mkWorld urn_store (Cache.mk None None []) [] [].

(** Inputs of [createProduct]: one without a title, one well formed. *)
Definition untitled : TProduct.t :=
  TProduct.mk "" "No title" "untitled.png" [TProduct.mkVariant "10" "5" "1"].

Definition bowl_input : TProduct.t :=
  TProduct.mk "Bowl" "Stoneware" "bowl.png" [TProduct.mkVariant "8" "4" "2"].

(** An empty store in front of a cache whose next call fails. *)
Definition cache_down_world : World :=
  mkWorld empty_store (Cache.mk None None [true]) [] [].

(** Three active products with an active variant each, scoring 0.3,
    0.31 and 0.25 against any other search text. *)
Definition tea_world : World :=
  mkWorld
    (Store.mk [Product.mk 1 "Teapot" "" "" 0 None;
               Product.mk 2 "Tray" "" "" 0 None;
               Product.mk 3 "Teacup" "" "" 0 None]
              [Variant.mk 1 1 10 5 1 None;
               Variant.mk 2 2 10 5 1 None;
               Variant.mk 3 3 10 5 1 None] [] 4 4)
    (Cache.mk None None []) [] [].

(** An input whose second variant has a price that is not a number. *)
Definition mispriced_input : TProduct.t :=
  TProduct.mk "Jug" "Salt glaze" "jug.png"
    [TProduct.mkVariant "8" "4" "2"; TProduct.mkVariant "9" "four" "2"].

(** Updates of the vase: one that renames it and keeps only the size 12,
    one that keeps both sizes and adds the size 14, one with a price that
    is not a number, and one without a variant list. *)
Definition rename_keep_12 : TProduct.partial :=
  TProduct.mkPartial (Some "Amphora") (Some "") None
    (Some [TProduct.mkVariant "12" "7" "2"]).

Definition add_14 : TProduct.partial :=
  TProduct.mkPartial (Some "Vase") None None
    (Some [TProduct.mkVariant "10" "5" "1"; TProduct.mkVariant "12" "7" "2";
           TProduct.mkVariant "14" "9" "3"]).

Definition misprice_10 : TProduct.partial :=
  TProduct.mkPartial (Some "Vase") None None
    (Some [TProduct.mkVariant "14" "9" "3"; TProduct.mkVariant "10" "six" "1"]).

Definition rename_only : TProduct.partial :=
  TProduct.mkPartial (Some "Amphora") None None None.

(** Two updates of the vase with the same variant list, a new price for
    the size 10: one supplies the title as well, the other supplies
    nothing but the variant list. *)
Definition reprice_10 : TProduct.partial :=
  TProduct.mkPartial (Some "Vase") None None
    (Some [TProduct.mkVariant "10" "6" "1"]).

Definition reprice_10_only : TProduct.partial :=
  TProduct.mkPartial None None None
    (Some [TProduct.mkVariant "10" "6" "1"]).

(* ================================================================== *)
(** ** Vocabulary of the specification *)

Section Vocabulary.
Context `{Platform}.

(** The desired variant [d] has the size of the stored variant [p]. *)
Definition same_size (p : Variant.row) (d : TProduct.variant) : Prop :=
  Number (TProduct.size d) = Fin (Variant.size p).

(** The desired variant [d] differs from [p] in price or quantity. *)
Definition different_values (p : Variant.row) (d : TProduct.variant) : Prop :=
  Number (TProduct.price d) <> Fin (Variant.price p)
  \/ Number (TProduct.quantity d) <> Fin (Variant.quantity p).

Definition same_values (p : Variant.row) (d : TProduct.variant) : Prop :=
  Number (TProduct.price d) = Fin (Variant.price p)
  /\ Number (TProduct.quantity d) = Fin (Variant.quantity p).

(** The fourth class of the specification, which the code never
    builds: desired variants that match a stored one in size, price
    and quantity. *)
Definition unchangedVariants
    (prevVariants : list Variant.row)
    (currentVariants : list TProduct.variant) : list TProduct.variant :=
  filter
    (fun d =>
       existsb
         (fun p =>
            strict_eq (Fin (Variant.size p)) (Number (TProduct.size d))
            && strict_eq (Fin (Variant.price p)) (Number (TProduct.price d))
            && strict_eq (Fin (Variant.quantity p)) (Number (TProduct.quantity d)))
         prevVariants)
    currentVariants.

End Vocabulary.

(** [hoare P m Q E]: started in a state satisfying [P], the action [m]
    either returns [a] in a state satisfying [Q a] or throws in a state
    satisfying [E]. *)
Definition hoare {S A : Type} (P : S -> Prop) (m : M S A)
    (Q : A -> S -> Prop) (E : S -> Prop) : Prop :=
  forall s, P s ->
    match m s with
    | (Return a, s') => Q a s'
    | (Throw _, s') => E s'
    end.

(** All three fields of a desired variant are text of finite numbers. *)
Definition numeric `{Platform} (d : TProduct.variant) : Prop :=
  (exists s, Number (TProduct.size d) = Fin s)
  /\ (exists p, Number (TProduct.price d) = Fin p)
  /\ (exists q, Number (TProduct.quantity d) = Fin q).

(** [x] is in the table [T] and is its only row for that product and
    size. *)
Definition keyed_as (x : Variant.row) (T : list Variant.row) : Prop :=
  In x T
  /\ forall r, In r T ->
       Variant.productId r = Variant.productId x ->
       Variant.size r = Variant.size x -> r = x.

(** The action [m] does not write to the store. *)
Definition keeps_db {A : Type} (m : M World A) : Prop :=
  forall st, hoare (fun w => db w = st) m (fun _ w => db w = st) (fun w => db w = st).

(** One of the next [n] cache calls fails. *)
Definition outage_within (n : nat) (w : World) : Prop :=
  exists k, (k < n)%nat /\ nth k (Cache.outages (cache w)) false = true.

(** A product has a variant that is not soft-deleted. *)
Definition has_active_variant (st : Store.t) (p : Product.row) : Prop :=
  exists v, In v (Store.variants st)
            /\ Variant.productId v = Product.id p
            /\ Variant.deletedAt v = None.

(** The purchase items of a variant, and what they add up to. *)
Definition purchases_of (st : Store.t) (v : Variant.row) : list PurchaseItem.row :=
  filter (fun i => PurchaseItem.variantId i =? Variant.id v) (Store.purchaseItems st).

Definition quantity_sold (items : list PurchaseItem.row) : Z :=
  fold_right Z.add 0 (map PurchaseItem.quantity items).

Definition revenue_of (items : list PurchaseItem.row) : Z :=
  fold_right Z.add 0
    (map (fun i => PurchaseItem.quantity i * PurchaseItem.price i) items).

Definition null_as_zero (x : option Z) : Z :=
  match x with
  | Some z => z
  | None => 0
  end.

(** The sum of a list of integers. *)
Definition zsum (xs : list Z) : Z := fold_right Z.add 0 xs.

(** The row that an insertion of the desired variant [x] for the product
    [productId] leaves. *)
Definition inserted_as `{Platform} (productId : Z) (x : TProduct.variant) (r : Variant.row) : Prop :=
  Number (TProduct.size x) = Fin (Variant.size r)
  /\ Number (TProduct.price x) = Fin (Variant.price r)
  /\ Number (TProduct.quantity x) = Fin (Variant.quantity r)
  /\ Variant.productId r = productId
  /\ Variant.deletedAt r = None.

(** A text field of a partial update: a supplied text that is not empty
    replaces the stored one. *)
Definition supplied (field : option string) (stored : string) : string :=
  match field with
  | Some (String c s) => String c s
  | _ => stored
  end.

(** The product row after the partial update [data]. *)
Definition patched (data : TProduct.partial) (p : Product.row) : Product.row :=
  Product.mk (Product.id p)
    (supplied (TProduct.p_title data) (Product.title p))
    (supplied (TProduct.p_description data) (Product.description p))
    (supplied (TProduct.p_imageId data) (Product.image p))
    (Product.createdAt p) (Product.deletedAt p).

(** The partial update names a column of the product: its title, its
    description or its image is a text that is not empty. *)
Definition supplies_column (data : TProduct.partial) : Prop :=
  truthy_string (TProduct.p_title data) = true
  \/ truthy_string (TProduct.p_description data) = true
  \/ truthy_string (TProduct.p_imageId data) = true.

(** Two pages show the same products in the same order, each with the
    same variants up to the order of the variants. *)
Definition same_page (a b : list ProductWithVariants.row) : Prop :=
  Forall2
    (fun r r' =>
       ProductWithVariants.product r = ProductWithVariants.product r'
       /\ ProductWithVariants.total r = ProductWithVariants.total r'
       /\ Permutation (ProductWithVariants.variants r)
                      (ProductWithVariants.variants r'))
    a b.

(** The variant row after the removal of the variants [removed] of the
    product [id]: stamped with the current date when it is a variant of
    the product with the size of one of them. *)
Definition stamp_removed (id now : Z) (removed : list Variant.row) (v : Variant.row)
  : Variant.row :=
  if (Variant.productId v =? id)
     && existsb (fun r => Variant.size r =? Variant.size v) removed
  then Variant.with_deletedAt (Some now) v
  else v.

(** Ids are unique in both tables and below the next value of their
    sequence. *)
Definition unique_ids (st : Store.t) : Prop :=
  NoDup (map Product.id (Store.products st))
  /\ NoDup (map Variant.id (Store.variants st))
  /\ (forall p, In p (Store.products st) -> Product.id p < Store.products_seq st)
  /\ (forall v, In v (Store.variants st) -> Variant.id v < Store.variants_seq st).

(** The sequences of [st] are not behind those of [st0]. *)
Definition sequences_from (st0 st : Store.t) : Prop :=
  Store.products_seq st0 <= Store.products_seq st
  /\ Store.variants_seq st0 <= Store.variants_seq st.

(* ================================================================== *)
(** * Properties *)

(** ** Strict equality *)

Lemma strict_eq_Fin_l (x : Z) (n : number) :
  strict_eq (Fin x) n = true <-> n = Fin x.
Proof.
  destruct n as [y|]; simpl.
  - rewrite Z.eqb_eq. split; intros E; [subst | inversion E]; reflexivity.
  - split; discriminate.
Qed.

Lemma strict_eq_Fin_r (x : Z) (n : number) :
  strict_eq n (Fin x) = true <-> n = Fin x.
Proof.
  destruct n as [y|]; simpl.
  - rewrite Z.eqb_eq. split; intros E; [subst | inversion E]; reflexivity.
  - split; discriminate.
Qed.

Lemma strict_neq_Fin_l (x : Z) (n : number) :
  strict_neq (Fin x) n = true <-> n <> Fin x.
Proof.
  unfold strict_neq. rewrite negb_true_iff, <- not_true_iff_false.
  now rewrite strict_eq_Fin_l.
Qed.

Lemma number_eq_dec (a b : number) : {a = b} + {a <> b}.
Proof. decide equality. apply Z.eq_dec. Qed.

(** ** Lists *)

Lemma existsb_false_iff {A : Type} (f : A -> bool) (l : list A) :
  existsb f l = false <-> forall x, In x l -> f x = false.
Proof.
  induction l as [|a l IH]; simpl.
  - split; [intros _ x [] | reflexivity].
  - rewrite orb_false_iff, IH. split.
    + intros [Ha Hl] x [<-|Hx]; auto.
    + intros Hall. split; [apply Hall; now left | intros x Hx; apply Hall; now right].
Qed.

(** Three tests of which exactly one holds of each element split a list
    into three parts. *)
Lemma filter_partition3 {A : Type} (f g h : A -> bool) (l : list A) :
  (forall x, In x l ->
     (f x = true /\ g x = false /\ h x = false)
     \/ (f x = false /\ g x = true /\ h x = false)
     \/ (f x = false /\ g x = false /\ h x = true)) ->
  Permutation l (filter f l ++ filter g l ++ filter h l).
Proof.
  induction l as [|a l IH]; intros Hx; simpl.
  - constructor.
  - assert (IH' := IH (fun x Hin => Hx x (or_intror Hin))).
    destruct (Hx a (or_introl eq_refl)) as [(-> & -> & ->)|[(-> & -> & ->)|(-> & -> & ->)]].
    + simpl. now constructor.
    + apply Permutation_cons_app. exact IH'.
    + rewrite app_assoc. apply Permutation_cons_app. rewrite <- app_assoc. exact IH'.
Qed.

(** ** Reconciliation (C1) *)

Section ReconcilerFacts.
Context `{Platform}.

Lemma different_or_same (p : Variant.row) (d : TProduct.variant) :
  different_values p d \/ same_values p d.
Proof.
  unfold different_values, same_values.
  destruct (number_eq_dec (Number (TProduct.price d)) (Fin (Variant.price p)));
    destruct (number_eq_dec (Number (TProduct.quantity d)) (Fin (Variant.quantity p)));
    tauto.
Qed.

Lemma In_removedVariants P D p :
  In p (removedVariants P D) <->
  In p P /\ forall d, In d D -> ~ same_size p d.
Proof.
  unfold removedVariants, same_size.
  rewrite filter_In, negb_true_iff, existsb_false_iff.
  split; intros [Hp Hd]; split; auto; intros d Hin.
  - rewrite <- strict_eq_Fin_r, (Hd d Hin). discriminate.
  - apply not_true_is_false. rewrite strict_eq_Fin_r. auto.
Qed.

Lemma In_addedVariants P D d :
  In d (addedVariants P D) <->
  In d D /\ forall p, In p P -> ~ same_size p d.
Proof.
  unfold addedVariants, same_size.
  rewrite filter_In, negb_true_iff, existsb_false_iff.
  split; intros [Hd Hp]; split; auto; intros p Hin.
  - rewrite <- strict_eq_Fin_l, (Hp p Hin). discriminate.
  - apply not_true_is_false. rewrite strict_eq_Fin_l. auto.
Qed.

(** With sizes as a key, [find] returns the one stored variant of the
    size looked for. *)
Lemma find_by_size P p n :
  NoDup (map Variant.size P) -> In p P -> n = Fin (Variant.size p) ->
  find (fun q => strict_eq (Fin (Variant.size q)) n) P = Some p.
Proof.
  intros Hnd Hin ->. induction P as [|q P IH]; [destruct Hin|].
  simpl in *. inversion Hnd as [|? ? Hq HP]; subst.
  destruct Hin as [->|Hin].
  - now rewrite Z.eqb_refl.
  - destruct (Variant.size q =? Variant.size p) eqn:E.
    + apply Z.eqb_eq in E. exfalso. apply Hq. rewrite E. now apply in_map.
    + auto.
Qed.

Lemma find_by_size_None P n :
  find (fun q => strict_eq (Fin (Variant.size q)) n) P = None <->
  forall p, In p P -> n <> Fin (Variant.size p).
Proof.
  split.
  - intros Hf p Hin E. apply (find_none _ _ Hf) in Hin.
    apply strict_eq_Fin_l in E. congruence.
  - intros Hall. destruct (find _ P) as [q|] eqn:E; [|reflexivity].
    apply find_some in E as [Hin E]. apply strict_eq_Fin_l in E.
    now elim (Hall q Hin).
Qed.

Lemma In_updatedVariants P D d :
  NoDup (map Variant.size P) ->
  In d (updatedVariants P D) <->
  In d D /\ exists p, In p P /\ same_size p d /\ different_values p d.
Proof.
  intros Hnd. unfold updatedVariants, same_size, different_values.
  rewrite filter_In. split.
  - intros [Hd Hf]. split; [assumption|].
    destruct (find _ P) as [p|] eqn:E; [|discriminate].
    apply find_some in E as [Hin E]. apply strict_eq_Fin_l in E.
    exists p. apply orb_true_iff in Hf.
    rewrite !strict_neq_Fin_l in Hf. auto.
  - intros [Hd (p & Hin & Hs & Hv)]. split; [assumption|].
    rewrite (find_by_size P p _ Hnd Hin Hs).
    apply orb_true_iff. now rewrite !strict_neq_Fin_l.
Qed.

Lemma In_unchangedVariants P D d :
  In d (unchangedVariants P D) <->
  In d D /\ exists p, In p P /\ same_size p d /\ same_values p d.
Proof.
  unfold unchangedVariants, same_size, same_values.
  rewrite filter_In, existsb_exists. split.
  - intros [Hd (p & Hin & E)]. split; [assumption|]. exists p.
    apply andb_true_iff in E as [E E3]. apply andb_true_iff in E as [E1 E2].
    rewrite strict_eq_Fin_l in E1, E2, E3. auto.
  - intros [Hd (p & Hin & E1 & E2 & E3)]. split; [assumption|]. exists p.
    split; [assumption|]. rewrite !andb_true_iff, !strict_eq_Fin_l. auto.
Qed.

(** Two stored variants of one size are the same row. *)
Lemma size_key P p q :
  NoDup (map Variant.size P) -> In p P -> In q P ->
  Variant.size p = Variant.size q -> p = q.
Proof.
  induction P as [|a P IH]; intros Hnd Hp Hq E; [destruct Hp|].
  simpl in Hnd. inversion Hnd as [|? ? Ha HP]; subst.
  destruct Hp as [->|Hp], Hq as [->|Hq]; auto.
  - exfalso. apply Ha. rewrite E. now apply in_map.
  - exfalso. apply Ha. rewrite <- E. now apply in_map.
Qed.

End ReconcilerFacts.

Section Reconciliation.
Context `{Platform}.

(** C1.  Let the stored variants [P] of a product be keyed by size and
    let [D] be any desired list.  Then, sizes being compared as numbers:
    [removedVariants] holds exactly the stored variants whose size no
    desired variant has; [addedVariants] exactly the desired variants
    whose size no stored variant has; [updatedVariants] exactly the
    desired variants whose size is that of a stored variant with another
    price or another quantity; a desired variant equal in size, price and
    quantity to a stored one is in none of the three lists, nor is that
    stored variant removed; no size occurs in two of the three lists; and
    [D] is, element for element, the added, the updated and the unchanged
    variants together. *)
Theorem reconciliation_classifies (P : list Variant.row) (D : list TProduct.variant) :
  NoDup (map Variant.size P) ->
  (forall p, In p (removedVariants P D) <->
             In p P /\ forall d, In d D -> ~ same_size p d)
  /\ (forall d, In d (addedVariants P D) <->
                In d D /\ forall p, In p P -> ~ same_size p d)
  /\ (forall d, In d (updatedVariants P D) <->
                In d D /\ exists p, In p P /\ same_size p d /\ different_values p d)
  /\ (forall d p, In d D -> In p P -> same_size p d -> same_values p d ->
                  ~ In d (addedVariants P D)
                  /\ ~ In d (updatedVariants P D)
                  /\ ~ In p (removedVariants P D))
  /\ (forall a u, In a (addedVariants P D) -> In u (updatedVariants P D) ->
                  Number (TProduct.size a) <> Number (TProduct.size u))
  /\ (forall a r, In a (addedVariants P D) -> In r (removedVariants P D) ->
                  Number (TProduct.size a) <> Fin (Variant.size r))
  /\ (forall u r, In u (updatedVariants P D) -> In r (removedVariants P D) ->
                  Number (TProduct.size u) <> Fin (Variant.size r))
  /\ Permutation D (addedVariants P D ++ updatedVariants P D ++ unchangedVariants P D).
Proof.
  intros Hkey.
  split; [intros p; apply In_removedVariants|].
  split; [intros d; apply In_addedVariants|].
  split; [intros d; now apply In_updatedVariants|].
  split; [|split; [|split; [|split]]].
  - intros d p Hd Hp Hs [Hv1 Hv2]. repeat split.
    + rewrite In_addedVariants. intros [_ Hno]. exact (Hno p Hp Hs).
    + rewrite In_updatedVariants by assumption.
      intros [_ (q & Hq & Hqs & Hqv)].
      assert (q = p) as ->.
      { apply (size_key P); auto. unfold same_size in *. congruence. }
      destruct Hqv; contradiction.
    + rewrite In_removedVariants. intros [_ Hno]. exact (Hno d Hd Hs).
  - intros a u Ha Hu E.
    apply In_addedVariants in Ha as [_ Hno].
    apply In_updatedVariants in Hu as [_ (p & Hp & Hs & _)]; [|assumption].
    apply (Hno p Hp). unfold same_size in *. congruence.
  - intros a r Ha Hr E.
    apply In_addedVariants in Ha as [_ Hno].
    apply In_removedVariants in Hr as [Hr _].
    exact (Hno r Hr E).
  - intros u r Hu Hr E.
    apply In_updatedVariants in Hu as [Hu _]; [|assumption].
    apply In_removedVariants in Hr as [_ Hno].
    exact (Hno u Hu E).
  - apply filter_partition3. intros d Hd.
    destruct (find (fun q => strict_eq (Fin (Variant.size q)) (Number (TProduct.size d))) P)
      as [p|] eqn:Ef.
    + assert (Hf := Ef). apply find_some in Hf as [Hp Hs].
      assert (Hadd : negb (existsb
                (fun q => strict_eq (Fin (Variant.size q)) (Number (TProduct.size d))) P)
              = false).
      { apply negb_false_iff, existsb_exists. now exists p. }
      rewrite Hadd. right.
      apply strict_eq_Fin_l in Hs.
      destruct (different_or_same p d) as [Hv|Hv].
      * left. split; [reflexivity|]. split.
        -- apply orb_true_iff. rewrite !strict_neq_Fin_l. exact Hv.
        -- apply existsb_false_iff. intros q Hq.
           destruct (strict_eq (Fin (Variant.size q)) (Number (TProduct.size d))) eqn:Eq;
             [|reflexivity].
           apply strict_eq_Fin_l in Eq.
           assert (q = p) as -> by (apply (size_key P); auto; congruence).
           cbn [andb]. apply not_true_is_false. rewrite andb_true_iff, !strict_eq_Fin_l.
           intros [? ?]. destruct Hv; contradiction.
      * right. destruct Hv as [Hv1 Hv2]. split; [reflexivity|]. split.
        -- apply orb_false_iff.
           split; apply negb_false_iff; apply strict_eq_Fin_l; assumption.
        -- apply existsb_exists. exists p. split; [assumption|].
           rewrite !andb_true_iff, !strict_eq_Fin_l. auto.
    + left.
      assert (Hno : forall q, In q P ->
                strict_eq (Fin (Variant.size q)) (Number (TProduct.size d)) = false).
      { intros q Hq. exact (find_none _ _ Ef q Hq). }
      split; [|split].
      * apply negb_true_iff, existsb_false_iff. exact Hno.
      * reflexivity.
      * apply existsb_false_iff. intros q Hq. now rewrite (Hno q Hq).
Qed.

End Reconciliation.

(** ** Rules for actions *)

Section HoareRules.
Context {S : Type}.

Lemma hoare_ret {A : Type} (a : A) (Q : A -> S -> Prop) (E : S -> Prop) :
  hoare (Q a) (ret a) Q E.
Proof. intros s Hs. exact Hs. Qed.

Lemma hoare_throw {A : Type} (e : string) (Q : A -> S -> Prop) (E : S -> Prop) :
  hoare E (throw e) Q E.
Proof. intros s Hs. exact Hs. Qed.

Lemma hoare_bind {A B : Type} (m : M S A) (k : A -> M S B)
    (P : S -> Prop) (R : A -> S -> Prop) (Q : B -> S -> Prop) (E : S -> Prop) :
  hoare P m R E ->
  (forall a, hoare (R a) (k a) Q E) ->
  hoare P (bind m k) Q E.
Proof.
  intros Hm Hk s Hs. unfold bind. specialize (Hm s Hs).
  destruct (m s) as [[a|e] s']; [exact (Hk a s' Hm) | exact Hm].
Qed.

Lemma hoare_consequence {A : Type} (m : M S A)
    (P P' : S -> Prop) (Q Q' : A -> S -> Prop) (E E' : S -> Prop) :
  hoare P' m Q' E' ->
  (forall s, P s -> P' s) ->
  (forall a s, Q' a s -> Q a s) ->
  (forall s, E' s -> E s) ->
  hoare P m Q E.
Proof.
  intros Hm HP HQ HE s Hs. specialize (Hm s (HP s Hs)).
  destruct (m s) as [[a|e] s']; auto.
Qed.

Lemma hoare_gets {A : Type} (f : S -> A) (P : S -> Prop) (E : S -> Prop) :
  hoare P (gets f) (fun a s => P s /\ a = f s) E.
Proof. intros s Hs. simpl. auto. Qed.

Lemma hoare_modify (f : S -> S) (P Q : S -> Prop) (E : S -> Prop) :
  (forall s, P s -> Q (f s)) ->
  hoare P (modify f) (fun _ => Q) E.
Proof. intros Hf s Hs. simpl. auto. Qed.

Lemma hoare_bind_integer (n : number) (P : S -> Prop) (E : S -> Prop) :
  (n = NaN -> forall s, P s -> E s) ->
  hoare P (bind_integer n) (fun z s => P s /\ n = Fin z) E.
Proof.
  intros HE s Hs. destruct n; simpl; auto.
Qed.

(** The rule of [Promise.all(xs.map(f))]: [I pre] holds once the
    statements of the elements [pre] have run. *)
Lemma hoare_mapM {A B : Type} (f : A -> M S B) (xs : list A)
    (I : list A -> S -> Prop) (E : S -> Prop) :
  (forall pre x, In x xs ->
     hoare (I pre) (f x) (fun _ => I (pre ++ [x])) E) ->
  forall pre, hoare (I pre) (mapM f xs) (fun _ => I (pre ++ xs)) E.
Proof.
  induction xs as [|x xs IH]; intros Hf pre.
  - simpl. rewrite app_nil_r. intros s Hs. exact Hs.
  - simpl. eapply hoare_bind; [apply Hf; now left|].
    intros y. eapply hoare_bind.
    + apply (IH (fun pre' x' Hin => Hf pre' x' (or_intror Hin)) (pre ++ [x])).
    + intros ys s Hs. simpl. now rewrite <- app_assoc in Hs.
Qed.

Lemma hoare_forM_ {A B : Type} (f : A -> M S B) (xs : list A)
    (I : list A -> S -> Prop) (E : S -> Prop) :
  (forall pre x, In x xs ->
     hoare (I pre) (f x) (fun _ => I (pre ++ [x])) E) ->
  hoare (I []) (forM_ xs f) (fun _ => I xs) E.
Proof.
  intros Hf. unfold forM_. eapply hoare_bind.
  - apply (hoare_mapM f xs I E Hf []).
  - intros ys s Hs. exact Hs.
Qed.

(** The same rule for an invariant that does not depend on progress. *)
Lemma hoare_forM__invariant {A B : Type} (f : A -> M S B) (xs : list A)
    (I : S -> Prop) (E : S -> Prop) :
  (forall x, In x xs -> hoare I (f x) (fun _ => I) E) ->
  hoare I (forM_ xs f) (fun _ => I) E.
Proof.
  intros Hf. apply (hoare_forM_ f xs (fun _ => I) E).
  intros _ x Hx. exact (Hf x Hx).
Qed.

End HoareRules.

(** ** Statements on the variants table *)

Lemma set_variant_key (id s q p : Z) (r : Variant.row) :
  Variant.productId (Sql.set_variant id s q p r) = Variant.productId r
  /\ Variant.size (Sql.set_variant id s q p r) = Variant.size r.
Proof.
  unfold Sql.set_variant.
  destruct ((Variant.size r =? s) && (Variant.productId r =? id)) eqn:E; simpl; auto.
  apply andb_true_iff in E as [E _]. apply Z.eqb_eq in E. auto.
Qed.

Lemma set_variant_other (id s q p : Z) (r : Variant.row) :
  Variant.size r <> s -> Sql.set_variant id s q p r = r.
Proof.
  intros Hs. unfold Sql.set_variant.
  apply Z.eqb_neq in Hs. now rewrite Hs.
Qed.

Lemma delete_variant_row_key (id s now : Z) (r : Variant.row) :
  Variant.productId (Sql.delete_variant_row id s now r) = Variant.productId r
  /\ Variant.size (Sql.delete_variant_row id s now r) = Variant.size r.
Proof.
  unfold Sql.delete_variant_row.
  destruct ((Variant.size r =? s) && (Variant.productId r =? id)); simpl; auto.
Qed.

Lemma delete_variant_row_other (id s now : Z) (r : Variant.row) :
  Variant.size r <> s -> Sql.delete_variant_row id s now r = r.
Proof.
  intros Hs. unfold Sql.delete_variant_row.
  apply Z.eqb_neq in Hs. now rewrite Hs.
Qed.

(** A row-wise statement that keeps product and size of every row and
    leaves [x] alone keeps [x] the only row of its product and size. *)
Lemma keyed_as_map (f : Variant.row -> Variant.row) (x : Variant.row)
    (T : list Variant.row) :
  (forall r, Variant.productId (f r) = Variant.productId r
             /\ Variant.size (f r) = Variant.size r) ->
  f x = x ->
  keyed_as x T -> keyed_as x (map f T).
Proof.
  intros Hkey Hx [Hin Huniq]. split.
  - rewrite <- Hx. now apply in_map.
  - intros r' Hr' Hp Hs. apply in_map_iff in Hr' as (r & <- & Hr).
    destruct (Hkey r) as [Ep Es].
    rewrite (Huniq r Hr) by congruence. exact Hx.
Qed.

Lemma keyed_as_insert (x row : Variant.row) (T : list Variant.row) :
  Variant.size row <> Variant.size x ->
  keyed_as x T -> keyed_as x (T ++ [row]).
Proof.
  intros Hs [Hin Huniq]. split.
  - apply in_or_app. now left.
  - intros r Hr Ep Es. apply in_app_or in Hr as [Hr|[<-|[]]]; auto.
    contradiction.
Qed.

(** The update of the variants of size [size x] rewrites [x]. *)
Lemma keyed_as_set (id q p : Z) (x : Variant.row) (T : list Variant.row) :
  Variant.productId x = id ->
  keyed_as x T ->
  keyed_as (Variant.mk (Variant.id x) id (Variant.size x) p q None)
           (map (Sql.set_variant id (Variant.size x) q p) T).
Proof.
  intros Hid [Hin Huniq].
  assert (Hx : Sql.set_variant id (Variant.size x) q p x
               = Variant.mk (Variant.id x) id (Variant.size x) p q None).
  { unfold Sql.set_variant. rewrite Hid, !Z.eqb_refl. reflexivity. }
  split.
  - rewrite <- Hx. now apply in_map.
  - simpl. intros r' Hr' Ep Es. apply in_map_iff in Hr' as (r & <- & Hr).
    destruct (set_variant_key id (Variant.size x) q p r) as [Ep' Es'].
    rewrite (Huniq r Hr) by congruence. exact Hx.
Qed.

Lemma insert_variant_run (productId : Z) (price quantity size : number) (st : Store.t) :
  Sql.insert_variant productId price quantity size st =
  match price, quantity, size with
  | Fin p, Fin q, Fin s =>
      let row := Variant.mk (Store.variants_seq st) productId s p q None in
      (Return row,
       Store.mk (Store.products st) (Store.variants st ++ [row])
                (Store.purchaseItems st)
                (Store.products_seq st) (Store.variants_seq st + 1))
  | _, _, _ => (Throw nan_error, st)
  end.
Proof. destruct price, quantity, size; reflexivity. Qed.

Lemma update_variant_run (id : Z) (size quantity price : number) (st : Store.t) :
  Sql.update_variant id size quantity price st =
  match size, quantity, price with
  | Fin s, Fin q, Fin p => (Return tt, Sql.map_variants (Sql.set_variant id s q p) st)
  | _, _, _ => (Throw nan_error, st)
  end.
Proof. destruct size, quantity, price; reflexivity. Qed.

Lemma hoare_gets_const {S A B : Type} (f : S -> A) (a : A) (k : A -> M S B)
    (P : S -> Prop) (Q : B -> S -> Prop) (E : S -> Prop) :
  (forall s, P s -> f s = a) ->
  hoare P (k a) Q E ->
  hoare P (bind (gets f) k) Q E.
Proof.
  intros Hf Hk s Hs. unfold bind, gets. rewrite (Hf s Hs). exact (Hk s Hs).
Qed.

Lemma find_unique {A : Type} (f : A -> bool) (l : list A) (x : A) :
  In x l -> f x = true ->
  (forall y, In y l -> f y = true -> y = x) ->
  find f l = Some x.
Proof.
  induction l as [|a l IH]; intros Hin Hx Huniq; [destruct Hin|].
  simpl. destruct (f a) eqn:Ea.
  - f_equal. apply Huniq; [now left | assumption].
  - destruct Hin as [->|Hin]; [congruence|].
    apply IH; auto. intros y Hy. apply Huniq. now right.
Qed.

(** ** The patch of the product row *)

Lemma supplies_column_dec (data : TProduct.partial) :
  supplies_column data \/ ~ supplies_column data.
Proof.
  unfold supplies_column.
  destruct (truthy_string (TProduct.p_title data)),
           (truthy_string (TProduct.p_description data)),
           (truthy_string (TProduct.p_imageId data)); auto.
  right. intros [E|[E|E]]; discriminate.
Qed.

Lemma patch_product_patched (data : TProduct.partial) (p : Product.row) :
  Sql.patch_product
    (if truthy_string (TProduct.p_imageId data) then TProduct.p_imageId data else None)
    (if truthy_string (TProduct.p_title data) then TProduct.p_title data else None)
    (if truthy_string (TProduct.p_description data)
     then TProduct.p_description data else None) p
  = patched data p.
Proof.
  unfold Sql.patch_product, patched, supplied.
  destruct (TProduct.p_imageId data) as [[|? ?]|],
           (TProduct.p_title data) as [[|? ?]|],
           (TProduct.p_description data) as [[|? ?]|]; reflexivity.
Qed.

(** The patch is applied when it names a column. *)
Lemma update_product_supplied (data : TProduct.partial) (id : Z) (st : Store.t) :
  supplies_column data ->
  Sql.update_product id
    (if truthy_string (TProduct.p_imageId data) then TProduct.p_imageId data else None)
    (if truthy_string (TProduct.p_title data) then TProduct.p_title data else None)
    (if truthy_string (TProduct.p_description data)
     then TProduct.p_description data else None) st
  = (Return tt,
     Sql.map_products (fun p => if Product.id p =? id then patched data p else p) st).
Proof.
  intros Hs.
  assert (E : Sql.map_products
                (fun p => if Product.id p =? id
                          then Sql.patch_product
                                 (if truthy_string (TProduct.p_imageId data)
                                  then TProduct.p_imageId data else None)
                                 (if truthy_string (TProduct.p_title data)
                                  then TProduct.p_title data else None)
                                 (if truthy_string (TProduct.p_description data)
                                  then TProduct.p_description data else None) p
                          else p) st
              = Sql.map_products
                  (fun p => if Product.id p =? id then patched data p else p) st).
  { unfold Sql.map_products. f_equal. apply map_ext. intros p.
    destruct (Product.id p =? id); [apply patch_product_patched | reflexivity]. }
  rewrite <- E. clear E. unfold supplies_column in Hs.
  destruct (TProduct.p_imageId data) as [[|? ?]|],
           (TProduct.p_title data) as [[|? ?]|],
           (TProduct.p_description data) as [[|? ?]|];
    simpl in *; try reflexivity;
    destruct Hs as [E|[E|E]]; discriminate.
Qed.

(** A patch that names no column is refused, and nothing is written. *)
Lemma update_product_empty (data : TProduct.partial) (id : Z) (st : Store.t) :
  ~ supplies_column data ->
  Sql.update_product id
    (if truthy_string (TProduct.p_imageId data) then TProduct.p_imageId data else None)
    (if truthy_string (TProduct.p_title data) then TProduct.p_title data else None)
    (if truthy_string (TProduct.p_description data)
     then TProduct.p_description data else None) st
  = (Throw Sql.no_values_error, st).
Proof.
  intros Hs. unfold supplies_column in Hs.
  destruct (TProduct.p_imageId data) as [[|? ?]|],
           (TProduct.p_title data) as [[|? ?]|],
           (TProduct.p_description data) as [[|? ?]|];
    simpl in *; try reflexivity; exfalso; apply Hs; auto.
Qed.

Lemma patched_unsupplied (data : TProduct.partial) (p : Product.row) :
  ~ supplies_column data -> patched data p = p.
Proof.
  intros Hs. unfold supplies_column in Hs. unfold patched, supplied.
  destruct p as [pid t d i c del].
  destruct (TProduct.p_imageId data) as [[|? ?]|],
           (TProduct.p_title data) as [[|? ?]|],
           (TProduct.p_description data) as [[|? ?]|];
    simpl in *; try reflexivity; exfalso; apply Hs; auto.
Qed.

Lemma hoare_update_product (data : TProduct.partial) (id : Z)
    (P Q E : Store.t -> Prop) :
  (supplies_column data -> forall st, P st ->
     Q (Sql.map_products (fun p => if Product.id p =? id then patched data p else p) st)) ->
  (~ supplies_column data -> forall st, P st -> E st) ->
  hoare P
    (Sql.update_product id
       (if truthy_string (TProduct.p_imageId data) then TProduct.p_imageId data else None)
       (if truthy_string (TProduct.p_title data) then TProduct.p_title data else None)
       (if truthy_string (TProduct.p_description data)
        then TProduct.p_description data else None))
    (fun _ => Q) E.
Proof.
  intros HQ HE st Hst. destruct (supplies_column_dec data) as [Hs|Hs].
  - rewrite update_product_supplied by assumption. now apply HQ.
  - rewrite update_product_empty by assumption. now apply HE.
Qed.

(** ** The transaction of [updateProduct] on one stored variant *)

Section UpdateOneVariant.
Context `{Platform}.

Variables (id now : Z).
Variable V : list Variant.row.
Variable data : TProduct.partial.
Variable D : list TProduct.variant.
Variable v : Variant.row.
Variable d : TProduct.variant.

Hypothesis data_variants : TProduct.p_variants data = Some D.
Hypothesis v_stored : keyed_as v V.
Hypothesis v_product : Variant.productId v = id.
Hypothesis d_desired : In d D.
Hypothesis d_size : same_size v d.
Hypothesis d_key : forall x, In x D -> same_size v x -> x = d.

Local Abbreviation prev := (filter (fun r => Variant.productId r =? id) V).

Lemma v_in_prev : In v prev.
Proof.
  apply filter_In. split; [apply v_stored|]. now apply Z.eqb_eq.
Qed.

Lemma find_prev_d :
  find (fun q => strict_eq (Fin (Variant.size q)) (Number (TProduct.size d))) prev
  = Some v.
Proof.
  apply find_unique.
  - exact v_in_prev.
  - apply strict_eq_Fin_l. exact d_size.
  - intros y Hy Ey. apply filter_In in Hy as [Hy Ep].
    apply Z.eqb_eq in Ep. apply strict_eq_Fin_l in Ey.
    apply v_stored; [assumption | congruence |].
    unfold same_size in d_size. congruence.
Qed.

Lemma added_other_size x :
  In x (addedVariants prev D) -> Number (TProduct.size x) <> Fin (Variant.size v).
Proof.
  intros Hx. apply In_addedVariants in Hx as [_ Hno].
  exact (Hno v v_in_prev).
Qed.

Lemma removed_other_size r :
  In r (removedVariants prev D) -> Variant.size r <> Variant.size v.
Proof.
  intros Hr E. apply In_removedVariants in Hr as [_ Hno].
  apply (Hno d d_desired). unfold same_size in *. congruence.
Qed.

Lemma updated_desired x : In x (updatedVariants prev D) -> In x D.
Proof. intros Hx. now apply filter_In in Hx. Qed.

Lemma d_updated : different_values v d -> In d (updatedVariants prev D).
Proof.
  intros Hv. apply filter_In. split; [exact d_desired|].
  rewrite find_prev_d. apply orb_true_iff. rewrite !strict_neq_Fin_l. exact Hv.
Qed.

Lemma d_not_updated : same_values v d -> ~ In d (updatedVariants prev D).
Proof.
  intros [Hp Hq] Hin. apply filter_In in Hin as [_ Hin].
  rewrite find_prev_d in Hin. apply orb_true_iff in Hin.
  rewrite !strict_neq_Fin_l in Hin. destruct Hin; contradiction.
Qed.

Lemma d_not_added : ~ In d (addedVariants prev D).
Proof. intros Hin. exact (added_other_size d Hin d_size). Qed.

Lemma v_not_removed : ~ In v (removedVariants prev D).
Proof. intros Hin. exact (removed_other_size v Hin eq_refl). Qed.

(** The removals leave the rows of the size of [v] alone. *)
Lemma removals_keep (x : Variant.row) :
  Variant.size x = Variant.size v ->
  hoare (fun st => keyed_as x (Store.variants st))
        (forM_ (removedVariants prev D)
           (fun removedVariant =>
              Sql.soft_delete_variant id (Variant.size removedVariant) now))
        (fun _ st => keyed_as x (Store.variants st))
        (fun _ => False).
Proof.
  intros Hx. apply hoare_forM__invariant. intros r Hr.
  apply hoare_modify. intros st Hst. simpl.
  apply keyed_as_map; [apply delete_variant_row_key | | exact Hst].
  apply delete_variant_row_other. rewrite Hx.
  intros E. exact (removed_other_size r Hr (eq_sym E)).
Qed.

(** The insertions leave the rows of the size of [v] alone; they throw
    only on a field that is not a number. *)
Lemma insertions_keep (E : Store.t -> Prop) :
  (forall st, (exists x, In x (addedVariants prev D) /\ ~ numeric x) -> E st) ->
  hoare (fun st => keyed_as v (Store.variants st))
        (forM_ (addedVariants prev D)
           (fun addedVariant =>
              Sql.insert_variant id
                (Number (TProduct.price addedVariant))
                (Number (TProduct.quantity addedVariant))
                (Number (TProduct.size addedVariant))))
        (fun _ st => keyed_as v (Store.variants st))
        E.
Proof.
  intros HE. apply hoare_forM__invariant. intros x Hx st Hst.
  rewrite insert_variant_run.
  assert (Hnan : ~ numeric x -> E st) by (intros Hn; apply HE; eauto).
  assert (Hs := added_other_size x Hx).
  unfold numeric in Hnan.
  destruct (Number (TProduct.price x)) as [p|];
    [|apply Hnan; intros (_ & [? ?] & _); discriminate].
  destruct (Number (TProduct.quantity x)) as [q|];
    [|apply Hnan; intros (_ & _ & [? ?]); discriminate].
  destruct (Number (TProduct.size x)) as [s|];
    [|apply Hnan; intros ([? ?] & _ & _); discriminate].
  simpl. apply keyed_as_insert; [|exact Hst].
  simpl. congruence.
Qed.

(** When the desired variant of the size of [v] brings another price or
    quantity, the transaction commits with [v] rewritten and no longer
    deleted. *)
Lemma updateProduct_trx_rewrites (p' q' : Z) :
  supplies_column data ->
  Number (TProduct.price d) = Fin p' ->
  Number (TProduct.quantity d) = Fin q' ->
  different_values v d ->
  (forall x, In x D -> numeric x) ->
  hoare (fun st => Store.variants st = V)
        (updateProduct_trx data id now)
        (fun _ st =>
           keyed_as (Variant.mk (Variant.id v) id (Variant.size v) p' q' None)
                    (Store.variants st))
        (fun _ => False).
Proof.
  intros Hcol Hp Hq Hdiff Hnum.
  set (v' := Variant.mk (Variant.id v) id (Variant.size v) p' q' None).
  unfold updateProduct_trx. rewrite data_variants.
  apply (hoare_gets_const _ prev); [intros st ->; reflexivity|].
  cbv beta zeta.
  eapply hoare_bind.
  { apply (hoare_update_product data id _ (fun st => keyed_as v (Store.variants st))).
    - intros _ st Hst. simpl. rewrite Hst. exact v_stored.
    - intros Hno. contradiction. }
  intros ?. cbv beta. eapply hoare_bind.
  { apply insertions_keep. intros st (x & Hx & Hn). apply Hn, Hnum.
    now apply filter_In in Hx. }
  intros ?. cbv beta. eapply hoare_bind.
  { eapply hoare_consequence.
    - apply (hoare_forM_ _ (updatedVariants prev D)
               (fun pre st =>
                  (In d pre /\ keyed_as v' (Store.variants st))
                  \/ (~ In d pre /\ keyed_as v (Store.variants st)))
               (fun _ => False)).
      intros pre x Hx st Hst. rewrite update_variant_run.
      assert (HxD := updated_desired x Hx).
      destruct (Hnum x HxD) as ([s Es] & [p Ep] & [q Eq]).
      rewrite Es, Eq, Ep. simpl.
      destruct (Z.eq_dec s (Variant.size v)) as [->|Hs].
      + assert (x = d) as -> by (apply d_key; assumption).
        assert (p = p') as -> by congruence.
        assert (q = q') as -> by congruence.
        left. split; [apply in_or_app; right; now left|].
        destruct Hst as [[_ Hk]|[_ Hk]].
        * apply (keyed_as_set id q' p' v') in Hk; [exact Hk | reflexivity].
        * apply (keyed_as_set id q' p' v) in Hk; [exact Hk | exact v_product].
      + assert (x <> d).
        { intros ->. unfold same_size in d_size. congruence. }
        destruct Hst as [[Hin Hk]|[Hin Hk]]; [left|right]; split.
        * apply in_or_app. now left.
        * apply keyed_as_map; [apply set_variant_key | | exact Hk].
          apply set_variant_other. simpl. congruence.
        * intros Hin'. apply in_app_or in Hin' as [Hin'|[Hin'|[]]]; auto.
        * apply keyed_as_map; [apply set_variant_key | | exact Hk].
          apply set_variant_other. congruence.
    - intros st Hst. right. split; [intros []|exact Hst].
    - intros ? st Hst. exact Hst.
    - intros st []. }
  intros ?. cbv beta. eapply hoare_consequence.
  - apply (removals_keep v'). reflexivity.
  - intros st [[_ Hk]|[Hno _]]; [exact Hk|].
    elim Hno. now apply d_updated.
  - intros ? st Hst. exact Hst.
  - intros st [].
Qed.

(** When the desired variant of the size of [v] repeats the stored price
    and quantity, the transaction leaves [v] as it is, if it commits. *)
Lemma updateProduct_trx_keeps :
  same_values v d ->
  hoare (fun st => Store.variants st = V)
        (updateProduct_trx data id now)
        (fun _ st => keyed_as v (Store.variants st))
        (fun _ => True).
Proof.
  intros Hsame.
  unfold updateProduct_trx. rewrite data_variants.
  apply (hoare_gets_const _ prev); [intros st ->; reflexivity|].
  cbv beta zeta.
  eapply hoare_bind.
  { apply (hoare_update_product data id _ (fun st => keyed_as v (Store.variants st))).
    - intros _ st Hst. simpl. rewrite Hst. exact v_stored.
    - trivial. }
  intros ?. cbv beta. eapply hoare_bind.
  { apply insertions_keep. trivial. }
  intros ?. cbv beta. eapply hoare_bind.
  { apply (hoare_forM__invariant _ _ (fun st => keyed_as v (Store.variants st))).
    intros x Hx st Hst. rewrite update_variant_run.
    destruct (Number (TProduct.size x)) as [s|] eqn:Es; [|exact I].
    destruct (Number (TProduct.quantity x)) as [q|]; [|exact I].
    destruct (Number (TProduct.price x)) as [p|]; [|exact I].
    simpl. apply keyed_as_map; [apply set_variant_key | | exact Hst].
    apply set_variant_other. intros E. subst s.
    assert (x = d) as -> by (apply d_key; [now apply updated_desired | exact Es]).
    exact (d_not_updated Hsame Hx). }
  intros ?. cbv beta. eapply hoare_consequence.
  - apply (removals_keep v). reflexivity.
  - trivial.
  - intros ? st Hst. exact Hst.
  - intros st [].
Qed.

End UpdateOneVariant.

(** ** What an action leaves of the store *)

Lemma hoare_try_catch {S A : Type} (m : M S A) (handler : string -> M S A)
    (P : S -> Prop) (Q : A -> S -> Prop) (E E' : S -> Prop) :
  hoare P m Q E' ->
  (forall e, hoare E' (handler e) Q E) ->
  hoare P (try_catch m handler) Q E.
Proof.
  intros Hm Hh s Hs. unfold try_catch. specialize (Hm s Hs).
  destruct (m s) as [[a|e] s']; [exact Hm | exact (Hh e s' Hm)].
Qed.

Lemma keeps_db_ret {A : Type} (a : A) : keeps_db (ret a).
Proof. intros st w Hw. exact Hw. Qed.

Lemma keeps_db_throw {A : Type} (e : string) : keeps_db (@throw World A e).
Proof. intros st w Hw. exact Hw. Qed.

Lemma keeps_db_bind {A B : Type} (m : M World A) (k : A -> M World B) :
  keeps_db m -> (forall a, keeps_db (k a)) -> keeps_db (bind m k).
Proof.
  intros Hm Hk st. eapply hoare_bind; [apply Hm|]. intros a. apply Hk.
Qed.

Lemma keeps_db_try_catch {A : Type} (m : M World A) (handler : string -> M World A) :
  keeps_db m -> (forall e, keeps_db (handler e)) -> keeps_db (try_catch m handler).
Proof.
  intros Hm Hh st. eapply hoare_try_catch; [apply Hm|]. intros e. apply Hh.
Qed.

Lemma keeps_db_query {A : Type} (q : Store.t -> A) : keeps_db (query q).
Proof. intros st w Hw. exact Hw. Qed.

Lemma keeps_db_console_log (message : string) : keeps_db (console_log message).
Proof. intros st w Hw. exact Hw. Qed.

Lemma keeps_db_revalidatePath (path : string) : keeps_db (revalidatePath path).
Proof. intros st w Hw. exact Hw. Qed.

Lemma keeps_db_cache_call {A : Type} (op : Cache.t -> A * Cache.t) :
  keeps_db (cache_call op).
Proof.
  intros st w Hw. unfold cache_call.
  destruct (Cache.outages (cache w)) as [|[] rest].
  - destruct (op (cache w)). exact Hw.
  - exact Hw.
  - destruct (op _). exact Hw.
Qed.

Lemma keeps_db_if {A : Type} (b : bool) (m1 m2 : M World A) :
  keeps_db m1 -> keeps_db m2 -> keeps_db (if b then m1 else m2).
Proof. destruct b; auto. Qed.

Create HintDb keeps_db.
#[export] Hint Resolve keeps_db_ret keeps_db_throw keeps_db_query
  keeps_db_console_log keeps_db_revalidatePath keeps_db_cache_call : keeps_db.

Ltac keeps_db :=
  repeat first
    [ apply keeps_db_bind; [|intros ?]
    | apply keeps_db_try_catch; [|intros ?]
    | apply keeps_db_if
    | unfold ProductsCache.get, ProductsCache.set, ProductsCountCache.get,
        ProductsCountCache.set, ProductsCountCache.incr, ProductsCountCache.decr;
      solve [auto with keeps_db] ].

(** After [try { await transaction; rest } catch { handler }] the store
    is what the transaction left, when neither [rest] nor [handler]
    writes to it. *)
Lemma db_after_transaction {A B : Type} (T : M Store.t A)
    (rest : A -> M World B) (handler : string -> M World B) (w : World) :
  (forall a, keeps_db (rest a)) ->
  (forall e, keeps_db (handler e)) ->
  db (snd (try_catch (bind (transaction T) rest) handler w))
  = db (snd (transaction T w)).
Proof.
  intros Hrest Hh. unfold try_catch, bind.
  destruct (transaction T w) as [[a|e] w1]; simpl.
  - specialize (Hrest a (db w1) w1 eq_refl).
    destruct (rest a w1) as [[b|e] w2]; simpl; [exact Hrest|].
    specialize (Hh e (db w2) w2 eq_refl).
    destruct (handler e w2) as [[b|e'] w3]; simpl; congruence.
  - specialize (Hh e (db w1) w1 eq_refl).
    destruct (handler e w1) as [[b|e'] w2]; simpl; congruence.
Qed.

Lemma transaction_commits {A : Type} (T : M Store.t A) (w : World)
    (Q : Store.t -> Prop) :
  hoare (fun st => st = db w) T (fun _ => Q) (fun _ => False) ->
  Q (db (snd (transaction T w))).
Proof.
  intros HT. specialize (HT (db w) eq_refl). unfold transaction.
  destruct (T (db w)) as [[a|e] st']; [exact HT | destruct HT].
Qed.

(** Committed or rolled back, a transaction leaves a variants table that
    satisfies what both the table before it and the table it would
    commit satisfy. *)
Lemma transaction_variants {A : Type} (T : M Store.t A) (w : World)
    (Q : list Variant.row -> Prop) :
  hoare (fun st => st = db w) T (fun _ st => Q (Store.variants st)) (fun _ => True) ->
  Q (Store.variants (db w)) ->
  Q (Store.variants (db (snd (transaction T w)))).
Proof.
  intros HT Hw. specialize (HT (db w) eq_refl). unfold transaction.
  destruct (T (db w)) as [[a|e] st']; [exact HT | exact Hw].
Qed.

Section UpdateProduct.
Context `{Platform}.

Lemma db_after_updateProduct (data : TProduct.partial) (id now : Z) (w : World) :
  db (snd (updateProduct data id now w))
  = db (snd (transaction (updateProduct_trx data id now) w)).
Proof.
  unfold updateProduct. apply db_after_transaction; intros; keeps_db.
Qed.

(** X28.  Un-delete by update, when the update is not refused.  Let the
    update name a column of the product (a title, description or image
    that is not empty).  Let the product have a soft-deleted variant [v],
    its only variant of that size, and let the desired list [D], all of
    whose fields are numbers, contain for that size the single entry [d],
    whose price or quantity differs from the stored ones.  After
    [updateProduct] the store holds, as the only variant of the product
    with that size, the row of [v] with the submitted price and quantity
    and with a null deletion timestamp. *)
Theorem updateProduct_undeletes
    (w : World) (data : TProduct.partial) (id now : Z)
    (D : list TProduct.variant) (v : Variant.row) (d : TProduct.variant)
    (deleted p' q' : Z) :
  supplies_column data ->
  TProduct.p_variants data = Some D ->
  keyed_as v (Store.variants (db w)) ->
  Variant.productId v = id ->
  Variant.deletedAt v = Some deleted ->
  In d D ->
  Number (TProduct.size d) = Fin (Variant.size v) ->
  Number (TProduct.price d) = Fin p' ->
  Number (TProduct.quantity d) = Fin q' ->
  p' <> Variant.price v \/ q' <> Variant.quantity v ->
  (forall x, In x D -> Number (TProduct.size x) = Fin (Variant.size v) -> x = d) ->
  (forall x, In x D -> numeric x) ->
  keyed_as (Variant.mk (Variant.id v) id (Variant.size v) p' q' None)
           (Store.variants (db (snd (updateProduct data id now w)))).
Proof.
  intros Hcol HD Hv Hid _ Hd Hs Hp Hq Hdiff Hkey Hnum.
  rewrite db_after_updateProduct.
  apply (transaction_commits _ w
           (fun st => keyed_as (Variant.mk (Variant.id v) id (Variant.size v) p' q' None)
                               (Store.variants st))).
  eapply hoare_consequence.
  - apply (updateProduct_trx_rewrites id now (Store.variants (db w)) data D v d);
      try eassumption.
    unfold different_values. rewrite Hp, Hq.
    destruct Hdiff; [left|right]; congruence.
  - intros st ->. reflexivity.
  - intros ? st Hst. exact Hst.
  - trivial.
Qed.

(** C9.  Let a product have a soft-deleted variant [v], its only variant
    of that size, and let the desired list [D] contain for that size the
    single entry [d], which repeats the stored price and quantity.  Then
    [d] is neither added nor updated and [v] is not removed; after
    [updateProduct] the row [v] is in the store as it was, deletion
    timestamp included, it is still the only variant of the product with
    that size, and no aggregate of active variants contains a variant of
    the product with that size. *)
Theorem updateProduct_keeps_deleted
    (w : World) (data : TProduct.partial) (id now : Z)
    (D : list TProduct.variant) (v : Variant.row) (d : TProduct.variant)
    (deleted : Z) :
  TProduct.p_variants data = Some D ->
  keyed_as v (Store.variants (db w)) ->
  Variant.productId v = id ->
  Variant.deletedAt v = Some deleted ->
  In d D ->
  Number (TProduct.size d) = Fin (Variant.size v) ->
  Number (TProduct.price d) = Fin (Variant.price v) ->
  Number (TProduct.quantity d) = Fin (Variant.quantity v) ->
  (forall x, In x D -> Number (TProduct.size x) = Fin (Variant.size v) -> x = d) ->
  let prevVariants :=
    filter (fun r => Variant.productId r =? id) (Store.variants (db w)) in
  let w' := snd (updateProduct data id now w) in
  (~ In d (addedVariants prevVariants D)
   /\ ~ In d (updatedVariants prevVariants D)
   /\ ~ In v (removedVariants prevVariants D))
  /\ keyed_as v (Store.variants (db w'))
  /\ (forall p r, In r (Sql.active_variants_of (db w') p) ->
                  Variant.productId r = id ->
                  Variant.size r <> Variant.size v).
Proof.
  intros HD Hv Hid Hdel Hd Hs Hp Hq Hkey prevVariants w'.
  assert (Hsame : same_values v d) by (split; assumption).
  assert (Hkept : keyed_as v (Store.variants (db w'))).
  { unfold w'. rewrite db_after_updateProduct.
    apply (transaction_variants _ w (keyed_as v)); [|exact Hv].
    eapply hoare_consequence.
    - apply (updateProduct_trx_keeps id now (Store.variants (db w)) data D v d);
        eassumption.
    - intros st ->. reflexivity.
    - intros ? st Hst. exact Hst.
    - trivial. }
  split; [|split].
  - split; [|split].
    + apply (d_not_added id _ D v d); assumption.
    + apply (d_not_updated id _ D v d); assumption.
    + apply (v_not_removed id _ D v d); assumption.
  - exact Hkept.
  - intros p r Hr Hrid Hrs.
    apply filter_In in Hr as [Hr Hactive].
    apply andb_true_iff in Hactive as [_ Hnull].
    destruct Hkept as [_ Huniq].
    rewrite (Huniq r Hr) in Hnull by congruence.
    rewrite Hdel in Hnull. discriminate.
Qed.

End UpdateProduct.

(** ** The reconciliation at work on the vase *)

Lemma reconciliation_classifies_witness :
  let D := [TProduct.mkVariant "10" "5" "1";
            TProduct.mkVariant "12" "8" "2";
            TProduct.mkVariant "14" "9" "3"] in
  NoDup (map Variant.size [vase_10; vase_12])
  /\ Permutation D
       (@addedVariants example_platform [vase_10; vase_12] D
        ++ @updatedVariants example_platform [vase_10; vase_12] D
        ++ @unchangedVariants example_platform [vase_10; vase_12] D).
Proof.
  intros D.
  assert (Hkey : NoDup (map Variant.size [vase_10; vase_12])).
  { simpl. repeat constructor; simpl; intuition discriminate. }
  split; [exact Hkey|].
  exact (proj2 (proj2 (proj2 (proj2 (proj2 (proj2 (proj2
    (@reconciliation_classifies example_platform [vase_10; vase_12] D Hkey)))))))).
Defined.

Lemma vase_10_keyed : keyed_as vase_10 (Store.variants (db vase_world)).
Proof.
  split; [now left|].
  intros r [<-|[<-|[]]] _ Hs; [reflexivity | discriminate Hs].
Defined.

Lemma updateProduct_undeletes_witness :
  keyed_as (Variant.mk 1 1 10 6 1 None)
    (Store.variants
       (db (snd (@updateProduct example_platform reprice_10 1 7 vase_world)))).
Proof.
  apply (@updateProduct_undeletes example_platform vase_world reprice_10
           1 7 [TProduct.mkVariant "10" "6" "1"] vase_10
           (TProduct.mkVariant "10" "6" "1") 3 6 1).
  - left. reflexivity.
  - reflexivity.
  - exact vase_10_keyed.
  - reflexivity.
  - reflexivity.
  - now left.
  - reflexivity.
  - reflexivity.
  - reflexivity.
  - left. discriminate.
  - intros x [<-|[]] _. reflexivity.
  - intros x [<-|[]]. repeat split; eexists; reflexivity.
Defined.

Lemma updateProduct_keeps_deleted_witness :
  keyed_as vase_10
    (Store.variants
       (db (snd (@updateProduct example_platform
                   (TProduct.mkPartial (Some "Vase") None None
                      (Some [TProduct.mkVariant "10" "5" "1"]))
                   1 7 vase_world)))).
Proof.
  apply (@updateProduct_keeps_deleted example_platform vase_world
           (TProduct.mkPartial (Some "Vase") None None (Some [TProduct.mkVariant "10" "5" "1"]))
           1 7 [TProduct.mkVariant "10" "5" "1"] vase_10
           (TProduct.mkVariant "10" "5" "1") 3).
  - reflexivity.
  - exact vase_10_keyed.
  - reflexivity.
  - reflexivity.
  - now left.
  - reflexivity.
  - reflexivity.
  - reflexivity.
  - intros x [<-|[]] _. reflexivity.
Defined.

(** C2 at the failing input.  The vase has a soft-deleted variant of
    size 10 with price 5.  An update that submits nothing but the variant
    list, with the size 10 at price 6, is refused when the empty patch of
    the product row is built: the transaction rolls back, the caller
    receives ["Error updating product"], and the world is as it was, the
    variant still soft-deleted at price 5.  The same variant list
    submitted together with the title un-deletes the variant and sets the
    new price. *)
Theorem updateProduct_variants_only_stays_deleted :
  In vase_10 (Store.variants (db vase_world))
  /\ Variant.deletedAt vase_10 = Some 3
  /\ @updateProduct example_platform reprice_10_only 1 7 vase_world
     = (Return (Failure "Error updating product"), vase_world)
  /\ In (Variant.mk 1 1 10 6 1 None)
        (Store.variants
           (db (snd (@updateProduct example_platform reprice_10 1 7 vase_world)))).
Proof.
  split; [now left|]. split; [reflexivity|]. split; [reflexivity | now left].
Qed.

(** ** [deleteProduct] and the store (C3) *)

Lemma db_after_deleteProduct (id now : Z) (w : World) :
  db (snd (deleteProduct id now w))
  = Sql.map_products (Sql.delete_product_row id now) (db w).
Proof.
  unfold deleteProduct, statement.
  rewrite db_after_transaction by (intros; keeps_db).
  reflexivity.
Qed.

Lemma map_fixed {A : Type} (f : A -> A) (l : list A) :
  map f l = l <-> forall x, In x l -> f x = x.
Proof.
  induction l as [|a l IH]; simpl.
  - split; [intros _ x [] | reflexivity].
  - split.
    + intros E. injection E as Ea El.
      intros x [<-|Hx]; [exact Ea | exact (proj1 IH El x Hx)].
    + intros Hall. f_equal; [apply Hall; now left|].
      apply IH. intros x Hx. apply Hall. now right.
Qed.

(** C3, as the code has it.  [deleteProduct] stamps every row of the
    product with the current date, deleted or not: afterwards each row
    of that id carries the current date, the rows of other products and
    all the other tables are as before, and the store as a whole is
    unchanged exactly when every row of that id already carried the
    current date. *)
Theorem deleteProduct_stamps_current_date (id now : Z) (w : World) :
  let st := db w in
  let st' := db (snd (deleteProduct id now w)) in
  Store.products st'
  = map (fun p => if Product.id p =? id then Product.with_deletedAt (Some now) p else p)
        (Store.products st)
  /\ (forall p, In p (Store.products st') -> Product.id p = id ->
                Product.deletedAt p = Some now)
  /\ Store.variants st' = Store.variants st
  /\ Store.purchaseItems st' = Store.purchaseItems st
  /\ (st' = st <->
      forall p, In p (Store.products st) -> Product.id p = id ->
                Product.deletedAt p = Some now).
Proof.
  intros st st'. unfold st'. rewrite db_after_deleteProduct. fold st.
  split; [reflexivity|]. split; [|split; [reflexivity|split; [reflexivity|]]].
  - simpl. intros p' Hp' Hid. apply in_map_iff in Hp' as (p & <- & Hp).
    unfold Sql.delete_product_row in *.
    destruct (Product.id p =? id) eqn:E; [reflexivity|].
    apply Z.eqb_neq in E. contradiction.
  - assert (Hrow : forall p, Sql.delete_product_row id now p = p <->
                             (Product.id p = id -> Product.deletedAt p = Some now)).
    { intros p. unfold Sql.delete_product_row.
      destruct (Product.id p =? id) eqn:E.
      - apply Z.eqb_eq in E. destruct p as [i t de im c dl]; simpl in *.
        unfold Product.with_deletedAt; simpl. split.
        + intros Ep _. now inversion Ep.
        + intros Hd. now rewrite (Hd E).
      - apply Z.eqb_neq in E. split; [contradiction | reflexivity]. }
    split.
    + intros E p Hp. apply Hrow.
      apply (proj1 (map_fixed _ (Store.products st))); [|exact Hp].
      change (Store.products (Sql.map_products (Sql.delete_product_row id now) st)
              = Store.products st).
      now rewrite E.
    + intros Hall. unfold Sql.map_products.
      rewrite (proj2 (map_fixed (Sql.delete_product_row id now) (Store.products st))).
      * now destruct st.
      * intros p Hp. apply Hrow. exact (Hall p Hp).
Qed.

(** The claim C3 fails: the bowl was deleted on day 3, and deleting it
    again on day 7 moves its deletion timestamp to day 7. *)
Lemma deleteProduct_refreshes_timestamp :
  map Product.deletedAt (Store.products (db bowl_world)) = [Some 3]
  /\ map Product.deletedAt
       (Store.products (db (snd (deleteProduct 1 7 bowl_world)))) = [Some 7]
  /\ db (snd (deleteProduct 1 7 bowl_world)) <> db bowl_world.
Proof.
  split; [reflexivity|]. split; [reflexivity|]. discriminate.
Qed.

(** ** [createProduct]: rejected input (C4) and cache outages (C5) *)

Section CreateProduct.
Context `{Platform}.

(** C4, as the code has it.  When the schema rejects the input,
    [createProduct] answers with the fixed error text, whatever the
    fields at fault; the message of the validator goes to the console
    only, and neither the store nor the cache nor the revalidated paths
    change. *)
Theorem createProduct_rejected_input
    (data : TProduct.t) (now : Z) (w : World) (message : string) :
  safeParse_error data = Some message ->
  createProduct data now w
  = (Return (Failure "Error creating product"),
     mkWorld (db w) (cache w) (console w ++ [message]) (revalidated w)).
Proof.
  intros Hinvalid. unfold createProduct, try_catch, bind.
  rewrite Hinvalid. reflexivity.
Qed.

Lemma insert_variants_run (productId : Z) (D : list TProduct.variant) :
  (forall x, In x D -> numeric x) ->
  forall st,
  exists rows,
    mapM (fun variant =>
            Sql.insert_variant productId
              (Number (TProduct.price variant))
              (Number (TProduct.quantity variant))
              (Number (TProduct.size variant))) D st
    = (Return rows,
       Store.mk (Store.products st) (Store.variants st ++ rows)
                (Store.purchaseItems st) (Store.products_seq st)
                (Store.variants_seq st + Z.of_nat (List.length rows)))
    /\ List.length rows = List.length D
    /\ (forall r, In r rows ->
          Variant.productId r = productId /\ Variant.deletedAt r = None).
Proof.
  induction D as [|x D IH]; intros Hnum st.
  - exists []. simpl. rewrite app_nil_r, Z.add_0_r. destruct st.
    split; [reflexivity|]. split; [reflexivity|]. intros r [].
  - destruct (Hnum x (or_introl eq_refl)) as ([s Es] & [p Ep] & [q Eq]).
    set (row := Variant.mk (Store.variants_seq st) productId s p q None).
    destruct (IH (fun y Hy => Hnum y (or_intror Hy))
                 (Store.mk (Store.products st) (Store.variants st ++ [row])
                           (Store.purchaseItems st) (Store.products_seq st)
                           (Store.variants_seq st + 1)))
      as (rows & Hrun & Hlen & Hrows).
    exists (row :: rows). split; [|split].
    + cbn [mapM]. unfold bind at 1. rewrite insert_variant_run, Ep, Eq, Es.
      cbv zeta. fold row. unfold bind at 1. rewrite Hrun. simpl.
      unfold ret. f_equal. f_equal.
      * now rewrite <- app_assoc.
      * rewrite Zpos_P_of_succ_nat. lia.
    + simpl. now rewrite Hlen.
    + intros r [<-|Hr]; [split; reflexivity | exact (Hrows r Hr)].
Qed.

Lemma createProduct_trx_run (data : TProduct.t) (now : Z) (st : Store.t) :
  (forall x, In x (TProduct.variants data) -> numeric x) ->
  let product :=
    Product.mk (Store.products_seq st) (TProduct.title data)
               (TProduct.description data) (TProduct.imageId data) now None in
  exists rows,
    createProduct_trx data now st
    = (Return (product, rows),
       Store.mk (Store.products st ++ [product]) (Store.variants st ++ rows)
                (Store.purchaseItems st) (Store.products_seq st + 1)
                (Store.variants_seq st + Z.of_nat (List.length rows)))
    /\ List.length rows = List.length (TProduct.variants data)
    /\ (forall r, In r rows ->
          Variant.productId r = Product.id product /\ Variant.deletedAt r = None).
Proof.
  intros Hnum product.
  destruct (insert_variants_run (Product.id product) (TProduct.variants data) Hnum
              (Store.mk (Store.products st ++ [product]) (Store.variants st)
                        (Store.purchaseItems st) (Store.products_seq st + 1)
                        (Store.variants_seq st)))
    as (rows & Hrun & Hlen & Hrows).
  exists rows. split; [|split; assumption].
  unfold createProduct_trx, bind, Sql.insert_product. fold product.
  rewrite Hrun. reflexivity.
Qed.

End CreateProduct.

(** *** Cache outages *)

(** A cache call uses up one entry of the outage schedule. *)
Lemma cache_call_outage {A : Type} (op : Cache.t -> A * Cache.t) (n : nat) :
  (forall c, Cache.outages (snd (op c)) = Cache.outages c) ->
  hoare (outage_within (S n)) (cache_call op)
        (fun _ => outage_within n) (fun _ => True).
Proof.
  intros Hop w (k & Hk & Hnth). unfold cache_call.
  destruct (Cache.outages (cache w)) as [|[] rest] eqn:E.
  - destruct k; discriminate.
  - exact I.
  - specialize (Hop (Cache.with_outages rest (cache w))).
    destruct (op (Cache.with_outages rest (cache w))) as [a c]. simpl in *.
    destruct k as [|k]; [discriminate|].
    exists k. split; [lia|]. simpl. now rewrite Hop.
Qed.

Lemma outage_kept {A : Type} (m : M World A) (n : nat) :
  (forall w, cache (snd (m w)) = cache w) ->
  hoare (outage_within n) m (fun _ => outage_within n) (fun _ => True).
Proof.
  intros Hm w (k & Hk & Hnth). specialize (Hm w).
  destruct (m w) as [[a|e] w']; [|exact I].
  simpl in Hm. exists k. now rewrite Hm.
Qed.

(** With an outage among the next four cache calls, the refresh that
    follows the transaction of [createProduct] throws. *)
Lemma createProduct_refresh_outage (res : Product.row * list Variant.row) :
  hoare (outage_within 4) (createProduct_refresh res)
        (fun _ _ => False) (fun _ => True).
Proof.
  unfold createProduct_refresh.
  eapply hoare_bind; [apply (outage_kept _ 4); intros w; reflexivity|].
  intros page. cbv beta.
  eapply hoare_bind; [apply (cache_call_outage _ 3); intros c; reflexivity|].
  intros ?. cbv beta.
  eapply hoare_bind; [apply (cache_call_outage _ 2); intros c; reflexivity|].
  intros total. cbv beta.
  eapply hoare_bind.
  { instantiate (1 := fun _ => outage_within 1).
    destruct (negb (truthy_count total)).
    - eapply hoare_bind; [apply (outage_kept _ 2); intros w; reflexivity|].
      intros n. apply (cache_call_outage _ 1). intros c. reflexivity.
    - eapply hoare_bind; [apply (cache_call_outage _ 1); intros c; reflexivity|].
      intros n. apply (outage_kept _ 1). intros w. reflexivity. }
  intros ?. cbv beta.
  eapply hoare_bind; [apply (outage_kept _ 1); intros w; reflexivity|].
  intros ?. cbv beta.
  eapply hoare_bind; [apply (cache_call_outage _ 0); intros c; reflexivity|].
  intros total' w (k & Hk & _). lia.
Qed.

Section CreateProductOutage.
Context `{Platform}.

Lemma db_after_createProduct (data : TProduct.t) (now : Z) (w : World) :
  safeParse_error data = None ->
  db (snd (createProduct data now w))
  = db (snd (transaction (createProduct_trx data now) w)).
Proof.
  intros Hvalid. unfold createProduct. rewrite Hvalid.
  change (db (snd (try_catch
                     (bind (transaction (createProduct_trx data now))
                           createProduct_refresh)
                     (fun error => console_log error ;;
                                   ret (Failure "Error creating product")) w))
          = db (snd (transaction (createProduct_trx data now) w))).
  apply db_after_transaction; intros; unfold createProduct_refresh; keeps_db.
Qed.

(** C5, as the code has it.  Let the input pass validation with numeric
    variant fields, so that the transaction of [createProduct] commits,
    and let one of the four cache calls that follow fail.  Then the
    product and its variants are in the store, and the caller receives
    the error ["Error creating product"]. *)
Theorem createProduct_cache_outage
    (data : TProduct.t) (now : Z) (w : World) :
  safeParse_error data = None ->
  (forall x, In x (TProduct.variants data) -> numeric x) ->
  outage_within 4 w ->
  let w' := snd (createProduct data now w) in
  exists product rows,
    fst (createProduct_trx data now (db w)) = Return (product, rows)
    /\ Store.products (db w') = Store.products (db w) ++ [product]
    /\ Store.variants (db w') = Store.variants (db w) ++ rows
    /\ List.length rows = List.length (TProduct.variants data)
    /\ fst (createProduct data now w) = Return (Failure "Error creating product").
Proof.
  intros Hvalid Hnum Hout w'.
  destruct (createProduct_trx_run data now (db w) Hnum) as (rows & Hrun & Hlen & _).
  eexists. exists rows.
  split; [now rewrite Hrun|].
  unfold w'. rewrite db_after_createProduct by assumption.
  unfold transaction. rewrite Hrun. simpl.
  split; [reflexivity|]. split; [reflexivity|]. split; [exact Hlen|].
  unfold createProduct, try_catch, bind, transaction. rewrite Hvalid. simpl.
  rewrite Hrun.
  match goal with
  | |- context [createProduct_refresh ?res ?w1] =>
      assert (Hrefresh := createProduct_refresh_outage res w1 Hout);
      destruct (createProduct_refresh res w1) as [[r|e] w2]
  end.
  - destruct Hrefresh.
  - reflexivity.
Qed.

End CreateProductOutage.

Lemma createProduct_rejected_input_witness :
  @createProduct example_platform untitled 7 empty_world
  = (Return (Failure "Error creating product"),
     mkWorld empty_store (Cache.mk None None []) ["title: Required"] []).
Proof.
  apply (@createProduct_rejected_input example_platform untitled 7 empty_world
           "title: Required").
  reflexivity.
Defined.

(** The claim C4 fails: the input without title is rejected with the
    message of the validator, and the caller receives another text,
    which names no field. *)
Lemma createProduct_hides_validation_detail :
  @safeParse_error example_platform untitled = Some "title: Required"
  /\ fst (@createProduct example_platform untitled 7 empty_world)
     = Return (Failure "Error creating product")
  /\ fst (@createProduct example_platform untitled 7 empty_world)
     <> Return (Failure "title: Required").
Proof.
  split; [reflexivity|]. split; [reflexivity|]. discriminate.
Qed.

Lemma createProduct_cache_outage_witness :
  exists product rows,
    fst (@createProduct_trx example_platform bowl_input 7 (db cache_down_world))
    = Return (product, rows)
    /\ Store.products (db (snd (@createProduct example_platform bowl_input 7
                                  cache_down_world)))
       = Store.products (db cache_down_world) ++ [product]
    /\ Store.variants (db (snd (@createProduct example_platform bowl_input 7
                                  cache_down_world)))
       = Store.variants (db cache_down_world) ++ rows
    /\ List.length rows = List.length (TProduct.variants bowl_input)
    /\ fst (@createProduct example_platform bowl_input 7 cache_down_world)
       = Return (Failure "Error creating product").
Proof.
  apply (@createProduct_cache_outage example_platform bowl_input 7 cache_down_world).
  - reflexivity.
  - intros x [<-|[]]. repeat split; eexists; reflexivity.
  - exists 0%nat. split; [lia | reflexivity].
Defined.

(** The claim C5 fails: the bowl is committed to the store, the first
    cache call fails, and [createProduct] returns an error. *)
Lemma createProduct_fails_on_cache_outage :
  @safeParse_error example_platform bowl_input = None
  /\ Store.products
       (db (snd (@createProduct example_platform bowl_input 7 cache_down_world)))
     = [Product.mk 1 "Bowl" "Stoneware" "bowl.png" 7 None]
  /\ Store.variants
       (db (snd (@createProduct example_platform bowl_input 7 cache_down_world)))
     = [Variant.mk 1 1 8 4 2 None]
  /\ Cache.outages (cache cache_down_world) = [true]
  /\ fst (@createProduct example_platform bowl_input 7 cache_down_world)
     = Return (Failure "Error creating product").
Proof.
  repeat split.
Qed.

(** *** Cache outages in [updateProduct] and [deleteProduct] *)

Lemma transaction_cache {A : Type} (T : M Store.t A) (w : World) :
  cache (snd (transaction T w)) = cache w.
Proof.
  unfold transaction. now destruct (T (db w)) as [[a|e] st'].
Qed.

Lemma try_catch_of_throw {A : Type} (m : M World A) (handler : string -> M World A)
    (P : World -> Prop) (w : World) :
  hoare P m (fun _ _ => False) (fun _ => True) ->
  P w ->
  exists e w', m w = (Throw e, w') /\ try_catch m handler w = handler e w'.
Proof.
  intros Hm Hw. specialize (Hm w Hw). unfold try_catch.
  destruct (m w) as [[a|e] w']; [destruct Hm|].
  exists e, w'. split; reflexivity.
Qed.

(** X25.  The same holds of the other two writing actions: the cache calls
    that follow the write are not guarded, and an outage turns the
    answer into the error of the action while the write stays. *)
Lemma deleteProduct_cache_outage (id now : Z) (w : World) :
  outage_within 2 w ->
  fst (deleteProduct id now w) = Return (Failure "Error deleting product")
  /\ db (snd (deleteProduct id now w))
     = Sql.map_products (Sql.delete_product_row id now) (db w).
Proof.
  intros Hout. split; [|apply db_after_deleteProduct].
  unfold deleteProduct.
  match goal with
  | |- fst (try_catch ?m ?h w) = _ =>
      destruct (try_catch_of_throw m h (outage_within 2) w) as (e & w' & _ & ->);
        [|exact Hout|reflexivity]
  end.
  eapply hoare_bind; [apply (outage_kept _ 2); intros w0; apply transaction_cache|].
  intros ?. cbv beta.
  eapply hoare_bind; [apply (outage_kept _ 2); intros w0; reflexivity|].
  intros page. cbv beta.
  eapply hoare_bind; [apply (cache_call_outage _ 1); intros c; reflexivity|].
  intros ?. cbv beta.
  eapply hoare_bind; [apply (cache_call_outage _ 0); intros c; reflexivity|].
  intros n w0 (k & Hk & _). lia.
Qed.

Lemma updateProduct_cache_outage `{Platform}
    (data : TProduct.partial) (id now : Z) (w : World) :
  outage_within 1 w ->
  fst (updateProduct data id now w) = Return (Failure "Error updating product")
  /\ db (snd (updateProduct data id now w))
     = db (snd (transaction (updateProduct_trx data id now) w)).
Proof.
  intros Hout. split; [|apply db_after_updateProduct].
  unfold updateProduct.
  match goal with
  | |- fst (try_catch ?m ?h w) = _ =>
      destruct (try_catch_of_throw m h (outage_within 1) w) as (e & w' & _ & ->);
        [|exact Hout|reflexivity]
  end.
  eapply hoare_bind; [apply (outage_kept _ 1); intros w0; apply transaction_cache|].
  intros ?. cbv beta.
  eapply hoare_bind; [apply (outage_kept _ 1); intros w0; reflexivity|].
  intros page. cbv beta.
  eapply hoare_bind; [apply (cache_call_outage _ 0); intros c; reflexivity|].
  intros ? w0 (k & Hk & _). lia.
Qed.

(** ** [ORDER BY], [LIMIT] and the join *)

Section OrderBy.
Context {A : Type} (leb : A -> A -> bool).

Lemma insert_by_Permutation (x : A) (l : list A) :
  Permutation (Sql.insert_by leb x l) (x :: l).
Proof.
  induction l as [|y l IH]; simpl; [reflexivity|].
  destruct (leb x y); [reflexivity|].
  rewrite IH. apply perm_swap.
Qed.

Lemma order_by_Permutation (l : list A) : Permutation (Sql.order_by leb l) l.
Proof.
  induction l as [|x l IH]; simpl; [reflexivity|].
  rewrite insert_by_Permutation. now constructor.
Qed.

Lemma In_order_by (x : A) (l : list A) : In x (Sql.order_by leb l) <-> In x l.
Proof.
  split; apply Permutation_in;
    [apply order_by_Permutation | symmetry; apply order_by_Permutation].
Qed.

Lemma order_by_length (l : list A) :
  List.length (Sql.order_by leb l) = List.length l.
Proof. apply Permutation_length, order_by_Permutation. Qed.

Hypothesis leb_total : forall a b, leb a b = true \/ leb b a = true.

Lemma insert_by_HdRel (a x : A) (l : list A) :
  leb a x = true ->
  HdRel (fun u v => leb u v = true) a l ->
  HdRel (fun u v => leb u v = true) a (Sql.insert_by leb x l).
Proof.
  intros Hax Hal. destruct l as [|y l]; simpl.
  - now constructor.
  - destruct (leb x y); constructor; [assumption|].
    now inversion Hal.
Qed.

Lemma insert_by_Sorted (x : A) (l : list A) :
  Sorted (fun u v => leb u v = true) l ->
  Sorted (fun u v => leb u v = true) (Sql.insert_by leb x l).
Proof.
  induction l as [|y l IH]; intros Hl; simpl.
  - repeat constructor.
  - destruct (leb x y) eqn:E.
    + constructor; [assumption | now constructor].
    + inversion Hl as [|? ? Hs Hh]; subst.
      constructor; [now apply IH|].
      apply insert_by_HdRel; [|assumption].
      destruct (leb_total x y); congruence.
Qed.

Lemma order_by_Sorted (l : list A) :
  Sorted (fun u v => leb u v = true) (Sql.order_by leb l).
Proof.
  induction l as [|x l IH]; simpl; [constructor|].
  now apply insert_by_Sorted.
Qed.

End OrderBy.

Lemma In_limit_offset {A : Type} (limit offset : nat) (l : list A) (x : A) :
  In x (Sql.limit_offset limit offset l) -> In x l.
Proof.
  unfold Sql.limit_offset. intros Hx.
  rewrite <- (firstn_skipn offset l). apply in_or_app. right.
  rewrite <- (firstn_skipn limit (skipn offset l)). apply in_or_app. now left.
Qed.

Lemma limit_offset_length {A : Type} (limit offset : nat) (l : list A) :
  (List.length (Sql.limit_offset limit offset l) <= List.length l)%nat.
Proof.
  unfold Sql.limit_offset. rewrite length_firstn, length_skipn. lia.
Qed.

Lemma In_active_variants_of (st : Store.t) (p : Product.row) (v : Variant.row) :
  In v (Sql.active_variants_of st p) <->
  In v (Store.variants st)
  /\ Variant.productId v = Product.id p /\ Variant.deletedAt v = None.
Proof.
  unfold Sql.active_variants_of. rewrite filter_In, andb_true_iff, Z.eqb_eq.
  destruct (Variant.deletedAt v); simpl; intuition congruence.
Qed.

Lemma active_variants_nonempty (st : Store.t) (p : Product.row) :
  Sql.active_variants_of st p <> [] <-> has_active_variant st p.
Proof.
  unfold has_active_variant. split.
  - destruct (Sql.active_variants_of st p) as [|v vs] eqn:E; [congruence|].
    intros _. exists v. apply In_active_variants_of. rewrite E. now left.
  - intros (v & Hv) E. apply In_active_variants_of in Hv. rewrite E in Hv.
    destruct Hv.
Qed.

(** The groups of the join are the products kept by the [WHERE] clause
    that have an active variant. *)
Lemma In_join_groups (keep : Product.row -> bool) (st : Store.t)
    (r : ProductWithVariants.row) :
  In r (Sql.join_groups keep st) <->
  In (ProductWithVariants.product r) (Store.products st)
  /\ keep (ProductWithVariants.product r) = true
  /\ Sql.active_variants_of st (ProductWithVariants.product r) <> []
  /\ ProductWithVariants.variants r
     = Sql.active_variants_of st (ProductWithVariants.product r)
  /\ ProductWithVariants.total r = None.
Proof.
  unfold Sql.join_groups. rewrite in_flat_map. split.
  - intros (p & Hp & Hr).
    destruct (Sql.active_variants_of st p) as [|v vs] eqn:E; [destruct Hr|].
    destruct (keep p) eqn:K; [|destruct Hr].
    destruct Hr as [<-|[]]. simpl. rewrite E. repeat split; auto. discriminate.
  - intros (Hp & K & Hne & Hv & Ht). exists (ProductWithVariants.product r).
    split; [assumption|]. rewrite K.
    destruct (Sql.active_variants_of st (ProductWithVariants.product r)) as [|v vs];
      [congruence|].
    left. destruct r as [p vs' t]. simpl in *. congruence.
Qed.

Lemma join_groups_products (keep : Product.row -> bool) (st : Store.t)
    (p : Product.row) :
  In p (map ProductWithVariants.product (Sql.join_groups keep st)) <->
  In p (Store.products st) /\ keep p = true /\ has_active_variant st p.
Proof.
  rewrite in_map_iff. split.
  - intros (r & <- & Hr). apply In_join_groups in Hr as (Hp & K & Hne & _).
    rewrite <- active_variants_nonempty. auto.
  - intros (Hp & K & Hact). apply active_variants_nonempty in Hact.
    exists (ProductWithVariants.mk p (Sql.active_variants_of st p) None).
    split; [reflexivity|]. apply In_join_groups. simpl. auto.
Qed.

(** ** [getProducts] *)

Lemma StronglySorted_map {A B : Type} (f : A -> B) (R : B -> B -> Prop) (l : list A) :
  StronglySorted (fun a b => R (f a) (f b)) l -> StronglySorted R (map f l).
Proof.
  induction 1 as [|a l Hl IH Ha]; simpl; constructor; [assumption|].
  apply Forall_map. exact Ha.
Qed.

Lemma Sorted_weaken {A : Type} (R R' : A -> A -> Prop) (l : list A) :
  (forall a b, R a b -> R' a b) -> Sorted R l -> Sorted R' l.
Proof.
  intros HR. induction 1 as [|a l Hl IH Ha]; constructor; [assumption|].
  destruct Ha; constructor. now apply HR.
Qed.

Lemma gt_true (x c : Q) : Sql.gt x c = true <-> (c < x)%Q.
Proof.
  unfold Sql.gt. rewrite negb_true_iff, <- not_true_iff_false, Qle_bool_iff.
  split; [apply Qnot_le_lt | apply Qlt_not_le].
Qed.

Lemma desc_leb_total (x y : Q) :
  Sql.desc_leb x y = true \/ Sql.desc_leb y x = true.
Proof.
  unfold Sql.desc_leb. rewrite !Qle_bool_iff.
  destruct (Qlt_le_dec x y) as [Hlt|Hle]; [|auto].
  right. now apply Qlt_le_weak.
Qed.

(** The join has one group for each product row that is kept and has an
    active variant, in the order of the product rows. *)
Lemma join_groups_map_product (keep : Product.row -> bool) (st : Store.t) :
  map ProductWithVariants.product (Sql.join_groups keep st)
  = filter (fun p => match Sql.active_variants_of st p with
                     | [] => false
                     | _ :: _ => true
                     end && keep p)
           (Store.products st).
Proof.
  unfold Sql.join_groups.
  induction (Store.products st) as [|p ps IH]; [reflexivity|].
  cbn [flat_map filter]. rewrite map_app, IH.
  destruct (Sql.active_variants_of st p); [reflexivity|].
  now destruct (keep p).
Qed.

Lemma trim_no_break_space :
  trim (String "194" (String "160" (String "009" EmptyString))) = ""
  /\ trim (String "226" (String "128" (String "168" "tea "))) = "tea".
Proof. split; reflexivity. Qed.

Section GetProducts.
Context `{Platform}.

(** Without a search text [getProducts] never reaches the cached page:
    the guard of the cache branch is false, the statement of the
    similarity search is rejected, and the answer is the error of the
    action, whatever the cache holds; store and cached page are left as
    they were. *)
Lemma getProducts_absent_search (offset limit : nat) (w : World) :
  fst (getProducts None offset limit w) = Return (Failure "Error getting products")
  /\ db (snd (getProducts None offset limit w)) = db w
  /\ Cache.products (cache (snd (getProducts None offset limit w)))
     = Cache.products (cache w).
Proof.
  destruct w as [st [cp cc co] cons rev].
  unfold getProducts, try_catch, bind, ProductsCountCache.get,
    ProductsCountCache.set, cache_call, query, gets, throw, console_log, modify, ret.
  destruct co as [|[] [|[] co]], cc as [[|n|n]|];
    cbn -[getProductsCountFromDB]; repeat split.
Qed.


(** X22.  A blank search text and the first page: a cached page that is not
    empty is the answer; otherwise the page is read from the store, and
    it is written to the cache when the cache held nothing. *)
Lemma getProducts_blank_first_page (q : string) (w : World) :
  trim q = "" ->
  Cache.outages (cache w) = [] ->
  exists total,
    fst (getProducts (Some q) 0 defaultLimit w)
    = Return (Success
                (match Cache.products (cache w) with
                 | Some (r :: rs) => r :: rs
                 | _ => getProductsFromDBWithoutQuery 0 defaultLimit (db w)
                 end, total))
    /\ Cache.products (cache (snd (getProducts (Some q) 0 defaultLimit w)))
       = match Cache.products (cache w) with
         | Some cached => Some cached
         | None => Some (getProductsFromDBWithoutQuery 0 defaultLimit (db w))
         end.
Proof.
  intros Hq Hup. destruct w as [st [cp cc co] cons rev]. simpl in Hup. subst co.
  unfold getProducts, try_catch, bind, ProductsCountCache.get,
    ProductsCountCache.set, ProductsCache.get, ProductsCache.set,
    cache_call, query, gets.
  rewrite Hq.
  destruct cc as [[|n|n]|], cp as [[|r rs]|];
    cbn -[getProductsFromDBWithoutQuery getProductsCountFromDB];
    eexists; split; reflexivity.
Qed.

End GetProducts.

(** C6 at the failing input.  The cache holds the first page, the vase,
    and the count.  Called without a search text for the default first
    page, [getProducts] answers with its error, where an empty search
    text is answered from the cache. *)
Lemma getProducts_absent_search_bypasses_cache :
  Cache.products (cache cached_vase_world) = Some [vase_listed]
  /\ fst (@getProducts example_platform None 0 10 cached_vase_world)
     = Return (Failure "Error getting products")
  /\ fst (@getProducts example_platform (Some "") 0 10 cached_vase_world)
     = Return (Success ([vase_listed], 1)).
Proof.
  split; [reflexivity|]. split; reflexivity.
Qed.

Section SimilaritySearch.
Context `{Platform}.

Lemma getProducts_search_run (q : string) (offset limit : nat) (w : World) :
  trim q <> "" ->
  Cache.outages (cache w) = [] ->
  fst (getProducts (Some q) offset limit w)
  = Return (Success
              (Sql.limit_offset limit (offset * limit) (similarProducts q (db w)),
               match Sql.limit_offset limit (offset * limit)
                       (similarProducts q (db w)) with
               | [] => 0
               | _ :: _ => Z.of_nat (List.length (similarProducts q (db w)))
               end)).
Proof.
  intros Hq Hup. apply String.eqb_neq in Hq.
  destruct w as [st [cp cc co] cons rev]. simpl in Hup. subst co.
  assert (Htotal : forall r, In r (similarProducts q st) ->
            ProductWithVariants.total r
            = Some (Z.of_nat (List.length (similarProducts q st)))).
  { intros r Hr. unfold similarProducts in *. cbv zeta in *.
    apply in_map_iff in Hr as (r0 & <- & _). simpl. now rewrite length_map. }
  unfold getProducts, try_catch, bind, ProductsCountCache.get,
    ProductsCountCache.set, cache_call, query, gets.
  rewrite Hq.
  destruct cc as [[|n|n]|]; cbn -[similarProducts getProductsCountFromDB Sql.limit_offset];
    (destruct (Sql.limit_offset limit (offset * limit) (similarProducts q st))
       as [|r rs] eqn:E; [reflexivity|];
     rewrite (Htotal r);
     [reflexivity | apply (In_limit_offset limit (offset * limit)); rewrite E; now left]).
Qed.

(** C7, as the code has it.  For a search text that is not blank and a
    healthy cache, [getProducts] returns the rows [offset * limit + 1]
    to [offset * limit + limit] of the matches, and as total the number
    of matches when that page is not empty.  The matches are the product
    rows of the store that are not deleted, have a variant that is not
    deleted, and whose title scores strictly more than 0.3 against the
    search text, each of them once; every match carries its variants that
    are not deleted and the number of matches; the matches are in
    descending order of score. *)
Theorem getProducts_similarity_search
    (q : string) (offset limit : nat) (w : World) :
  trim q <> "" ->
  Cache.outages (cache w) = [] ->
  exists matches hit,
    fst (getProducts (Some q) offset limit w)
    = Return (Success (firstn limit (skipn (offset * limit) matches),
                       match firstn limit (skipn (offset * limit) matches) with
                       | [] => 0
                       | _ :: _ => Z.of_nat (List.length matches)
                       end))
    /\ (forall p, hit p = true <->
          Product.deletedAt p = None
          /\ has_active_variant (db w) p
          /\ (3 # 10 < SIMILARITY (Product.title p) q)%Q)
    /\ Permutation (map ProductWithVariants.product matches)
                   (filter hit (Store.products (db w)))
    /\ (forall r, In r matches ->
          ProductWithVariants.variants r
          = Sql.active_variants_of (db w) (ProductWithVariants.product r)
          /\ ProductWithVariants.total r = Some (Z.of_nat (List.length matches)))
    /\ StronglySorted
         (fun a b =>
            (SIMILARITY (Product.title (ProductWithVariants.product b)) q
             <= SIMILARITY (Product.title (ProductWithVariants.product a)) q)%Q)
         matches.
Proof.
  intros Hq Hup.
  exists (similarProducts q (db w)),
         (fun p => match Sql.active_variants_of (db w) p with
                   | [] => false
                   | _ :: _ => true
                   end
                   && (Sql.gt (SIMILARITY (Product.title p) q) (3 # 10)
                       && isNull (Product.deletedAt p))).
  split; [apply (getProducts_search_run q offset limit w Hq Hup)|].
  split; [|split; [|split]].
  - intros p. rewrite !andb_true_iff, gt_true, <- active_variants_nonempty.
    destruct (Sql.active_variants_of (db w) p), (Product.deletedAt p); simpl;
      intuition (try discriminate; try congruence).
  - unfold similarProducts. cbv zeta. rewrite map_map. cbn [ProductWithVariants.product].
    rewrite <- join_groups_map_product.
    apply Permutation_map, order_by_Permutation.
  - intros r Hr. unfold similarProducts in *. cbv zeta in *.
    apply in_map_iff in Hr as (g & <- & Hg).
    cbn [ProductWithVariants.variants ProductWithVariants.product
         ProductWithVariants.total].
    rewrite length_map. split; [|reflexivity].
    now apply In_order_by, In_join_groups in Hg as (_ & _ & _ & Hv & _).
  - unfold similarProducts. cbv zeta.
    apply StronglySorted_map. cbn [ProductWithVariants.product].
    apply Sorted_StronglySorted.
    + intros a b c Hab Hbc. eapply Qle_trans; eassumption.
    + eapply Sorted_weaken;
        [|apply order_by_Sorted; intros a b; apply desc_leb_total].
      intros a b. unfold Sql.desc_leb. now rewrite Qle_bool_iff.
Qed.

End SimilaritySearch.

Lemma getProducts_similarity_search_witness :
  exists matches hit,
    fst (@getProducts example_platform (Some "tea") 0 10 tea_world)
    = Return (Success (firstn 10 (skipn (0 * 10) matches),
                       match firstn 10 (skipn (0 * 10) matches) with
                       | [] => 0
                       | _ :: _ => Z.of_nat (List.length matches)
                       end))
    /\ (forall p, hit p = true <->
          Product.deletedAt p = None
          /\ has_active_variant (db tea_world) p
          /\ (3 # 10 < tabled_similarity (Product.title p) "tea")%Q)
    /\ Permutation (map ProductWithVariants.product matches)
                   (filter hit (Store.products (db tea_world)))
    /\ (forall r, In r matches ->
          ProductWithVariants.variants r
          = Sql.active_variants_of (db tea_world) (ProductWithVariants.product r)
          /\ ProductWithVariants.total r = Some (Z.of_nat (List.length matches)))
    /\ StronglySorted
         (fun a b =>
            (tabled_similarity (Product.title (ProductWithVariants.product b)) "tea"
             <= tabled_similarity (Product.title (ProductWithVariants.product a)) "tea")%Q)
         matches.
Proof.
  apply (@getProducts_similarity_search example_platform "tea" 0 10 tea_world).
  - discriminate.
  - reflexivity.
Defined.

(** The threshold is strict: of the scores 0.3, 0.31 and 0.25 only 0.31
    passes. *)
Example getProducts_threshold :
  fst (@getProducts example_platform (Some "tea") 0 10 tea_world)
  = Return (Success
              ([ProductWithVariants.mk (Product.mk 3 "Teacup" "" "" 0 None)
                  [Variant.mk 3 3 10 5 1 None] (Some 1)], 1)).
Proof. reflexivity. Qed.

(** The claim C7 fails: the urn is not deleted and its title scores 1
    against the search text, but its only variant is soft-deleted and
    the search does not return it. *)
Lemma getProducts_search_needs_active_variant :
  In urn (Store.products (db urn_world))
  /\ Product.deletedAt urn = None
  /\ (3 # 10 < tabled_similarity (Product.title urn) "Urn")%Q
  /\ fst (@getProducts example_platform (Some "Urn") 0 10 urn_world)
     = Return (Success ([], 0)).
Proof.
  split; [now left|]. split; [reflexivity|]. split; reflexivity.
Qed.

(** ** [getProductVariants] (C8) *)

Lemma sum_from (xs : list Z) (a : Z) :
  fold_left
    (fun acc x =>
       match x with
       | None => acc
       | Some v => Some (match acc with Some a => a + v | None => v end)
       end)
    (map Some xs) (Some a)
  = Some (a + fold_right Z.add 0 xs).
Proof.
  revert a. induction xs as [|x xs IH]; intros a; simpl.
  - now rewrite Z.add_0_r.
  - rewrite IH. f_equal. lia.
Qed.

Lemma sum_values (xs : list Z) :
  Sql.sum (map Some xs)
  = match xs with
    | [] => None
    | _ :: _ => Some (fold_right Z.add 0 xs)
    end.
Proof.
  destruct xs as [|x xs]; [reflexivity|].
  unfold Sql.sum. simpl. apply sum_from.
Qed.

Lemma sum_joined (f : PurchaseItem.row -> Z) (items : list PurchaseItem.row) :
  Sql.sum (map (option_map f) (map Some items))
  = match items with
    | [] => None
    | _ :: _ => Some (fold_right Z.add 0 (map f items))
    end.
Proof.
  rewrite map_map.
  change (fun x => option_map f (Some x)) with (fun x => Some (f x)).
  rewrite <- (map_map f Some), sum_values.
  now destruct items.
Qed.

Lemma productSale_aggregates (st : Store.t) (v : Variant.row) :
  ProductSale.sold (productSale st v)
  = match purchases_of st v with
    | [] => None
    | items => Some (quantity_sold items)
    end
  /\ ProductSale.revenue (productSale st v)
     = match purchases_of st v with
       | [] => None
       | items => Some (revenue_of items)
       end.
Proof.
  unfold productSale, left_join_items, quantity_sold, revenue_of. cbv zeta.
  fold (purchases_of st v). cbn [ProductSale.sold ProductSale.revenue].
  destruct (purchases_of st v) as [|i items]; [split; reflexivity|].
  rewrite !sum_joined. split; reflexivity.
Qed.

Section GetProductVariants.
Context `{Platform}.

(** C8, as the code has it.  For a product id that is a number,
    [getProductVariants] returns one row for every variant of the
    product, soft-deleted variants included, in ascending order of size.
    The row of a variant shows its id, size, stock and price; its sold
    quantity and its revenue are the sums over its purchase items of the
    quantity and of quantity times price, and both are null, that is
    zero when null is read as zero, for a variant without purchase
    items. *)
Theorem getProductVariants_rows (id : string) (n : Z) (w : World) :
  Number id = Fin n ->
  exists rows,
    getProductVariants id w = (Return (Success rows), w)
    /\ Permutation rows
         (map (productSale (db w))
              (filter (fun v => Variant.productId v =? n) (Store.variants (db w))))
    /\ Sorted (fun a b => ProductSale.size a <= ProductSale.size b) rows
    /\ (forall v, In v (Store.variants (db w)) -> Variant.productId v = n ->
          exists r, In r rows
            /\ ProductSale.id r = Variant.id v
            /\ ProductSale.size r = Variant.size v
            /\ ProductSale.stock r = Variant.quantity v
            /\ ProductSale.price r = Variant.price v
            /\ null_as_zero (ProductSale.sold r) = quantity_sold (purchases_of (db w) v)
            /\ null_as_zero (ProductSale.revenue r) = revenue_of (purchases_of (db w) v)
            /\ (purchases_of (db w) v = [] ->
                ProductSale.sold r = None /\ ProductSale.revenue r = None)).
Proof.
  intros Hid. exists (variantSales n (db w)).
  split; [|split; [|split]].
  - unfold getProductVariants, try_catch, bind. rewrite Hid. reflexivity.
  - apply order_by_Permutation.
  - eapply Sorted_weaken; [|apply order_by_Sorted].
    + intros a b. apply Z.leb_le.
    + intros a b. rewrite !Z.leb_le. lia.
  - intros v Hv Hp. exists (productSale (db w) v).
    destruct (productSale_aggregates (db w) v) as [Hsold Hrev].
    split; [|do 4 (split; [reflexivity|]); split; [|split]].
    + apply In_order_by, in_map, filter_In. split; [assumption|].
      now apply Z.eqb_eq.
    + rewrite Hsold. now destruct (purchases_of (db w) v).
    + rewrite Hrev. now destruct (purchases_of (db w) v).
    + intros E. rewrite Hsold, Hrev, E. split; reflexivity.
Qed.

End GetProductVariants.

Lemma getProductVariants_rows_witness :
  exists rows,
    @getProductVariants example_platform "1" sold_vase_world
    = (Return (Success rows), sold_vase_world)
    /\ Permutation rows
         (map (productSale (db sold_vase_world))
              (filter (fun v => Variant.productId v =? 1)
                      (Store.variants (db sold_vase_world))))
    /\ Sorted (fun a b => ProductSale.size a <= ProductSale.size b) rows
    /\ (forall v, In v (Store.variants (db sold_vase_world)) ->
          Variant.productId v = 1 ->
          exists r, In r rows
            /\ ProductSale.id r = Variant.id v
            /\ ProductSale.size r = Variant.size v
            /\ ProductSale.stock r = Variant.quantity v
            /\ ProductSale.price r = Variant.price v
            /\ null_as_zero (ProductSale.sold r)
               = quantity_sold (purchases_of (db sold_vase_world) v)
            /\ null_as_zero (ProductSale.revenue r)
               = revenue_of (purchases_of (db sold_vase_world) v)
            /\ (purchases_of (db sold_vase_world) v = [] ->
                ProductSale.sold r = None /\ ProductSale.revenue r = None)).
Proof.
  apply (@getProductVariants_rows example_platform "1" 1 sold_vase_world).
  reflexivity.
Defined.

(** The claim C8 fails: the variant of size 10 of the vase is
    soft-deleted, and [getProductVariants] returns a row for it. *)
Lemma getProductVariants_includes_deleted_variant :
  Variant.deletedAt vase_10 = Some 3
  /\ fst (@getProductVariants example_platform "1" sold_vase_world)
     = Return (Success [ProductSale.mk 1 10 1 5 None None;
                        ProductSale.mk 2 12 2 7 (Some 4) (Some 27)]).
Proof.
  split; reflexivity.
Qed.

(** ** The listing against the count (C10) *)

Lemma join_groups_count (keep : Product.row -> bool) (st : Store.t)
    (ps : list Product.row) :
  let group p :=
    match Sql.active_variants_of st p with
    | [] => []
    | vs => if keep p then [ProductWithVariants.mk p vs None] else []
    end in
  (List.length (flat_map group ps) <= List.length (filter keep ps))%nat
  /\ forall p, In p ps -> keep p = true -> Sql.active_variants_of st p = [] ->
       (List.length (flat_map group ps) < List.length (filter keep ps))%nat.
Proof.
  intros group. induction ps as [|x ps [IHle IHlt]].
  - split; [reflexivity | intros p []].
  - assert (Hx : (List.length (group x) <= if keep x then 1 else 0)%nat).
    { unfold group. destruct (Sql.active_variants_of st x), (keep x); simpl; lia. }
    cbn [flat_map filter]. rewrite length_app. split.
    + destruct (keep x); simpl in *; lia.
    + intros p [->|Hp] K E.
      * unfold group in *. rewrite E, K in *. simpl. lia.
      * specialize (IHlt p Hp K E). destruct (keep x); simpl in *; lia.
Qed.

(** C10.  Let a product be not deleted and let all of its variants be
    soft-deleted.  Then no page of [getProductsFromDBWithoutQuery] shows
    it, while [getProductsCountFromDB] counts every product that is not
    deleted, this one included: the count is strictly greater than the
    number of products that all the pages of the listing hold
    together. *)
Theorem listing_omits_product_that_count_includes
    (st : Store.t) (p : Product.row) :
  In p (Store.products st) ->
  Product.deletedAt p = None ->
  (forall v, In v (Store.variants st) ->
             Variant.productId v = Product.id p -> Variant.deletedAt v <> None) ->
  (forall offset limit,
     ~ In p (map ProductWithVariants.product
               (getProductsFromDBWithoutQuery offset limit st)))
  /\ getProductsCountFromDB st
     = Z.of_nat (List.length
                   (filter (fun q => isNull (Product.deletedAt q)) (Store.products st)))
  /\ (forall offset limit r,
        In r (getProductsFromDBWithoutQuery offset limit st) ->
        In r (listedProducts st))
  /\ Z.of_nat (List.length (listedProducts st)) < getProductsCountFromDB st.
Proof.
  intros Hp Hd Hv.
  assert (Hnone : Sql.active_variants_of st p = []).
  { destruct (Sql.active_variants_of st p) as [|v vs] eqn:E; [reflexivity|].
    assert (Hin : In v (Sql.active_variants_of st p)) by (rewrite E; now left).
    apply In_active_variants_of in Hin as (Hin & Hid & Hdel).
    now elim (Hv v Hin Hid). }
  split; [|split; [reflexivity|split]].
  - intros offset limit Hin. apply in_map_iff in Hin as (r & <- & Hr).
    apply In_limit_offset, In_order_by, In_join_groups in Hr as (_ & _ & Hne & _).
    contradiction.
  - intros offset limit r. apply In_limit_offset.
  - unfold getProductsCountFromDB, listedProducts. rewrite order_by_length.
    apply inj_lt.
    apply (proj2 (join_groups_count (fun q => isNull (Product.deletedAt q)) st
                    (Store.products st)) p Hp); [now rewrite Hd | exact Hnone].
Qed.

Lemma listing_omits_product_that_count_includes_witness :
  (forall offset limit,
     ~ In urn (map ProductWithVariants.product
                 (getProductsFromDBWithoutQuery offset limit urn_store)))
  /\ getProductsCountFromDB urn_store
     = Z.of_nat (List.length
                   (filter (fun q => isNull (Product.deletedAt q))
                           (Store.products urn_store)))
  /\ (forall offset limit r,
        In r (getProductsFromDBWithoutQuery offset limit urn_store) ->
        In r (listedProducts urn_store))
  /\ Z.of_nat (List.length (listedProducts urn_store)) < getProductsCountFromDB urn_store.
Proof.
  apply (listing_omits_product_that_count_includes urn_store urn).
  - now left.
  - reflexivity.
  - intros v [<-|[]] _. discriminate.
Defined.

(* ================================================================== *)
(** * Further properties of the actions *)

(** ** [getProduct] *)

Lemma hd_error_flat_map {A B : Type} (f : A -> list B) (l : list A) (x : A) (y : B) :
  In x l -> f x = [y] ->
  (forall a, In a l -> f a = [] \/ f a = [y]) ->
  hd_error (flat_map f l) = Some y.
Proof.
  induction l as [|a l IH]; intros Hx Hfx Hall; [destruct Hx|].
  cbn [flat_map].
  destruct (Hall a (or_introl eq_refl)) as [E|E]; rewrite E; [|reflexivity].
  simpl. destruct Hx as [->|Hx]; [congruence|].
  apply IH; auto. intros b Hb. apply Hall. now right.
Qed.

Lemma join_groups_nil (keep : Product.row -> bool) (st : Store.t) :
  (forall p, In p (Store.products st) -> keep p = true -> ~ has_active_variant st p) ->
  Sql.join_groups keep st = [].
Proof.
  intros Hno. destruct (Sql.join_groups keep st) as [|r rs] eqn:E; [reflexivity|].
  assert (Hr : In r (Sql.join_groups keep st)) by (rewrite E; now left).
  apply In_join_groups in Hr as (Hp & K & Hne & _).
  apply active_variants_nonempty in Hne. now elim (Hno _ Hp K).
Qed.

Section GetProduct.
Context `{Platform}.

(** X1.  [getProduct] looks at the deletion timestamp of the variants
    only: the product of the given id that has a variant which is not
    soft-deleted is returned with exactly its variants that are not
    soft-deleted, whether the product itself is soft-deleted or not, and
    the world is left as it was. *)
Theorem getProduct_found (id : string) (n : Z) (w : World) (p : Product.row) :
  Number id = Fin n ->
  In p (Store.products (db w)) ->
  Product.id p = n ->
  (forall q, In q (Store.products (db w)) -> Product.id q = n -> q = p) ->
  has_active_variant (db w) p ->
  getProduct id w
  = (Return (Success (Some (ProductWithVariants.mk p
                              (Sql.active_variants_of (db w) p) None))), w)
  /\ (forall v, In v (Sql.active_variants_of (db w) p) <->
                In v (Store.variants (db w))
                /\ Variant.productId v = n /\ Variant.deletedAt v = None).
Proof.
  intros Hid Hp Hpn Huniq Hact. split.
  - unfold getProduct, try_catch, bind, query, gets. rewrite Hid. simpl.
    unfold Sql.join_groups.
    rewrite (hd_error_flat_map _ _ p
               (ProductWithVariants.mk p (Sql.active_variants_of (db w) p) None));
      [reflexivity | exact Hp | |].
    + apply active_variants_nonempty in Hact.
      destruct (Sql.active_variants_of (db w) p); [congruence|].
      rewrite Hpn, Z.eqb_refl. reflexivity.
    + intros q Hq. destruct (Sql.active_variants_of (db w) q) eqn:E; [now left|].
      destruct (Product.id q =? n) eqn:En; [|now left].
      apply Z.eqb_eq in En. rewrite (Huniq q Hq En) in *. right. now rewrite E.
  - intros v. rewrite In_active_variants_of, Hpn. reflexivity.
Qed.

(** X2.  When no product of the given id has a variant that is not
    soft-deleted (the id is unknown, or all the variants of the product
    are soft-deleted), [getProduct] succeeds with no product: it is not an
    error, and the world is left as it was. *)
Theorem getProduct_nothing (id : string) (n : Z) (w : World) :
  Number id = Fin n ->
  (forall p, In p (Store.products (db w)) -> Product.id p = n ->
             ~ has_active_variant (db w) p) ->
  getProduct id w = (Return (Success None), w).
Proof.
  intros Hid Hno. unfold getProduct, try_catch, bind, query, gets.
  rewrite Hid. simpl. rewrite join_groups_nil; [reflexivity|].
  intros p Hp K. apply Hno; [assumption | now apply Z.eqb_eq].
Qed.

End GetProduct.

Lemma getProduct_found_witness :
  Product.deletedAt bowl_deleted = Some 3
  /\ @getProduct example_platform "1" bowl_world
     = (Return (Success (Some (ProductWithVariants.mk bowl_deleted
                                 [Variant.mk 1 1 8 4 2 None] None))), bowl_world).
Proof.
  split; [reflexivity|].
  apply (@getProduct_found example_platform "1" 1 bowl_world bowl_deleted).
  - reflexivity.
  - now left.
  - reflexivity.
  - intros q [<-|[]] _. reflexivity.
  - exists (Variant.mk 1 1 8 4 2 None). split; [now left | split; reflexivity].
Defined.

Lemma getProduct_nothing_witness :
  @getProduct example_platform "1" urn_world = (Return (Success None), urn_world).
Proof.
  apply (@getProduct_nothing example_platform "1" 1 urn_world).
  - reflexivity.
  - intros p [<-|[]] _ (v & [<-|[]] & _ & Hd). discriminate Hd.
Defined.

(** ** [getProductWithVariants] *)

Section SaleSearch.
Context `{Platform}.

Lemma In_saleGroups (search : string) (st : Store.t) (r : ProductWithVariants.row) :
  In r (saleGroups search st) <->
  In (ProductWithVariants.product r) (Store.products st)
  /\ Product.deletedAt (ProductWithVariants.product r) = None
  /\ (2 # 10 < SIMILARITY (Product.title (ProductWithVariants.product r)) search)%Q
  /\ ProductWithVariants.variants r
     = Sql.active_variants_of st (ProductWithVariants.product r)
  /\ ProductWithVariants.variants r <> []
  /\ ProductWithVariants.total r = None.
Proof.
  unfold saleGroups. rewrite In_order_by, In_join_groups, andb_true_iff.
  rewrite gt_true.
  destruct (Product.deletedAt (ProductWithVariants.product r)); simpl;
    split; intros; intuition (try discriminate; congruence).
Qed.

Lemma saleGroups_sorted (search : string) (st : Store.t) :
  StronglySorted
    (fun a b =>
       (SIMILARITY (Product.title (ProductWithVariants.product b)) search
        <= SIMILARITY (Product.title (ProductWithVariants.product a)) search)%Q)
    (saleGroups search st).
Proof.
  apply Sorted_StronglySorted.
  - intros a b c Hab Hbc. eapply Qle_trans; eassumption.
  - unfold saleGroups. eapply Sorted_weaken;
      [|apply order_by_Sorted; intros a b; apply desc_leb_total].
    intros a b. unfold Sql.desc_leb. now rewrite Qle_bool_iff.
Qed.

(** X3.  [getProductWithVariants] never fails and never writes: for every
    search text and window it returns a list of at most [limit] rows and
    leaves the world as it was.  The list is empty for a blank search
    text; each row shows a product that is not deleted, scores strictly
    more than 0.2 against the search text, and has at least one variant
    that is not soft-deleted, together with exactly those variants. *)
Theorem getProductWithVariants_rows (search : string) (offset limit : nat) (w : World) :
  exists rows,
    getProductWithVariants search offset limit w = (Return (Success rows), w)
    /\ (List.length rows <= limit)%nat
    /\ (trim search = "" -> rows = [])
    /\ (forall r, In r rows ->
          exists p, In p (Store.products (db w))
            /\ Product.deletedAt p = None
            /\ (2 # 10 < SIMILARITY (Product.title p) search)%Q
            /\ ProductForSale.id r = Product.id p
            /\ ProductForSale.title r = Product.title p
            /\ ProductForSale.image r = Product.image p
            /\ ProductForSale.variants r
               = map ProductForSale.of_variant (Sql.active_variants_of (db w) p)
            /\ ProductForSale.variants r <> []).
Proof.
  unfold getProductWithVariants, try_catch, bind, query, gets.
  destruct (String.eqb (trim search) "") eqn:Eq.
  - exists []. simpl. split; [reflexivity|]. split; [lia|].
    split; [reflexivity | intros r []].
  - apply String.eqb_neq in Eq. simpl. eexists.
    split; [reflexivity|]. split; [|split; [contradiction|]].
    + unfold Sql.limit_offset. rewrite length_firstn. lia.
    + intros r Hr. apply In_limit_offset, in_map_iff in Hr as (g & <- & Hg).
      apply In_saleGroups in Hg as (Hp & Hd & Hs & Hv & Hne & _).
      exists (ProductWithVariants.product g). simpl.
      repeat split; auto; rewrite Hv in *; [reflexivity|].
      destruct (Sql.active_variants_of (db w) (ProductWithVariants.product g));
        [congruence | discriminate].
Qed.

(** X4.  For a search text that is not blank, [getProductWithVariants]
    returns [limit] rows of the matches starting after the first
    [offset] rows: here the offset counts rows, not pages.  The matches
    are the product rows of the store that are not deleted, have a
    variant that is not soft-deleted and score strictly more than 0.2,
    each of them once; every match carries its variants that are not
    soft-deleted; the matches are in descending order of score.  The
    world is left as it was. *)
Theorem getProductWithVariants_window
    (search : string) (offset limit : nat) (w : World) :
  trim search <> "" ->
  exists matches hit,
    getProductWithVariants search offset limit w
    = (Return (Success (firstn limit
                          (skipn offset (map ProductForSale.of_group matches)))), w)
    /\ (forall p, hit p = true <->
          Product.deletedAt p = None
          /\ has_active_variant (db w) p
          /\ (2 # 10 < SIMILARITY (Product.title p) search)%Q)
    /\ Permutation (map ProductWithVariants.product matches)
                   (filter hit (Store.products (db w)))
    /\ (forall r, In r matches ->
          ProductWithVariants.variants r
          = Sql.active_variants_of (db w) (ProductWithVariants.product r))
    /\ StronglySorted
         (fun a b =>
            (SIMILARITY (Product.title (ProductWithVariants.product b)) search
             <= SIMILARITY (Product.title (ProductWithVariants.product a)) search)%Q)
         matches.
Proof.
  intros Hq.
  exists (saleGroups search (db w)),
         (fun p => match Sql.active_variants_of (db w) p with
                   | [] => false
                   | _ :: _ => true
                   end
                   && (Sql.gt (SIMILARITY (Product.title p) search) (2 # 10)
                       && isNull (Product.deletedAt p))).
  split; [|split; [|split; [|split; [|apply saleGroups_sorted]]]].
  - unfold getProductWithVariants, try_catch, bind, query, gets.
    apply String.eqb_neq in Hq. rewrite Hq. reflexivity.
  - intros p. rewrite !andb_true_iff, gt_true, <- active_variants_nonempty.
    destruct (Sql.active_variants_of (db w) p), (Product.deletedAt p); simpl;
      intuition (try discriminate; try congruence).
  - unfold saleGroups. rewrite <- join_groups_map_product.
    apply Permutation_map, order_by_Permutation.
  - intros r Hr. now apply In_saleGroups in Hr as (_ & _ & _ & Hv & _).
Qed.

(** X5.  The sale search is the wider of the two searches: every product
    that the similarity search of [getProducts] matches for a search text
    is also matched, with the same variants, by [getProductWithVariants]. *)
Theorem sale_search_contains_product_search
    (search : string) (st : Store.t) (r : ProductWithVariants.row) :
  In r (similarProducts search st) ->
  In (ProductForSale.of_group r)
     (map ProductForSale.of_group (saleGroups search st)).
Proof.
  intros Hr. unfold similarProducts in Hr. cbv zeta in Hr.
  apply in_map_iff in Hr as (g & <- & Hg).
  apply In_order_by, In_join_groups in Hg as (Hp & K & Hne & Hv & Ht).
  apply andb_true_iff in K as [Ks Kd]. apply gt_true in Ks.
  apply in_map_iff. exists g. split; [reflexivity|].
  apply In_saleGroups. repeat split; auto.
  - now destruct (Product.deletedAt (ProductWithVariants.product g)).
  - eapply Qlt_trans; [|exact Ks]. reflexivity.
  - congruence.
Qed.

End SaleSearch.

Lemma getProductWithVariants_window_witness :
  exists matches hit,
    @getProductWithVariants example_platform "tea" 1 4 tea_world
    = (Return (Success (firstn 4 (skipn 1 (map ProductForSale.of_group matches)))),
       tea_world)
    /\ (forall p, hit p = true <->
          Product.deletedAt p = None
          /\ has_active_variant (db tea_world) p
          /\ (2 # 10 < tabled_similarity (Product.title p) "tea")%Q)
    /\ Permutation (map ProductWithVariants.product matches)
                   (filter hit (Store.products (db tea_world)))
    /\ (forall r, In r matches ->
          ProductWithVariants.variants r
          = Sql.active_variants_of (db tea_world) (ProductWithVariants.product r))
    /\ StronglySorted
         (fun a b =>
            (tabled_similarity (Product.title (ProductWithVariants.product b)) "tea"
             <= tabled_similarity (Product.title (ProductWithVariants.product a)) "tea")%Q)
         matches.
Proof.
  apply (@getProductWithVariants_window example_platform "tea" 1 4 tea_world).
  discriminate.
Defined.

Lemma sale_search_contains_product_search_witness :
  In (ProductForSale.mk 3 "Teacup" "" [ProductForSale.mkVariant 3 5 1 10])
     (map ProductForSale.of_group (@saleGroups example_platform "tea" (db tea_world))).
Proof.
  apply (@sale_search_contains_product_search example_platform "tea" (db tea_world)
           (ProductWithVariants.mk (Product.mk 3 "Teacup" "" "" 0 None)
              [Variant.mk 3 3 10 5 1 None] (Some 1))).
  now left.
Defined.

(** ** The total-sale page against [getProductVariants] *)

Lemma zsum_app (xs ys : list Z) : zsum (xs ++ ys) = zsum xs + zsum ys.
Proof.
  unfold zsum. induction xs as [|x xs IH]; simpl; [reflexivity|]. rewrite IH. lia.
Qed.

Lemma zsum_Permutation (xs ys : list Z) : Permutation xs ys -> zsum xs = zsum ys.
Proof.
  unfold zsum. induction 1; simpl; lia.
Qed.

Lemma zsum_flat_map {A : Type} (f : A -> list Z) (l : list A) :
  zsum (flat_map f l) = zsum (map (fun x => zsum (f x)) l).
Proof.
  induction l as [|a l IH]; [reflexivity|].
  cbn [flat_map map]. rewrite zsum_app, IH. reflexivity.
Qed.

Lemma zsum_map_filter {A : Type} (g : A -> Z) (c : A -> bool) (l : list A) :
  zsum (map g (filter c l)) = zsum (map (fun x => if c x then g x else 0) l).
Proof.
  induction l as [|a l IH]; [reflexivity|].
  cbn [filter map]. destruct (c a); unfold zsum in *; simpl; rewrite IH; reflexivity.
Qed.

Lemma zsum_map_ext {A : Type} (f g : A -> Z) (l : list A) :
  (forall x, In x l -> f x = g x) -> zsum (map f l) = zsum (map g l).
Proof.
  intros Hfg. f_equal. now apply map_ext_in.
Qed.

Lemma zsum_map_add {A : Type} (f g : A -> Z) (l : list A) :
  zsum (map (fun x => f x + g x) l) = zsum (map f l) + zsum (map g l).
Proof.
  unfold zsum. induction l as [|a l IH]; simpl; [reflexivity|]. rewrite IH. lia.
Qed.

Lemma zsum_map_zero {A : Type} (l : list A) : zsum (map (fun _ => 0) l) = 0.
Proof.
  unfold zsum. induction l as [|a l IH]; simpl; [reflexivity|]. now rewrite IH.
Qed.

(** A double sum may be taken in either order. *)
Lemma zsum_swap {A B : Type} (F : A -> B -> Z) (I : list A) (V : list B) :
  zsum (map (fun i => zsum (map (fun v => F i v) V)) I)
  = zsum (map (fun v => zsum (map (fun i => F i v) I)) V).
Proof.
  induction I as [|i I IH]; cbn [map].
  - now rewrite zsum_map_zero.
  - change (zsum (?x :: ?l)) with (x + zsum l).
    rewrite IH, <- zsum_map_add. reflexivity.
Qed.

Lemma flat_map_map_Some {A B : Type} (f : A -> list B) (l : list A) :
  flat_map (fun x => map Some (f x)) l = map Some (flat_map f l).
Proof.
  induction l as [|a l IH]; [reflexivity|].
  cbn [flat_map]. now rewrite map_app, IH.
Qed.

Section TotalSale.
Context `{Platform}.

(** X6.  The total-sale page of a product and size shows the same number
    as the rows of [getProductVariants] for that product add up to over
    the variants of that size, soft-deleted variants included; it shows
    [0] when nothing was sold. *)
Theorem totalsale_page_agrees_with_variant_sales
    (id size : string) (n s : Z) (w : World) :
  Number id = Fin n ->
  Number size = Fin s ->
  totalsale_page id size w
  = (Return (zsum (map (fun r => null_as_zero (ProductSale.sold r))
                       (filter (fun r => ProductSale.size r =? s)
                               (variantSales n (db w))))), w).
Proof.
  intros Hid Hsize.
  unfold totalsale_page, bind, query, gets. rewrite Hid, Hsize. simpl.
  unfold ret. f_equal. f_equal.
  set (st := db w).
  set (c := fun (i : PurchaseItem.row) (v : Variant.row) =>
              (Variant.id v =? PurchaseItem.variantId i)
              && (Variant.productId v =? n) && (Variant.size v =? s)).
  set (L := flat_map
              (fun i => map (fun _ : Variant.row => PurchaseItem.quantity i)
                            (filter (c i) (Store.variants st)))
              (Store.purchaseItems st)).
  assert (Hcount : totalsale_count n s st
                   = match L with [] => None | _ :: _ => Some (zsum L) end).
  { unfold totalsale_count. rewrite <- sum_values. f_equal.
    unfold L. rewrite <- flat_map_map_Some. apply flat_map_ext. intros i.
    now rewrite map_map. }
  rewrite Hcount.
  transitivity (zsum L); [now destruct L|].
  unfold L. rewrite zsum_flat_map.
  rewrite (zsum_map_ext _
             (fun i => zsum (map (fun v => if c i v then PurchaseItem.quantity i else 0)
                                 (Store.variants st)))
             _ (fun i _ => zsum_map_filter _ (c i) (Store.variants st))).
  rewrite (zsum_swap (fun i v => if c i v then PurchaseItem.quantity i else 0)).
  rewrite zsum_map_filter. unfold variantSales.
  rewrite (zsum_Permutation _ _
             (Permutation_map _ (order_by_Permutation _ _))).
  rewrite map_map, zsum_map_filter.
  apply zsum_map_ext. intros v _.
  destruct (productSale_aggregates st v) as [Hsold _].
  cbn [ProductSale.size productSale]. rewrite Hsold.
  destruct (Variant.productId v =? n) eqn:Ep, (Variant.size v =? s) eqn:Es;
    try (rewrite (zsum_map_ext _ (fun _ => 0));
         [apply zsum_map_zero
         |intros i _; unfold c; rewrite Ep, Es, ?andb_false_r; reflexivity]).
  transitivity (quantity_sold (purchases_of st v)); [|now destruct (purchases_of st v)].
  unfold quantity_sold, purchases_of.
  fold (zsum (map PurchaseItem.quantity
                (filter (fun i => PurchaseItem.variantId i =? Variant.id v)
                        (Store.purchaseItems st)))).
  rewrite zsum_map_filter. apply zsum_map_ext. intros i _.
  unfold c. rewrite Ep, Es, !andb_true_r, Z.eqb_sym. reflexivity.
Qed.

End TotalSale.

Lemma totalsale_page_agrees_with_variant_sales_witness :
  @totalsale_page example_platform "1" "12" sold_vase_world
  = (Return (zsum (map (fun r => null_as_zero (ProductSale.sold r))
                       (filter (fun r => ProductSale.size r =? 12)
                               (@variantSales 1 (db sold_vase_world))))),
     sold_vase_world).
Proof.
  apply (@totalsale_page_agrees_with_variant_sales example_platform "1" "12" 1 12
           sold_vase_world); reflexivity.
Defined.

(** ** [createProduct] when everything succeeds *)

Lemma createProduct_refresh_run (res : Product.row * list Variant.row) (w : World) :
  Cache.outages (cache w) = [] ->
  let total :=
    if truthy_count (Cache.count (cache w))
    then ProductsCountCache.current (cache w) + 1
    else getProductsCountFromDB (db w) in
  createProduct_refresh res w
  = (Return (Success (res, total)),
     mkWorld (db w)
       (Cache.mk (Some (getProductsFromDBWithoutQuery 0 defaultLimit (db w)))
                 (Some total) [])
       (console w) (revalidated w ++ ["/products"])).
Proof.
  intros Hup. destruct w as [st [cp cc co] cons rev]. simpl in Hup. subst co.
  unfold createProduct_refresh, bind, ProductsCache.set, ProductsCountCache.get,
    ProductsCountCache.set, ProductsCountCache.incr, cache_call, query, gets,
    revalidatePath, modify, ret.
  destruct cc as [[|n|n]|];
    cbn -[getProductsFromDBWithoutQuery getProductsCountFromDB]; reflexivity.
Qed.

Section CreateProductRows.
Context `{Platform}.

Lemma insert_variants_fields (productId : Z) (D : list TProduct.variant) :
  (forall x, In x D -> numeric x) ->
  forall st,
  exists rows,
    mapM (fun variant =>
            Sql.insert_variant productId
              (Number (TProduct.price variant))
              (Number (TProduct.quantity variant))
              (Number (TProduct.size variant))) D st
    = (Return rows,
       Store.mk (Store.products st) (Store.variants st ++ rows)
                (Store.purchaseItems st) (Store.products_seq st)
                (Store.variants_seq st + Z.of_nat (List.length rows)))
    /\ Forall2 (inserted_as productId) D rows
    /\ map Variant.id rows
       = map (fun k => Store.variants_seq st + Z.of_nat k) (seq 0 (List.length D)).
Proof.
  induction D as [|x D IH]; intros Hnum st.
  - exists []. simpl. rewrite app_nil_r, Z.add_0_r. destruct st.
    split; [reflexivity|]. split; [constructor | reflexivity].
  - destruct (Hnum x (or_introl eq_refl)) as ([s Es] & [p Ep] & [q Eq]).
    set (row := Variant.mk (Store.variants_seq st) productId s p q None).
    destruct (IH (fun y Hy => Hnum y (or_intror Hy))
                 (Store.mk (Store.products st) (Store.variants st ++ [row])
                           (Store.purchaseItems st) (Store.products_seq st)
                           (Store.variants_seq st + 1)))
      as (rows & Hrun & Hrows & Hids).
    exists (row :: rows). split; [|split].
    + cbn [mapM]. unfold bind at 1. rewrite insert_variant_run, Ep, Eq, Es.
      cbv zeta. fold row. unfold bind at 1. rewrite Hrun. simpl.
      unfold ret. f_equal. f_equal.
      * now rewrite <- app_assoc.
      * rewrite Zpos_P_of_succ_nat. lia.
    + constructor; [|exact Hrows]. repeat split; assumption.
    + cbn [map List.length seq]. f_equal; [simpl; lia|].
      rewrite Hids. cbn [Store.variants_seq]. rewrite <- seq_shift, map_map.
      apply map_ext. intros k. lia.
Qed.

End CreateProductRows.

Lemma Forall2_In_r {A B : Type} (R : A -> B -> Prop) (l : list A) (l' : list B) (y : B) :
  Forall2 R l l' -> In y l' -> exists x, In x l /\ R x y.
Proof.
  induction 1 as [|x y' l l' Hxy Hl IH]; intros Hy; [destruct Hy|].
  destruct Hy as [->|Hy]; [exists x; split; [now left | assumption]|].
  destruct (IH Hy) as (x' & Hx' & HR). exists x'. split; [now right | assumption].
Qed.

Lemma order_by_head {A : Type} (leb : A -> A -> bool) (l : list A) (x : A) :
  (forall a b, leb a b = true \/ leb b a = true) ->
  In x l ->
  (forall y, In y l -> y = x \/ leb y x = false) ->
  exists rest, Sql.order_by leb l = x :: rest.
Proof.
  intros Htotal. induction l as [|a l IH]; intros Hx Hfirst; [destruct Hx|].
  cbn [Sql.order_by].
  assert (Hhead : a = x -> exists rest, Sql.insert_by leb a (Sql.order_by leb l) = x :: rest).
  { intros ->. destruct (Sql.order_by leb l) as [|y s] eqn:E; simpl; [eauto|].
    assert (Hy : In y l) by (apply (In_order_by leb); rewrite E; now left).
    destruct (Hfirst y (or_intror Hy)) as [->|Hyx].
    - destruct (Htotal x x) as [Hr|Hr]; rewrite Hr; eauto.
    - destruct (Htotal x y) as [Hr|Hr]; [rewrite Hr; eauto | congruence]. }
  destruct (Hfirst a (or_introl eq_refl)) as [Ha|Ha]; [now apply Hhead|].
  destruct Hx as [Hx|Hx]; [now apply Hhead|].
  destruct (IH Hx (fun y Hy => Hfirst y (or_intror Hy))) as (rest & E).
  rewrite E. simpl. rewrite Ha. eauto.
Qed.

Lemma mapM_throws {S A B : Type} (f : A -> M S B) (l : list A) (x : A) :
  In x l ->
  (forall s, exists e s', f x s = (Throw e, s')) ->
  forall s, exists e s', mapM f l s = (Throw e, s').
Proof.
  intros Hx Hthrow. induction l as [|a l IH]; intros s; [destruct Hx|].
  cbn [mapM]. unfold bind at 1.
  destruct Hx as [->|Hx].
  - destruct (Hthrow s) as (e & s' & ->). eauto.
  - destruct (f a s) as [[b|e] s1]; [|eauto].
    unfold bind at 1. destruct (IH Hx s1) as (e & s' & ->). eauto.
Qed.

Section CreateProductSuccess.
Context `{Platform}.

Lemma createProduct_run (data : TProduct.t) (now : Z) (w : World) :
  safeParse_error data = None ->
  (forall x, In x (TProduct.variants data) -> numeric x) ->
  Cache.outages (cache w) = [] ->
  let product :=
    Product.mk (Store.products_seq (db w)) (TProduct.title data)
               (TProduct.description data) (TProduct.imageId data) now None in
  exists rows,
    let st' :=
      Store.mk (Store.products (db w) ++ [product]) (Store.variants (db w) ++ rows)
               (Store.purchaseItems (db w)) (Store.products_seq (db w) + 1)
               (Store.variants_seq (db w) + Z.of_nat (List.length rows)) in
    let total :=
      if truthy_count (Cache.count (cache w))
      then ProductsCountCache.current (cache w) + 1
      else getProductsCountFromDB st' in
    createProduct data now w
    = (Return (Success (product, rows, total)),
       mkWorld st'
         (Cache.mk (Some (getProductsFromDBWithoutQuery 0 defaultLimit st'))
                   (Some total) [])
         (console w) (revalidated w ++ ["/products"]))
    /\ Forall2 (inserted_as (Store.products_seq (db w))) (TProduct.variants data) rows
    /\ map Variant.id rows
       = map (fun k => Store.variants_seq (db w) + Z.of_nat k)
             (seq 0 (List.length (TProduct.variants data))).
Proof.
  intros Hvalid Hnum Hup product.
  destruct (insert_variants_fields (Product.id product) (TProduct.variants data) Hnum
              (Store.mk (Store.products (db w) ++ [product]) (Store.variants (db w))
                        (Store.purchaseItems (db w)) (Store.products_seq (db w) + 1)
                        (Store.variants_seq (db w))))
    as (rows & Hrun & Hrows & Hids).
  exists rows. cbv zeta. split; [|split; assumption].
  assert (Htrx : createProduct_trx data now (db w)
                 = (Return (product, rows),
                    Store.mk (Store.products (db w) ++ [product])
                             (Store.variants (db w) ++ rows)
                             (Store.purchaseItems (db w)) (Store.products_seq (db w) + 1)
                             (Store.variants_seq (db w) + Z.of_nat (List.length rows)))).
  { unfold createProduct_trx, bind, Sql.insert_product. fold product.
    rewrite Hrun. reflexivity. }
  unfold createProduct, try_catch, bind, transaction. rewrite Hvalid. simpl.
  rewrite Htrx.
  rewrite createProduct_refresh_run by exact Hup. reflexivity.
Qed.

(** X7.  With an input that passes validation, numeric variant fields
    and a healthy cache, [createProduct] appends to the store one product
    row, with the next id of the sequence, the submitted title,
    description and image, the current time and no deletion timestamp, and
    one variant row for each submitted variant, in order, with
    consecutive ids, the id of the new product, the submitted size, price
    and quantity as numbers and no deletion timestamp; it returns these
    rows and leaves every earlier row as it was. *)
Theorem createProduct_inserts_product_and_variants
    (data : TProduct.t) (now : Z) (w : World) :
  safeParse_error data = None ->
  (forall x, In x (TProduct.variants data) -> numeric x) ->
  Cache.outages (cache w) = [] ->
  let product :=
    Product.mk (Store.products_seq (db w)) (TProduct.title data)
               (TProduct.description data) (TProduct.imageId data) now None in
  let w' := snd (createProduct data now w) in
  exists rows total,
    fst (createProduct data now w) = Return (Success (product, rows, total))
    /\ Store.products (db w') = Store.products (db w) ++ [product]
    /\ Store.variants (db w') = Store.variants (db w) ++ rows
    /\ Store.purchaseItems (db w') = Store.purchaseItems (db w)
    /\ Forall2 (inserted_as (Store.products_seq (db w))) (TProduct.variants data) rows
    /\ map Variant.id rows
       = map (fun k => Store.variants_seq (db w) + Z.of_nat k)
             (seq 0 (List.length (TProduct.variants data))).
Proof.
  intros Hvalid Hnum Hup product w'.
  destruct (createProduct_run data now w Hvalid Hnum Hup) as (rows & Hrun & Hrows & Hids).
  cbv zeta in Hrun. fold product in Hrun.
  exists rows. eexists. unfold w'. rewrite Hrun. simpl.
  repeat split; assumption.
Qed.

(** X8.  After a [createProduct] that succeeds, the cached list is the
    first page of the store as it now is, the path ["/products"] has been
    revalidated, and the total returned is the cached count: the store's
    count of products that are not deleted when the cache held no count
    or zero, and otherwise the cached count plus one, whatever the store
    holds. *)
Theorem createProduct_refreshes_cache
    (data : TProduct.t) (now : Z) (w : World) :
  safeParse_error data = None ->
  (forall x, In x (TProduct.variants data) -> numeric x) ->
  Cache.outages (cache w) = [] ->
  let w' := snd (createProduct data now w) in
  exists res total,
    fst (createProduct data now w) = Return (Success (res, total))
    /\ Cache.products (cache w')
       = Some (getProductsFromDBWithoutQuery 0 defaultLimit (db w'))
    /\ Cache.count (cache w') = Some total
    /\ total = (if truthy_count (Cache.count (cache w))
                then ProductsCountCache.current (cache w) + 1
                else getProductsCountFromDB (db w'))
    /\ revalidated w' = revalidated w ++ ["/products"]
    /\ console w' = console w.
Proof.
  intros Hvalid Hnum Hup w'.
  destruct (createProduct_run data now w Hvalid Hnum Hup) as (rows & Hrun & _).
  cbv zeta in Hrun. eexists. eexists. unfold w'. rewrite Hrun. simpl.
  repeat split.
Qed.

(** X9.  Creation and listing compose.  In a store whose product ids and
    variant product ids are below the product sequence, a [createProduct]
    that succeeds with at least one variant puts the new product, with
    exactly its new variants, at the head of the cached list, and a
    following [getProducts] with an empty search text for the default
    first page returns that list. *)
Theorem createProduct_then_getProducts
    (data : TProduct.t) (now : Z) (w : World) :
  safeParse_error data = None ->
  (forall x, In x (TProduct.variants data) -> numeric x) ->
  Cache.outages (cache w) = [] ->
  TProduct.variants data <> [] ->
  (forall p, In p (Store.products (db w)) -> Product.id p < Store.products_seq (db w)) ->
  (forall v, In v (Store.variants (db w)) ->
             Variant.productId v < Store.products_seq (db w)) ->
  let w' := snd (createProduct data now w) in
  exists product rows total rest,
    fst (createProduct data now w) = Return (Success (product, rows, total))
    /\ rows <> []
    /\ Cache.products (cache w')
       = Some (ProductWithVariants.mk product rows None :: rest)
    /\ exists total',
         fst (getProducts (Some "") 0 defaultLimit w')
         = Return (Success (ProductWithVariants.mk product rows None :: rest, total')).
Proof.
  intros Hvalid Hnum Hup Hne Hpids Hvids w'.
  destruct (createProduct_run data now w Hvalid Hnum Hup) as (rows & Hrun & Hrows & _).
  cbv zeta in Hrun.
  set (product := Product.mk (Store.products_seq (db w)) (TProduct.title data)
                    (TProduct.description data) (TProduct.imageId data) now None) in *.
  set (st' := Store.mk (Store.products (db w) ++ [product]) (Store.variants (db w) ++ rows)
                (Store.purchaseItems (db w)) (Store.products_seq (db w) + 1)
                (Store.variants_seq (db w) + Z.of_nat (List.length rows))) in *.
  set (total := if truthy_count (Cache.count (cache w))
                then ProductsCountCache.current (cache w) + 1
                else getProductsCountFromDB st') in *.
  assert (Hactive : Sql.active_variants_of st' product = rows).
  { unfold Sql.active_variants_of. simpl. rewrite filter_app.
    replace (filter _ (Store.variants (db w))) with (@nil Variant.row).
    - simpl. apply forallb_filter_id. apply forallb_forall. intros r Hr.
      destruct (Forall2_In_r _ _ _ _ Hrows Hr) as (x & _ & _ & _ & _ & Hp & Hd).
      rewrite Hp, Hd, Z.eqb_refl. reflexivity.
    - symmetry. destruct (filter _ (Store.variants (db w))) as [|v vs] eqn:E;
        [reflexivity|].
      assert (Hv : In v (v :: vs)) by now left. rewrite <- E in Hv.
      apply filter_In in Hv as [Hv Hc]. apply andb_true_iff in Hc as [Hc _].
      apply Z.eqb_eq in Hc. specialize (Hvids v Hv). lia. }
  assert (Hrows_ne : rows <> []).
  { intros ->. inversion Hrows as [E|]; subst. now apply Hne. }
  destruct (order_by_head
              (fun a b => ProductWithVariants.id b <=? ProductWithVariants.id a)
              (Sql.join_groups (fun p => isNull (Product.deletedAt p)) st')
              (ProductWithVariants.mk product rows None))
    as (rest & Hhead).
  { intros a b. rewrite !Z.leb_le. lia. }
  { apply In_join_groups. simpl. rewrite Hactive.
    split; [apply in_or_app; right; now left|]. auto. }
  { intros g Hg. apply In_join_groups in Hg as (Hp & _ & _ & Hv & Ht).
    simpl in Hp. apply in_app_or in Hp as [Hp|[Hp|[]]].
    - right. apply Z.leb_gt. unfold ProductWithVariants.id. simpl.
      exact (Hpids _ Hp).
    - left. destruct g as [gp gv gt]. simpl in *. subst gp gt.
      now rewrite Hv, Hactive. }
  assert (Hpage : getProductsFromDBWithoutQuery 0 defaultLimit st'
                  = ProductWithVariants.mk product rows None
                    :: firstn 9 rest).
  { unfold getProductsFromDBWithoutQuery, listedProducts. rewrite Hhead. reflexivity. }
  exists product, rows, total, (firstn 9 rest).
  unfold w'. rewrite Hrun. cbn [fst snd cache Cache.products].
  split; [reflexivity|]. split; [exact Hrows_ne|]. split; [now rewrite Hpage|].
  rewrite Hpage. clearbody total.
  unfold getProducts, try_catch, bind, ProductsCountCache.get, ProductsCountCache.set,
    ProductsCache.get, ProductsCache.set, cache_call, query, gets.
  destruct total as [|t|t];
    cbn -[getProductsFromDBWithoutQuery getProductsCountFromDB];
    eexists; reflexivity.
Qed.

End CreateProductSuccess.

Section CreateProductRollback.
Context `{Platform}.

Lemma insert_variant_throws (productId : Z) (x : TProduct.variant) :
  ~ numeric x ->
  forall st, exists e st',
    Sql.insert_variant productId (Number (TProduct.price x))
      (Number (TProduct.quantity x)) (Number (TProduct.size x)) st
    = (Throw e, st').
Proof.
  intros Hx st. rewrite insert_variant_run. unfold numeric in Hx.
  destruct (Number (TProduct.price x)); [|eauto].
  destruct (Number (TProduct.quantity x)); [|eauto].
  destruct (Number (TProduct.size x)); [|eauto].
  exfalso. apply Hx. repeat split; eexists; reflexivity.
Qed.

(** X10.  [createProduct] is all or nothing on the store.  When the input
    passes validation but a field of one of its variants is not a number,
    the caller receives ["Error creating product"] and the store holds
    the rows it held before: neither the product nor the variants that
    were inserted before the failing one remain.  The cache is not
    touched and no path is revalidated. *)
Theorem createProduct_rolls_back (data : TProduct.t) (now : Z) (w : World) :
  safeParse_error data = None ->
  (exists x, In x (TProduct.variants data) /\ ~ numeric x) ->
  let w' := snd (createProduct data now w) in
  fst (createProduct data now w) = Return (Failure "Error creating product")
  /\ Store.products (db w') = Store.products (db w)
  /\ Store.variants (db w') = Store.variants (db w)
  /\ Store.purchaseItems (db w') = Store.purchaseItems (db w)
  /\ cache w' = cache w
  /\ revalidated w' = revalidated w.
Proof.
  intros Hvalid (x & Hx & Hnan) w'.
  assert (Htrx : exists e st', createProduct_trx data now (db w) = (Throw e, st')).
  { unfold createProduct_trx, bind at 1, Sql.insert_product.
    unfold bind at 1.
    match goal with
    | |- context [mapM ?f ?l ?s] =>
        destruct (mapM_throws f l x Hx (insert_variant_throws _ x Hnan) s)
          as (e & st' & ->)
    end.
    eauto. }
  destruct Htrx as (e & st' & Htrx).
  unfold w', createProduct, try_catch, bind, transaction. rewrite Hvalid. simpl.
  rewrite Htrx. simpl. repeat split.
Qed.

End CreateProductRollback.

Lemma createProduct_inserts_product_and_variants_witness :
  exists rows total,
    fst (@createProduct example_platform bowl_input 7 empty_world)
    = Return (Success (Product.mk 1 "Bowl" "Stoneware" "bowl.png" 7 None, rows, total))
    /\ Forall2 (@inserted_as example_platform 1) (TProduct.variants bowl_input) rows.
Proof.
  destruct (@createProduct_inserts_product_and_variants example_platform
              bowl_input 7 empty_world)
    as (rows & total & Hfst & _ & _ & _ & Hrows & _).
  - reflexivity.
  - intros x [<-|[]]. repeat split; eexists; reflexivity.
  - reflexivity.
  - exists rows, total. split; assumption.
Defined.

Lemma createProduct_refreshes_cache_witness :
  exists total,
    Cache.count (cache (snd (@createProduct example_platform bowl_input 7 empty_world)))
    = Some total
    /\ total = getProductsCountFromDB
                 (db (snd (@createProduct example_platform bowl_input 7 empty_world))).
Proof.
  destruct (@createProduct_refreshes_cache example_platform bowl_input 7 empty_world)
    as (res & total & _ & _ & Hcount & Htotal & _).
  - reflexivity.
  - intros x [<-|[]]. repeat split; eexists; reflexivity.
  - reflexivity.
  - exists total. split; assumption.
Defined.

Lemma createProduct_then_getProducts_witness :
  exists product rows rest total',
    fst (@getProducts example_platform (Some "") 0 defaultLimit
           (snd (@createProduct example_platform bowl_input 7 vase_world)))
    = Return (Success (ProductWithVariants.mk product rows None :: rest, total'))
    /\ Product.title product = "Bowl".
Proof.
  destruct (@createProduct_then_getProducts example_platform bowl_input 7 vase_world)
    as (product & rows & total & rest & Hfst & _ & _ & total' & Hget).
  - reflexivity.
  - intros x [<-|[]]. repeat split; eexists; reflexivity.
  - reflexivity.
  - discriminate.
  - intros p [<-|[]]. reflexivity.
  - intros v [<-|[<-|[]]]; reflexivity.
  - exists product, rows, rest, total'. split; [exact Hget|].
    vm_compute in Hfst. now inversion Hfst.
Defined.

Lemma createProduct_rolls_back_witness :
  fst (@createProduct unchecked_platform mispriced_input 7 vase_world)
  = Return (Failure "Error creating product")
  /\ Store.variants
       (db (snd (@createProduct unchecked_platform mispriced_input 7 vase_world)))
     = Store.variants (db vase_world).
Proof.
  destruct (@createProduct_rolls_back unchecked_platform mispriced_input 7 vase_world)
    as (Hfst & _ & Hvariants & _).
  - reflexivity.
  - exists (TProduct.mkVariant "9" "four" "2"). split; [right; now left|].
    intros (_ & [p Hp] & _). discriminate Hp.
  - split; assumption.
Defined.

(** ** [deleteProduct] when the cache is healthy *)

Lemma deleteProduct_run (id now : Z) (w : World) :
  Cache.outages (cache w) = [] ->
  let st' := Sql.map_products (Sql.delete_product_row id now) (db w) in
  deleteProduct id now w
  = (Return (Success "Product deleted successfully"),
     mkWorld st'
       (Cache.mk (Some (getProductsFromDBWithoutQuery 0 defaultLimit st'))
                 (Some (ProductsCountCache.current (cache w) - 1)) [])
       (console w) (revalidated w ++ ["/products"])).
Proof.
  intros Hup. destruct w as [st [cp cc co] cons rev]. simpl in Hup. subst co.
  reflexivity.
Qed.

Lemma delete_product_row_id (id now : Z) (p : Product.row) :
  Product.id (Sql.delete_product_row id now p) = Product.id p.
Proof.
  unfold Sql.delete_product_row. now destruct (Product.id p =? id).
Qed.

Lemma listed_after_delete (id now : Z) (st : Store.t) (r : ProductWithVariants.row) :
  In r (listedProducts (Sql.map_products (Sql.delete_product_row id now) st)) ->
  ProductWithVariants.id r <> id.
Proof.
  intros Hr. apply In_order_by, In_join_groups in Hr as (Hp & Hnull & _).
  simpl in Hp. apply in_map_iff in Hp as (p & Ep & _).
  unfold ProductWithVariants.id. rewrite <- Ep in *.
  unfold Sql.delete_product_row in *.
  destruct (Product.id p =? id) eqn:E; [discriminate Hnull|].
  now apply Z.eqb_neq.
Qed.

Lemma filter_map_length {A : Type} (f : A -> bool) (g : A -> A) (l : list A) :
  (forall x, In x l -> f (g x) = f x) ->
  List.length (filter f (map g l)) = List.length (filter f l).
Proof.
  induction l as [|a l IH]; intros Hfg; [reflexivity|].
  cbn [map filter]. rewrite (Hfg a (or_introl eq_refl)).
  destruct (f a); simpl; rewrite IH; auto; intros x Hx; apply Hfg; now right.
Qed.

(** X11.  [deleteProduct] takes the product off the listing: with a
    healthy cache the action succeeds, no page of the listing shows a
    product of that id any more, and the cached list, refreshed to the
    first page of the store, does not show it either.  The variants of the
    product are left as they were. *)
Theorem deleteProduct_unlists (id now : Z) (w : World) :
  Cache.outages (cache w) = [] ->
  let w' := snd (deleteProduct id now w) in
  fst (deleteProduct id now w) = Return (Success "Product deleted successfully")
  /\ (forall offset limit r,
        In r (getProductsFromDBWithoutQuery offset limit (db w')) ->
        ProductWithVariants.id r <> id)
  /\ (exists cached,
        Cache.products (cache w') = Some cached
        /\ cached = getProductsFromDBWithoutQuery 0 defaultLimit (db w')
        /\ forall r, In r cached -> ProductWithVariants.id r <> id)
  /\ Store.variants (db w') = Store.variants (db w).
Proof.
  intros Hup w'. unfold w'. rewrite (deleteProduct_run id now w Hup).
  cbn [fst snd db cache Cache.products].
  split; [reflexivity|]. split; [|split; [|reflexivity]].
  - intros offset limit r Hr. apply In_limit_offset in Hr.
    exact (listed_after_delete id now (db w) r Hr).
  - eexists. split; [reflexivity|]. split; [reflexivity|].
    intros r Hr. apply In_limit_offset in Hr.
    exact (listed_after_delete id now (db w) r Hr).
Qed.

(** X12.  [deleteProduct] decrements the cached count on every call, and
    counts an absent count as zero.  When no product of the given id is
    active (the id is unknown, or the product is already soft-deleted) the
    store's count of active products stays as it was while the cached
    count goes down by one: the two drift apart. *)
Theorem deleteProduct_count_drift (id now : Z) (w : World) :
  Cache.outages (cache w) = [] ->
  (forall p, In p (Store.products (db w)) -> Product.id p = id ->
             Product.deletedAt p <> None) ->
  let w' := snd (deleteProduct id now w) in
  Cache.count (cache w') = Some (ProductsCountCache.current (cache w) - 1)
  /\ getProductsCountFromDB (db w') = getProductsCountFromDB (db w).
Proof.
  intros Hup Hgone w'. unfold w'. rewrite (deleteProduct_run id now w Hup).
  cbn [fst snd db cache Cache.count]. split; [reflexivity|].
  unfold getProductsCountFromDB. simpl. f_equal.
  apply filter_map_length. intros p Hp. unfold Sql.delete_product_row.
  destruct (Product.id p =? id) eqn:E; [|reflexivity].
  apply Z.eqb_eq in E. specialize (Hgone p Hp E).
  simpl. now destruct (Product.deletedAt p).
Qed.

Lemma deleteProduct_unlists_witness :
  fst (deleteProduct 1 9 vase_world) = Return (Success "Product deleted successfully")
  /\ Cache.products (cache (snd (deleteProduct 1 9 vase_world))) = Some [].
Proof.
  destruct (deleteProduct_unlists 1 9 vase_world) as (Hfst & _ & _ & _).
  - reflexivity.
  - split; [exact Hfst | reflexivity].
Defined.

Lemma deleteProduct_count_drift_witness :
  Cache.count (cache (snd (deleteProduct 1 7 bowl_world))) = Some (-1)
  /\ getProductsCountFromDB (db (snd (deleteProduct 1 7 bowl_world)))
     = getProductsCountFromDB (db bowl_world).
Proof.
  apply (deleteProduct_count_drift 1 7 bowl_world).
  - reflexivity.
  - intros p [<-|[]] _. discriminate.
Defined.

(** ** The transaction of [updateProduct] as a whole *)

Lemma forM__run {S A B : Type} (f : A -> M S B) (xs : list A) (s : S) :
  forM_ xs f s
  = match mapM f xs s with
    | (Return _, s') => (Return tt, s')
    | (Throw e, s') => (Throw e, s')
    end.
Proof.
  unfold forM_, bind. now destruct (mapM f xs s) as [[ys|e] s'].
Qed.

Lemma forM__cons {S A B : Type} (f : A -> M S B) (x : A) (xs : list A) (s : S) :
  forM_ (x :: xs) f s
  = match f x s with
    | (Return _, s') => forM_ xs f s'
    | (Throw e, s') => (Throw e, s')
    end.
Proof.
  rewrite forM__run. cbn [mapM]. unfold bind at 1.
  destruct (f x s) as [[y|e] s1]; [|reflexivity].
  rewrite forM__run. unfold bind.
  now destruct (mapM f xs s1) as [[ys|e] s2].
Qed.

Lemma forM__throws {S A B : Type} (f : A -> M S B) (l : list A) (x : A) :
  In x l ->
  (forall s, exists e s', f x s = (Throw e, s')) ->
  forall s, exists e s', forM_ l f s = (Throw e, s').
Proof.
  intros Hx Hthrow s. rewrite forM__run.
  destruct (mapM_throws f l x Hx Hthrow s) as (e & s' & ->). eauto.
Qed.

Lemma map_variants_id (st : Store.t) : Sql.map_variants (fun v => v) st = st.
Proof. unfold Sql.map_variants. rewrite map_id. now destruct st. Qed.

Lemma map_variants_compose (f g : Variant.row -> Variant.row) (st : Store.t) :
  Sql.map_variants f (Sql.map_variants g st) = Sql.map_variants (fun v => f (g v)) st.
Proof. unfold Sql.map_variants. simpl. now rewrite map_map. Qed.

Lemma map_variants_ext (f g : Variant.row -> Variant.row) (st : Store.t) :
  (forall v, In v (Store.variants st) -> f v = g v) ->
  Sql.map_variants f st = Sql.map_variants g st.
Proof.
  intros Hfg. unfold Sql.map_variants. f_equal. now apply map_ext_in.
Qed.

Lemma set_variant_id (id s q p : Z) (r : Variant.row) :
  Variant.id (Sql.set_variant id s q p r) = Variant.id r.
Proof.
  unfold Sql.set_variant.
  now destruct ((Variant.size r =? s) && (Variant.productId r =? id)).
Qed.

Lemma set_variant_other_product (id s q p : Z) (r : Variant.row) :
  Variant.productId r <> id -> Sql.set_variant id s q p r = r.
Proof.
  intros Hp. unfold Sql.set_variant. apply Z.eqb_neq in Hp.
  now rewrite Hp, andb_false_r.
Qed.

(** The removals, one statement for each removed variant, amount to one
    pass over the table. *)
Lemma removals_run (id now : Z) (removed : list Variant.row) (st : Store.t) :
  forM_ removed
    (fun removedVariant => Sql.soft_delete_variant id (Variant.size removedVariant) now) st
  = (Return tt, Sql.map_variants (stamp_removed id now removed) st).
Proof.
  revert st. induction removed as [|x removed IH]; intros st.
  - rewrite forM__run. simpl. f_equal.
    rewrite <- (map_variants_id st) at 1. apply map_variants_ext.
    intros v _. unfold stamp_removed. simpl. now rewrite andb_false_r.
  - rewrite forM__cons. cbn [Sql.soft_delete_variant modify].
    rewrite IH, map_variants_compose. f_equal. apply map_variants_ext.
    intros v _. unfold stamp_removed, Sql.delete_variant_row. cbn [existsb].
    rewrite (Z.eqb_sym (Variant.size x) (Variant.size v)).
    destruct (Variant.size v =? Variant.size x) eqn:Es,
             (Variant.productId v =? id) eqn:Ep;
      cbn -[Z.eqb existsb]; rewrite ?Ep; cbn -[Z.eqb existsb];
      try reflexivity; now destruct (existsb _ removed).
Qed.

Section UpdateShape.
Context `{Platform}.

(** The updates, one statement for each updated variant, amount to one
    row-wise function, which keeps id, product and size of every row and
    leaves alone the rows of other products and the rows whose size no
    updated variant has. *)
Lemma updates_run (id : Z) (updated : list TProduct.variant) :
  (forall x, In x updated -> numeric x) ->
  forall st,
  exists g,
    forM_ updated
      (fun updatedVariant =>
         Sql.update_variant id
           (Number (TProduct.size updatedVariant))
           (Number (TProduct.quantity updatedVariant))
           (Number (TProduct.price updatedVariant))) st
    = (Return tt, Sql.map_variants g st)
    /\ (forall r, Variant.id (g r) = Variant.id r
                  /\ Variant.productId (g r) = Variant.productId r
                  /\ Variant.size (g r) = Variant.size r)
    /\ (forall r, Variant.productId r <> id
                  \/ (forall x, In x updated ->
                        Number (TProduct.size x) <> Fin (Variant.size r)) ->
                  g r = r).
Proof.
  induction updated as [|x updated IH]; intros Hnum st.
  - exists (fun r => r). rewrite forM__run. simpl. rewrite map_variants_id. auto.
  - destruct (Hnum x (or_introl eq_refl)) as ([s Es] & [p Ep] & [q Eq]).
    destruct (IH (fun y Hy => Hnum y (or_intror Hy))
                 (Sql.map_variants (Sql.set_variant id s q p) st))
      as (g & Hrun & Hkeys & Hsame).
    exists (fun r => g (Sql.set_variant id s q p r)).
    split; [|split].
    + rewrite forM__cons, update_variant_run, Es, Eq, Ep, Hrun.
      now rewrite map_variants_compose.
    + intros r. destruct (Hkeys (Sql.set_variant id s q p r)) as (-> & -> & ->).
      destruct (set_variant_key id s q p r) as [-> ->].
      now rewrite set_variant_id.
    + intros r [Hr|Hr].
      * rewrite set_variant_other_product by assumption. apply Hsame. now left.
      * rewrite set_variant_other.
        -- apply Hsame. right. intros y Hy. apply Hr. now right.
        -- intros E. apply (Hr x (or_introl eq_refl)). congruence.
Qed.

(** A transaction whose patch names no column of the product is refused
    before it writes anything. *)
Lemma updateProduct_trx_refused (data : TProduct.partial) (id now : Z) (st : Store.t) :
  ~ supplies_column data ->
  updateProduct_trx data id now st = (Throw Sql.no_values_error, st).
Proof.
  intros Hcol. unfold updateProduct_trx. unfold bind at 1, gets. cbv zeta.
  unfold bind at 1. now rewrite update_product_empty.
Qed.

(** When the patch names a column and the desired variants are numeric,
    the transaction commits, and the store it leaves is the store it
    found with the product patched, the added variants appended, the
    updated variants rewritten row by row and the removed variants
    stamped. *)
Lemma updateProduct_trx_shape (data : TProduct.partial) (id now : Z) (st : Store.t) :
  let D := match TProduct.p_variants data with Some vs => vs | None => [] end in
  let prev := filter (fun v => Variant.productId v =? id) (Store.variants st) in
  supplies_column data ->
  (forall x, In x D -> numeric x) ->
  exists rows g,
    updateProduct_trx data id now st
    = (Return tt,
       Store.mk
         (map (fun p => if Product.id p =? id then patched data p else p)
              (Store.products st))
         (map (fun v => stamp_removed id now (removedVariants prev D) (g v))
              (Store.variants st ++ rows))
         (Store.purchaseItems st) (Store.products_seq st)
         (Store.variants_seq st + Z.of_nat (List.length rows)))
    /\ Forall2 (inserted_as id) (addedVariants prev D) rows
    /\ map Variant.id rows
       = map (fun k => Store.variants_seq st + Z.of_nat k)
             (seq 0 (List.length (addedVariants prev D)))
    /\ (forall r, Variant.id (g r) = Variant.id r
                  /\ Variant.productId (g r) = Variant.productId r
                  /\ Variant.size (g r) = Variant.size r)
    /\ (forall r, Variant.productId r <> id
                  \/ (forall x, In x (updatedVariants prev D) ->
                        Number (TProduct.size x) <> Fin (Variant.size r)) ->
                  g r = r).
Proof.
  intros D prev Hcol Hnum.
  set (st0 := Sql.map_products
                (fun p => if Product.id p =? id then patched data p else p) st).
  destruct (insert_variants_fields id (addedVariants prev D)
              (fun x Hx => Hnum x (proj1 (proj1 (filter_In _ _ _) Hx))) st0)
    as (rows & Hins & Hrows & Hids).
  destruct (updates_run id (updatedVariants prev D)
              (fun x Hx => Hnum x (proj1 (proj1 (filter_In _ _ _) Hx)))
              (Store.mk (Store.products st0) (Store.variants st0 ++ rows)
                        (Store.purchaseItems st0) (Store.products_seq st0)
                        (Store.variants_seq st0 + Z.of_nat (List.length rows))))
    as (g & Hupd & Hkeys & Hsame).
  exists rows, g. split; [|repeat split; try assumption; apply Hkeys].
  unfold updateProduct_trx. fold D.
  unfold bind at 1, gets. fold prev. cbv zeta.
  unfold bind at 1. rewrite update_product_supplied by assumption. fold st0.
  unfold bind at 1. rewrite forM__run, Hins.
  unfold bind at 1. rewrite Hupd.
  rewrite removals_run. unfold Sql.map_variants, st0, Sql.map_products. simpl.
  f_equal. f_equal. now rewrite map_map.
Qed.

End UpdateShape.

Lemma stamp_removed_keeps (id now : Z) (removed : list Variant.row) (v : Variant.row) :
  Variant.id (stamp_removed id now removed v) = Variant.id v
  /\ Variant.productId (stamp_removed id now removed v) = Variant.productId v
  /\ Variant.size (stamp_removed id now removed v) = Variant.size v
  /\ Variant.price (stamp_removed id now removed v) = Variant.price v
  /\ Variant.quantity (stamp_removed id now removed v) = Variant.quantity v.
Proof.
  unfold stamp_removed.
  destruct ((Variant.productId v =? id) && existsb _ removed); simpl; auto.
Qed.

Lemma stamp_removed_other (id now : Z) (removed : list Variant.row) (v : Variant.row) :
  Variant.productId v <> id
  \/ (forall r, In r removed -> Variant.size r <> Variant.size v) ->
  stamp_removed id now removed v = v.
Proof.
  intros [Hp|Hs]; unfold stamp_removed.
  - apply Z.eqb_neq in Hp. now rewrite Hp.
  - replace (existsb _ removed) with false; [now rewrite andb_false_r|].
    symmetry. apply existsb_false_iff. intros r Hr. apply Z.eqb_neq. now apply Hs.
Qed.

Lemma stamp_removed_hit (id now : Z) (removed : list Variant.row) (v : Variant.row) :
  Variant.productId v = id ->
  (exists r, In r removed /\ Variant.size r = Variant.size v) ->
  stamp_removed id now removed v = Variant.with_deletedAt (Some now) v.
Proof.
  intros Hp (r & Hr & Hs). unfold stamp_removed.
  rewrite Hp, Z.eqb_refl. replace (existsb _ removed) with true; [reflexivity|].
  symmetry. apply existsb_exists. exists r. split; [assumption | now apply Z.eqb_eq].
Qed.

Lemma Forall2_In_l {A B : Type} (R : A -> B -> Prop) (l : list A) (l' : list B) (x : A) :
  Forall2 R l l' -> In x l -> exists y, In y l' /\ R x y.
Proof.
  induction 1 as [|x' y l l' Hxy Hl IH]; intros Hx; [destruct Hx|].
  destruct Hx as [->|Hx]; [exists y; split; [now left | assumption]|].
  destruct (IH Hx) as (y' & Hy' & HR). exists y'. split; [now right | assumption].
Qed.

Section UpdateProductWhole.
Context `{Platform}.

Lemma numeric_dec (x : TProduct.variant) : numeric x \/ ~ numeric x.
Proof.
  unfold numeric.
  destruct (Number (TProduct.size x)); [|right; intros ([? ?] & _); discriminate].
  destruct (Number (TProduct.price x)); [|right; intros (_ & [? ?] & _); discriminate].
  destruct (Number (TProduct.quantity x)); [|right; intros (_ & _ & [? ?]); discriminate].
  left. repeat split; eexists; reflexivity.
Qed.

Lemma all_numeric_or_not (D : list TProduct.variant) :
  (forall x, In x D -> numeric x) \/ (exists x, In x D /\ ~ numeric x).
Proof.
  induction D as [|d D [IH|(x & Hx & Hn)]].
  - left. intros x [].
  - destruct (numeric_dec d) as [Hd|Hd].
    + left. intros x [<-|Hx]; auto.
    + right. exists d. split; [now left | assumption].
  - right. exists x. split; [now right | assumption].
Qed.

(** A desired variant with a field that is not a number is never left
    alone: it is added or updated. *)
Lemma not_numeric_added_or_updated
    (prev : list Variant.row) (D : list TProduct.variant) (x : TProduct.variant) :
  In x D -> ~ numeric x ->
  In x (addedVariants prev D) \/ In x (updatedVariants prev D).
Proof.
  intros Hx Hn. unfold addedVariants, updatedVariants. rewrite !filter_In.
  destruct (find (fun p => strict_eq (Fin (Variant.size p)) (Number (TProduct.size x))) prev)
    as [p|] eqn:Ef.
  - right. split; [assumption|].
    apply find_some in Ef as [_ Es]. apply strict_eq_Fin_l in Es.
    apply orb_true_iff. rewrite !strict_neq_Fin_l.
    destruct (number_eq_dec (Number (TProduct.price x)) (Fin (Variant.price p))) as [Ep|Ep];
      [|now left].
    destruct (number_eq_dec (Number (TProduct.quantity x)) (Fin (Variant.quantity p)))
      as [Eq|Eq]; [|now right].
    exfalso. apply Hn. unfold numeric. rewrite Es, Ep, Eq. repeat split; eexists; reflexivity.
  - left. split; [assumption|]. apply negb_true_iff, existsb_false_iff.
    intros p Hp. exact (find_none _ _ Ef p Hp).
Qed.

Lemma update_variant_throws (id : Z) (x : TProduct.variant) :
  ~ numeric x ->
  forall st, exists e st',
    Sql.update_variant id (Number (TProduct.size x))
      (Number (TProduct.quantity x)) (Number (TProduct.price x)) st
    = (Throw e, st').
Proof.
  intros Hx st. rewrite update_variant_run. unfold numeric in Hx.
  destruct (Number (TProduct.size x)); [|eauto].
  destruct (Number (TProduct.quantity x)); [|eauto].
  destruct (Number (TProduct.price x)); [|eauto].
  exfalso. apply Hx. repeat split; eexists; reflexivity.
Qed.

Lemma updateProduct_trx_throws (data : TProduct.partial) (id now : Z) (st : Store.t) :
  (exists x, In x (match TProduct.p_variants data with Some vs => vs | None => [] end)
             /\ ~ numeric x) ->
  exists e st', updateProduct_trx data id now st = (Throw e, st').
Proof.
  intros (x & Hx & Hn).
  destruct (supplies_column_dec data) as [Hcol|Hcol];
    [|rewrite updateProduct_trx_refused by assumption; eauto].
  unfold updateProduct_trx. unfold bind at 1, gets. cbv zeta.
  unfold bind at 1. rewrite update_product_supplied by assumption.
  match goal with
  | |- exists e st', bind (forM_ (addedVariants ?prev ?D) ?f) ?k ?s = _ =>
      destruct (not_numeric_added_or_updated prev D x Hx Hn) as [Ha|Hu];
      [destruct (forM__throws f _ x Ha (insert_variant_throws id x Hn) s)
         as (e & st' & E)
      |destruct (forM_ (addedVariants prev D) f s) as [[u|e] st1] eqn:E]
  end.
  - unfold bind at 1. rewrite E. eauto.
  - unfold bind at 1. rewrite E.
    match goal with
    | |- exists e st', bind (forM_ (updatedVariants ?prev ?D) ?f) ?k st1 = _ =>
        destruct (forM__throws f _ x Hu (update_variant_throws id x Hn) st1)
          as (e & st' & E')
    end.
    unfold bind at 1. rewrite E'. eauto.
  - unfold bind at 1. rewrite E. eauto.
Qed.

Lemma updateProduct_run (data : TProduct.partial) (id now : Z) (w : World) (st' : Store.t) :
  updateProduct_trx data id now (db w) = (Return tt, st') ->
  Cache.outages (cache w) = [] ->
  updateProduct data id now w
  = (Return (Success "Product updated successfully"),
     mkWorld st'
       (Cache.mk (Some (getProductsFromDBWithoutQuery 0 defaultLimit st'))
                 (Cache.count (cache w)) [])
       (console w) (revalidated w ++ ["/products"])).
Proof.
  intros Htrx Hup. destruct w as [st [cp cc co] cons rev]. simpl in *. subst co.
  unfold updateProduct, try_catch, bind, transaction. simpl. rewrite Htrx.
  reflexivity.
Qed.

Lemma updateProduct_abort (data : TProduct.partial) (id now : Z) (w : World)
    (e : string) (st' : Store.t) :
  updateProduct_trx data id now (db w) = (Throw e, st') ->
  updateProduct data id now w
  = (Return (Failure "Error updating product"),
     with_db (Store.rollback (db w) st') w).
Proof.
  intros Htrx. unfold updateProduct, try_catch, bind, transaction.
  rewrite Htrx. reflexivity.
Qed.

Lemma db_updateProduct_commit (data : TProduct.partial) (id now : Z) (w : World)
    (st' : Store.t) :
  updateProduct_trx data id now (db w) = (Return tt, st') ->
  db (snd (updateProduct data id now w)) = st'.
Proof.
  intros Htrx. rewrite db_after_updateProduct. unfold transaction.
  now rewrite Htrx.
Qed.

End UpdateProductWhole.

(** ** The listing and the order of the variants *)

Lemma filter_Permutation {A : Type} (f : A -> bool) (l l' : list A) :
  Permutation l l' -> Permutation (filter f l) (filter f l').
Proof.
  induction 1 as [|x l l' Hl IH|x y l|l l' l'' H1 IH1 H2 IH2]; cbn [filter].
  - constructor.
  - destruct (f x); [now constructor | assumption].
  - destruct (f x), (f y); try reflexivity. apply perm_swap.
  - now transitivity (filter f l').
Qed.

Lemma Forall2_firstn {A B : Type} (R : A -> B -> Prop) (n : nat) (l : list A) (l' : list B) :
  Forall2 R l l' -> Forall2 R (firstn n l) (firstn n l').
Proof.
  intros H. revert n. induction H as [|x y l l' Hxy Hl IH]; intros [|n]; simpl;
    constructor; auto.
Qed.

Lemma Forall2_skipn {A B : Type} (R : A -> B -> Prop) (n : nat) (l : list A) (l' : list B) :
  Forall2 R l l' -> Forall2 R (skipn n l) (skipn n l').
Proof.
  intros H. revert n. induction H as [|x y l l' Hxy Hl IH]; intros [|n]; simpl;
    try constructor; auto.
Qed.

Section OrderByRelated.
Context {A : Type} (R : A -> A -> Prop) (leb : A -> A -> bool).
Hypothesis leb_related :
  forall a a' b b', R a a' -> R b b' -> leb a b = leb a' b'.

Lemma insert_by_Forall2 (x x' : A) (l l' : list A) :
  R x x' -> Forall2 R l l' ->
  Forall2 R (Sql.insert_by leb x l) (Sql.insert_by leb x' l').
Proof.
  intros Hx. induction 1 as [|y y' l l' Hy Hl IH]; simpl.
  - repeat constructor. assumption.
  - rewrite (leb_related x x' y y' Hx Hy).
    destruct (leb x' y'); repeat constructor; assumption.
Qed.

Lemma order_by_Forall2 (l l' : list A) :
  Forall2 R l l' -> Forall2 R (Sql.order_by leb l) (Sql.order_by leb l').
Proof.
  induction 1 as [|x x' l l' Hx Hl IH]; simpl; [constructor|].
  now apply insert_by_Forall2.
Qed.

End OrderByRelated.

Lemma NoDup_map_filter {A B : Type} (f : A -> B) (c : A -> bool) (l : list A) :
  NoDup (map f l) -> NoDup (map f (filter c l)).
Proof.
  induction l as [|a l IH]; intros Hnd; [constructor|].
  simpl in Hnd. inversion Hnd as [|? ? Ha Hl]; subst.
  cbn [filter]. destruct (c a); [|now apply IH].
  cbn [map]. constructor; [|now apply IH].
  intros Hin. apply Ha. apply in_map_iff in Hin as (x & E & Hx).
  apply in_map_iff. exists x. split; [assumption|]. now apply filter_In in Hx.
Qed.

Lemma NoDup_map_In_eq {A : Type} (key : A -> Z) (l : list A) (a b : A) :
  NoDup (map key l) -> In a l -> In b l -> key a = key b -> a = b.
Proof.
  induction l as [|x l IH]; intros Hnd Ha Hb E; [destruct Ha|].
  simpl in Hnd. inversion Hnd as [|? ? Hx Hl]; subst.
  destruct Ha as [->|Ha], Hb as [->|Hb]; auto.
  - elim Hx. rewrite E. now apply in_map.
  - elim Hx. rewrite <- E. now apply in_map.
Qed.

(** A list without equal keys has one arrangement in descending order of
    key. *)
Lemma descending_unique {A : Type} (key : A -> Z) (l l' : list A) :
  NoDup (map key l) ->
  Permutation l l' ->
  StronglySorted (fun a b => key b <= key a) l ->
  StronglySorted (fun a b => key b <= key a) l' ->
  l = l'.
Proof.
  revert l'. induction l as [|x t IH]; intros l' Hnd Hperm Hs Hs'.
  - apply Permutation_nil in Hperm. now subst.
  - destruct l' as [|y t'];
      [symmetry in Hperm; apply Permutation_nil in Hperm; discriminate|].
    inversion Hs as [|? ? Hst Hx]; subst. inversion Hs' as [|? ? Hst' Hy]; subst.
    assert (Hyx : key y <= key x).
    { assert (Hin : In y (x :: t))
        by (eapply Permutation_in; [symmetry; exact Hperm | now left]).
      destruct Hin as [->|Hin]; [lia|].
      rewrite Forall_forall in Hx. now apply Hx. }
    assert (Hxy : key x <= key y).
    { assert (Hin : In x (y :: t'))
        by (eapply Permutation_in; [exact Hperm | now left]).
      destruct Hin as [->|Hin]; [lia|].
      rewrite Forall_forall in Hy. now apply Hy. }
    assert (x = y) as <-.
    { apply (NoDup_map_In_eq key (x :: t)); [assumption | now left | | lia].
      eapply Permutation_in; [symmetry; exact Hperm | now left]. }
    f_equal. apply IH; [|now apply Permutation_cons_inv in Hperm | assumption..].
    simpl in Hnd. now inversion Hnd.
Qed.

(** The page of the listing is fixed by the rows of the store, whatever
    their order in the two tables, but for the order of the variants
    within a product. *)
Lemma listing_same_page (offset limit : nat) (st st' : Store.t) :
  NoDup (map Product.id (Store.products st)) ->
  Permutation (Store.products st) (Store.products st') ->
  Permutation (Store.variants st) (Store.variants st') ->
  same_page (getProductsFromDBWithoutQuery offset limit st)
            (getProductsFromDBWithoutQuery offset limit st').
Proof.
  intros Hnd Hp Hv. unfold same_page, getProductsFromDBWithoutQuery, Sql.limit_offset.
  apply Forall2_firstn, Forall2_skipn. unfold listedProducts.
  set (keep := fun p => isNull (Product.deletedAt p)).
  set (leb := fun a b => ProductWithVariants.id b <=? ProductWithVariants.id a).
  set (mid := Store.mk (Store.products st') (Store.variants st)
                       (Store.purchaseItems st) (Store.products_seq st)
                       (Store.variants_seq st)).
  assert (Hsorted : forall l,
            StronglySorted
              (fun a b => ProductWithVariants.id b <= ProductWithVariants.id a)
              (Sql.order_by leb l)).
  { intros l. apply Sorted_StronglySorted; [intros a b c Hab Hbc; lia|].
    eapply Sorted_weaken; [|apply order_by_Sorted].
    - intros a b Hab. unfold leb in Hab. now apply Z.leb_le.
    - intros a b. unfold leb. rewrite !Z.leb_le. lia. }
  assert (Hmid : Sql.order_by leb (Sql.join_groups keep st)
                 = Sql.order_by leb (Sql.join_groups keep mid)).
  { apply (descending_unique ProductWithVariants.id); [| |apply Hsorted..].
    - eapply Permutation_NoDup;
        [apply Permutation_map; symmetry; apply order_by_Permutation|].
      unfold ProductWithVariants.id. rewrite <- map_map, join_groups_map_product.
      now apply NoDup_map_filter.
    - rewrite !order_by_Permutation. unfold Sql.join_groups.
      change (Sql.active_variants_of mid) with (Sql.active_variants_of st).
      apply Permutation_flat_map. exact Hp. }
  rewrite Hmid. apply order_by_Forall2.
  - intros a a' b b' (Ea & _) (Eb & _). unfold leb, ProductWithVariants.id.
    now rewrite Ea, Eb.
  - unfold Sql.join_groups. cbn [mid Store.products]. clear Hp Hnd Hmid.
    induction (Store.products st') as [|p ps IH]; [constructor|].
    cbn [flat_map]. apply Forall2_app; [|exact IH].
    assert (Hact : Permutation (Sql.active_variants_of mid p)
                               (Sql.active_variants_of st' p)).
    { unfold Sql.active_variants_of. cbn [mid Store.variants].
      now apply filter_Permutation. }
    destruct (Sql.active_variants_of mid p) as [|v vs] eqn:E.
    + apply Permutation_nil in Hact. rewrite Hact. constructor.
    + destruct (Sql.active_variants_of st' p) as [|v' vs'] eqn:E'.
      * symmetry in Hact. apply Permutation_nil in Hact. discriminate.
      * destruct (keep p); repeat constructor. exact Hact.
Qed.

(** ** [updateProduct] as a whole *)

Section UpdateProductExtras.
Context `{Platform}.

(** X13.  An update that names a column of the product and submits no
    variant list, or an empty one, soft-deletes every variant of the
    product: each variant row of the product is stamped with the current
    date, those already soft-deleted included, and the variants of other
    products stay as they were; this holds whatever the cache does
    afterwards.  The table is described up to the order of its rows. *)
Theorem updateProduct_without_variants (data : TProduct.partial) (id now : Z) (w : World) :
  supplies_column data ->
  TProduct.p_variants data = None \/ TProduct.p_variants data = Some [] ->
  Permutation
    (Store.variants (db (snd (updateProduct data id now w))))
    (map (fun v => if Variant.productId v =? id
                   then Variant.with_deletedAt (Some now) v else v)
         (Store.variants (db w))).
Proof.
  intros Hcol Hd.
  destruct (updateProduct_trx_shape data id now (db w) Hcol)
    as (rows & g & Htrx & Hrows & _ & _ & Hsame).
  { destruct Hd as [-> | ->]; intros x []. }
  rewrite (db_updateProduct_commit data id now w _ Htrx). cbn [Store.variants].
  assert (HD : match TProduct.p_variants data with Some vs => vs | None => [] end = [])
    by (destruct Hd as [-> | ->]; reflexivity).
  rewrite HD in *. cbn [addedVariants filter] in Hrows. inversion Hrows; subst.
  rewrite app_nil_r.
  match goal with
  | |- Permutation ?l ?l' => replace l with l'; [reflexivity|]
  end.
  apply map_ext_in. intros v Hv.
  rewrite Hsame by (right; intros x []).
  destruct (Variant.productId v =? id) eqn:Ep.
  - apply Z.eqb_eq in Ep. symmetry. apply stamp_removed_hit; [assumption|].
    exists v. split; [|reflexivity].
    apply In_removedVariants. split; [|intros d []].
    apply filter_In. split; [assumption | now apply Z.eqb_eq].
  - symmetry. apply stamp_removed_other. left. now apply Z.eqb_neq.
Qed.

(** X14.  [updateProduct] never reaches beyond its product: whatever the
    input and whatever fails, the variant rows of other products, the
    rows of other products and the purchase items are in the store
    afterwards exactly as before. *)
Theorem updateProduct_other_products_untouched
    (data : TProduct.partial) (id now : Z) (w : World) :
  let w' := snd (updateProduct data id now w) in
  (forall r, Variant.productId r <> id ->
     (In r (Store.variants (db w')) <-> In r (Store.variants (db w))))
  /\ (forall p, Product.id p <> id ->
        (In p (Store.products (db w')) <-> In p (Store.products (db w))))
  /\ Store.purchaseItems (db w') = Store.purchaseItems (db w).
Proof.
  intros w'.
  destruct (supplies_column_dec data) as [Hcol|Hcol].
  2:{ unfold w'.
      rewrite (updateProduct_abort data id now w _ _
                 (updateProduct_trx_refused data id now (db w) Hcol)).
      split; [|split]; reflexivity. }
  destruct (all_numeric_or_not
              (match TProduct.p_variants data with Some vs => vs | None => [] end))
    as [Hnum|Hnan].
  - destruct (updateProduct_trx_shape data id now (db w) Hcol Hnum)
      as (rows & g & Htrx & Hrows & _ & Hkeys & Hsame).
    unfold w'. rewrite (db_updateProduct_commit data id now w _ Htrx).
    cbn [Store.variants Store.products Store.purchaseItems].
    split; [|split; [|reflexivity]].
    + intros r Hr. rewrite in_map_iff. split.
      * intros (r0 & <- & Hr0).
        destruct (stamp_removed_keeps id now
                    (removedVariants
                       (filter (fun v => Variant.productId v =? id) (Store.variants (db w)))
                       (match TProduct.p_variants data with Some vs => vs | None => [] end))
                    (g r0)) as (_ & Ep & _).
        destruct (Hkeys r0) as (_ & Ep0 & _).
        assert (Hr0p : Variant.productId r0 <> id) by congruence.
        rewrite (Hsame r0) by now left.
        rewrite stamp_removed_other by now left.
        apply in_app_or in Hr0 as [Hr0|Hr0]; [assumption|].
        destruct (Forall2_In_r _ _ _ _ Hrows Hr0) as (x & _ & _ & _ & _ & Hp & _).
        contradiction.
      * intros Hin. exists r. split; [|apply in_or_app; now left].
        rewrite (Hsame r) by now left. apply stamp_removed_other. now left.
    + intros p Hp. rewrite in_map_iff. split.
      * intros (p0 & <- & Hp0). destruct (Product.id p0 =? id) eqn:E; [|assumption].
        apply Z.eqb_eq in E. simpl in Hp. contradiction.
      * intros Hin. exists p. split; [|assumption].
        apply Z.eqb_neq in Hp. now rewrite Hp.
  - destruct (updateProduct_trx_throws data id now (db w) Hnan) as (e & st' & Htrx).
    unfold w'. rewrite (updateProduct_abort data id now w e st' Htrx).
    split; [|split]; reflexivity.
Qed.

(** X15.  A committed update patches the product row field by field: the
    title, the description and the image are replaced when the update
    supplies a text that is not empty, and kept otherwise; the id, the
    creation time and the deletion timestamp of the product are kept, and
    so is every other product row. *)
Theorem updateProduct_patches_product
    (data : TProduct.partial) (id now : Z) (w : World) :
  (forall x, In x (match TProduct.p_variants data with Some vs => vs | None => [] end) ->
             numeric x) ->
  Store.products (db (snd (updateProduct data id now w)))
  = map (fun p =>
           if Product.id p =? id
           then Product.mk (Product.id p)
                  (supplied (TProduct.p_title data) (Product.title p))
                  (supplied (TProduct.p_description data) (Product.description p))
                  (supplied (TProduct.p_imageId data) (Product.image p))
                  (Product.createdAt p) (Product.deletedAt p)
           else p)
        (Store.products (db w)).
Proof.
  intros Hnum. destruct (supplies_column_dec data) as [Hcol|Hcol].
  - destruct (updateProduct_trx_shape data id now (db w) Hcol Hnum)
      as (rows & g & Htrx & _).
    rewrite (db_updateProduct_commit data id now w _ Htrx). reflexivity.
  - rewrite (updateProduct_abort data id now w _ _
               (updateProduct_trx_refused data id now (db w) Hcol)).
    cbn [snd db with_db Store.rollback Store.products].
    symmetry. apply map_fixed. intros p _.
    destruct (Product.id p =? id); [|reflexivity].
    exact (patched_unsupplied data p Hcol).
Qed.

(** X16.  [updateProduct] is all or nothing on the store.  When a field
    of one of the desired variants is not a number, the caller receives
    ["Error updating product"] and the store holds the rows it held
    before, the product row included; the cache is not touched and no
    path is revalidated. *)
Theorem updateProduct_rolls_back (data : TProduct.partial) (id now : Z) (w : World) :
  (exists x, In x (match TProduct.p_variants data with Some vs => vs | None => [] end)
             /\ ~ numeric x) ->
  let w' := snd (updateProduct data id now w) in
  fst (updateProduct data id now w) = Return (Failure "Error updating product")
  /\ Store.products (db w') = Store.products (db w)
  /\ Store.variants (db w') = Store.variants (db w)
  /\ Store.purchaseItems (db w') = Store.purchaseItems (db w)
  /\ cache w' = cache w
  /\ revalidated w' = revalidated w.
Proof.
  intros Hnan w'.
  destruct (updateProduct_trx_throws data id now (db w) Hnan) as (e & st' & Htrx).
  unfold w'. rewrite (updateProduct_abort data id now w e st' Htrx).
  repeat split.
Qed.

(** X17.  An update that names a column of the product and whose desired
    variants are numeric inserts a desired variant of a size that no
    stored variant of the product has: afterwards the store holds a
    variant of the product with that size, the submitted price and
    quantity and no deletion timestamp. *)
Theorem updateProduct_adds_variant
    (data : TProduct.partial) (id now : Z) (w : World)
    (D : list TProduct.variant) (d : TProduct.variant) (s p q : Z) :
  supplies_column data ->
  TProduct.p_variants data = Some D ->
  (forall x, In x D -> numeric x) ->
  In d D ->
  Number (TProduct.size d) = Fin s ->
  Number (TProduct.price d) = Fin p ->
  Number (TProduct.quantity d) = Fin q ->
  (forall v, In v (Store.variants (db w)) -> Variant.productId v = id ->
             Variant.size v <> s) ->
  exists r,
    In r (Store.variants (db (snd (updateProduct data id now w))))
    /\ ~ In r (Store.variants (db w))
    /\ Variant.productId r = id
    /\ Variant.size r = s
    /\ Variant.price r = p
    /\ Variant.quantity r = q
    /\ Variant.deletedAt r = None.
Proof.
  intros Hcol HD Hnum Hd Hs Hp Hq Hnew.
  destruct (updateProduct_trx_shape data id now (db w) Hcol)
    as (rows & g & Htrx & Hrows & _ & _ & Hsame).
  { now rewrite HD. }
  rewrite (db_updateProduct_commit data id now w _ Htrx). cbn [Store.variants].
  rewrite HD in *.
  set (prev := filter (fun v => Variant.productId v =? id) (Store.variants (db w))) in *.
  assert (Hprev : forall v, In v prev -> Variant.size v <> s).
  { intros v Hv. apply filter_In in Hv as [Hv Ep]. apply Z.eqb_eq in Ep. auto. }
  assert (Hadded : In d (addedVariants prev D)).
  { apply In_addedVariants. split; [assumption|].
    intros v Hv E. unfold same_size in E. apply (Hprev v Hv). congruence. }
  destruct (Forall2_In_l _ _ _ _ Hrows Hadded) as (r & Hr & Es & Ep & Eq & Epid & Edel).
  assert (Ers : Variant.size r = s) by congruence.
  exists r. split; [|split; [|repeat split; congruence]].
  - apply in_map_iff. exists r. split; [|apply in_or_app; now right].
    rewrite Hsame.
    + apply stamp_removed_other. right. intros v Hv.
      apply In_removedVariants in Hv as [Hv _]. rewrite Ers. now apply Hprev.
    + right. intros x Hx E. apply filter_In in Hx as [_ Hx].
      destruct (find _ prev) as [v|] eqn:Ef; [|discriminate].
      apply find_some in Ef as [Hv Ev]. apply strict_eq_Fin_l in Ev.
      apply (Hprev v Hv). congruence.
  - intros Hold. apply (Hnew r Hold Epid Ers).
Qed.

(** X18.  An update that names a column of the product and whose desired
    variants are numeric soft-deletes the stored variants of the product
    whose size the desired list does not have: such a variant is
    afterwards in the store with the current date as its deletion
    timestamp and nothing else changed. *)
Theorem updateProduct_removes_variant
    (data : TProduct.partial) (id now : Z) (w : World)
    (D : list TProduct.variant) (v : Variant.row) :
  supplies_column data ->
  TProduct.p_variants data = Some D ->
  (forall x, In x D -> numeric x) ->
  In v (Store.variants (db w)) ->
  Variant.productId v = id ->
  (forall d, In d D -> Number (TProduct.size d) <> Fin (Variant.size v)) ->
  In (Variant.with_deletedAt (Some now) v)
     (Store.variants (db (snd (updateProduct data id now w)))).
Proof.
  intros Hcol HD Hnum Hv Hp Hsize.
  destruct (updateProduct_trx_shape data id now (db w) Hcol)
    as (rows & g & Htrx & _ & _ & _ & Hsame).
  { now rewrite HD. }
  rewrite (db_updateProduct_commit data id now w _ Htrx). cbn [Store.variants].
  rewrite HD in *.
  apply in_map_iff. exists v. split; [|apply in_or_app; now left].
  rewrite Hsame.
  - apply stamp_removed_hit; [assumption|]. exists v. split; [|reflexivity].
    apply In_removedVariants. split; [|exact Hsize].
    apply filter_In. split; [assumption | now apply Z.eqb_eq].
  - right. intros x Hx. apply Hsize. now apply filter_In in Hx.
Qed.

(** X19.  An update that names a column of the product and whose desired
    variants are numeric commits, and with a healthy cache it succeeds:
    the cached page becomes the first page of the updated store, the
    path ["/products"] is revalidated, and the cached count is left as it
    was.  The cached page is described up to the order of rows: product
    ids being unique, it is the first page of every store that holds the
    rows of the updated store, in any order, but for the order of the
    variants within a product. *)
Theorem updateProduct_refreshes_cache
    (data : TProduct.partial) (id now : Z) (w : World) :
  supplies_column data ->
  (forall x, In x (match TProduct.p_variants data with Some vs => vs | None => [] end) ->
             numeric x) ->
  NoDup (map Product.id (Store.products (db w))) ->
  Cache.outages (cache w) = [] ->
  let w' := snd (updateProduct data id now w) in
  fst (updateProduct data id now w) = Return (Success "Product updated successfully")
  /\ (exists page,
        Cache.products (cache w') = Some page
        /\ forall st,
             Permutation (Store.products st) (Store.products (db w')) ->
             Permutation (Store.variants st) (Store.variants (db w')) ->
             same_page page (getProductsFromDBWithoutQuery 0 defaultLimit st))
  /\ Cache.count (cache w') = Cache.count (cache w)
  /\ revalidated w' = revalidated w ++ ["/products"].
Proof.
  intros Hcol Hnum Hnd Hup w'.
  destruct (updateProduct_trx_shape data id now (db w) Hcol Hnum)
    as (rows & g & Htrx & _).
  unfold w'. rewrite (updateProduct_run data id now w _ Htrx Hup).
  cbn [fst snd cache db Cache.products Cache.count revalidated].
  split; [reflexivity|]. split; [|split; reflexivity].
  eexists. split; [reflexivity|].
  intros st Hp Hv. apply listing_same_page; [|now symmetry | now symmetry].
  cbn [Store.products]. rewrite map_map.
  erewrite map_ext; [exact Hnd|].
  intros p. now destruct (Product.id p =? id).
Qed.

(** X29.  An update that names no column of the product is refused as a
    whole.  Whatever its variant list, the caller receives
    ["Error updating product"] and the world is exactly as it was: no
    variant is added, rewritten or stamped, the cache is not refreshed
    and no path is revalidated. *)
Theorem updateProduct_refused_without_column
    (data : TProduct.partial) (id now : Z) (w : World) :
  ~ supplies_column data ->
  updateProduct data id now w = (Return (Failure "Error updating product"), w).
Proof.
  intros Hcol.
  rewrite (updateProduct_abort data id now w _ _
             (updateProduct_trx_refused data id now (db w) Hcol)).
  f_equal. destruct w as [[ps vs items pseq vseq] c cons rev]. reflexivity.
Qed.

End UpdateProductExtras.

Lemma updateProduct_refused_without_column_witness :
  @updateProduct example_platform reprice_10_only 1 7 vase_world
  = (Return (Failure "Error updating product"), vase_world).
Proof.
  apply (@updateProduct_refused_without_column example_platform reprice_10_only 1 7
           vase_world).
  intros [E|[E|E]]; discriminate E.
Defined.

Lemma updateProduct_without_variants_witness :
  Permutation
    (Store.variants (db (snd (@updateProduct example_platform rename_only 1 7 vase_world))))
    [Variant.mk 1 1 10 5 1 (Some 7); Variant.mk 2 1 12 7 2 (Some 7)].
Proof.
  apply (@updateProduct_without_variants example_platform rename_only 1 7 vase_world).
  - left. reflexivity.
  - now left.
Defined.

Lemma updateProduct_patches_product_witness :
  Store.products (db (snd (@updateProduct example_platform rename_keep_12 1 7 vase_world)))
  = [Product.mk 1 "Amphora" "Glazed" "vase.png" 0 None].
Proof.
  rewrite (@updateProduct_patches_product example_platform rename_keep_12 1 7 vase_world).
  - reflexivity.
  - intros x [<-|[]]. repeat split; eexists; reflexivity.
Defined.

Lemma updateProduct_rolls_back_witness :
  fst (@updateProduct example_platform misprice_10 1 7 vase_world)
  = Return (Failure "Error updating product")
  /\ Store.variants (db (snd (@updateProduct example_platform misprice_10 1 7 vase_world)))
     = Store.variants (db vase_world).
Proof.
  destruct (@updateProduct_rolls_back example_platform misprice_10 1 7 vase_world)
    as (Hfst & _ & Hvariants & _).
  - exists (TProduct.mkVariant "10" "six" "1"). split; [right; now left|].
    intros (_ & [p Hp] & _). discriminate Hp.
  - split; assumption.
Defined.

Lemma updateProduct_adds_variant_witness :
  exists r,
    In r (Store.variants (db (snd (@updateProduct example_platform add_14 1 7 vase_world))))
    /\ ~ In r (Store.variants (db vase_world))
    /\ Variant.productId r = 1
    /\ Variant.size r = 14
    /\ Variant.price r = 9
    /\ Variant.quantity r = 3
    /\ Variant.deletedAt r = None.
Proof.
  apply (@updateProduct_adds_variant example_platform add_14 1 7 vase_world
           [TProduct.mkVariant "10" "5" "1"; TProduct.mkVariant "12" "7" "2";
            TProduct.mkVariant "14" "9" "3"]
           (TProduct.mkVariant "14" "9" "3")).
  - left. reflexivity.
  - reflexivity.
  - intros x [<-|[<-|[<-|[]]]]; repeat split; eexists; reflexivity.
  - right; right; now left.
  - reflexivity.
  - reflexivity.
  - reflexivity.
  - intros v [<-|[<-|[]]] _; discriminate.
Defined.

Lemma updateProduct_removes_variant_witness :
  In (Variant.mk 2 1 12 7 2 (Some 7))
     (Store.variants
        (db (snd (@updateProduct example_platform
                    (TProduct.mkPartial (Some "Vase") None None
                       (Some [TProduct.mkVariant "10" "5" "1"]))
                    1 7 vase_world)))).
Proof.
  apply (@updateProduct_removes_variant example_platform
           (TProduct.mkPartial (Some "Vase") None None
              (Some [TProduct.mkVariant "10" "5" "1"]))
           1 7 vase_world [TProduct.mkVariant "10" "5" "1"] vase_12).
  - left. reflexivity.
  - reflexivity.
  - intros x [<-|[]]. repeat split; eexists; reflexivity.
  - right; now left.
  - reflexivity.
  - intros d [<-|[]]. discriminate.
Defined.

Lemma updateProduct_refreshes_cache_witness :
  fst (@updateProduct example_platform add_14 1 7 vase_world)
  = Return (Success "Product updated successfully")
  /\ exists page,
       Cache.products (cache (snd (@updateProduct example_platform add_14 1 7 vase_world)))
       = Some page
       /\ same_page page
            [ProductWithVariants.mk vase
               [Variant.mk 3 1 14 9 3 None; vase_12] None].
Proof.
  destruct (@updateProduct_refreshes_cache example_platform add_14 1 7 vase_world)
    as (Hfst & (page & Hcache & Hpage) & _).
  - left. reflexivity.
  - intros x [<-|[<-|[<-|[]]]]; repeat split; eexists; reflexivity.
  - simpl. repeat constructor. intros [].
  - reflexivity.
  - split; [exact Hfst|]. exists page. split; [exact Hcache|].
    apply (Hpage (Store.mk [vase] [Variant.mk 3 1 14 9 3 None; vase_12; vase_10] [] 2 4)).
    + reflexivity.
    + vm_compute.
      apply (perm_trans (l' := [Variant.mk 3 1 14 9 3 None; vase_10; vase_12])).
      * apply perm_skip, perm_swap.
      * apply (Permutation_cons_append [vase_10; vase_12]).
Defined.

(** ** Ids stay unique *)

Lemma hoare_sequences_modify (st0 : Store.t) (f : Store.t -> Store.t) :
  (forall st, Store.products_seq (f st) = Store.products_seq st
              /\ Store.variants_seq (f st) = Store.variants_seq st) ->
  hoare (sequences_from st0) (modify f)
        (fun _ => sequences_from st0) (sequences_from st0).
Proof.
  intros Hf. apply hoare_modify. intros st [Hp Hv].
  destruct (Hf st) as [Ep Ev]. unfold sequences_from. now rewrite Ep, Ev.
Qed.

Lemma hoare_sequences_insert_variant (st0 : Store.t) (productId : Z)
    (price quantity size : number) :
  hoare (sequences_from st0) (Sql.insert_variant productId price quantity size)
        (fun _ => sequences_from st0) (sequences_from st0).
Proof.
  intros st [Hp Hv]. rewrite insert_variant_run.
  destruct price, quantity, size; unfold sequences_from; simpl; split; lia.
Qed.

Lemma hoare_sequences_update_variant (st0 : Store.t) (id : Z)
    (size quantity price : number) :
  hoare (sequences_from st0) (Sql.update_variant id size quantity price)
        (fun _ => sequences_from st0) (sequences_from st0).
Proof.
  intros st [Hp Hv]. rewrite update_variant_run.
  destruct size, quantity, price; unfold sequences_from; simpl; split; lia.
Qed.

Lemma hoare_sequences_mapM {A B : Type} (st0 : Store.t) (f : A -> M Store.t B)
    (xs : list A) :
  (forall x, In x xs ->
     hoare (sequences_from st0) (f x) (fun _ => sequences_from st0) (sequences_from st0)) ->
  hoare (sequences_from st0) (mapM f xs)
        (fun _ => sequences_from st0) (sequences_from st0).
Proof.
  intros Hf.
  apply (hoare_mapM f xs (fun _ => sequences_from st0) (sequences_from st0)
           (fun _ x Hx => Hf x Hx) []).
Qed.

Section SequencesAdvance.
Context `{Platform}.

Lemma createProduct_trx_sequences (data : TProduct.t) (now : Z) (st0 : Store.t) :
  hoare (sequences_from st0) (createProduct_trx data now)
        (fun _ => sequences_from st0) (sequences_from st0).
Proof.
  unfold createProduct_trx. eapply hoare_bind.
  - instantiate (1 := fun _ => sequences_from st0).
    intros st [Hp Hv]. unfold sequences_from. simpl. split; lia.
  - intros product. cbv beta. eapply hoare_bind.
    + apply hoare_sequences_mapM. intros x _. apply hoare_sequences_insert_variant.
    + intros rows st Hst. exact Hst.
Qed.

Lemma updateProduct_trx_sequences (data : TProduct.partial) (id now : Z) (st0 : Store.t) :
  hoare (sequences_from st0) (updateProduct_trx data id now)
        (fun _ => sequences_from st0) (sequences_from st0).
Proof.
  unfold updateProduct_trx. eapply hoare_bind.
  - instantiate (1 := fun _ => sequences_from st0). intros st Hst. exact Hst.
  - intros prevVariants. cbv beta zeta. eapply hoare_bind.
    + apply (hoare_update_product data id _ (sequences_from st0)).
      * intros _ st Hst. exact Hst.
      * intros _ st Hst. exact Hst.
    + intros ?. cbv beta. eapply hoare_bind.
      * apply hoare_forM__invariant. intros x _. apply hoare_sequences_insert_variant.
      * intros ?. cbv beta. eapply hoare_bind.
        -- apply hoare_forM__invariant. intros x _. apply hoare_sequences_update_variant.
        -- intros ?. cbv beta. apply hoare_forM__invariant. intros x _.
           apply hoare_sequences_modify. intros st. split; reflexivity.
Qed.

End SequencesAdvance.

Lemma unique_ids_rollback (before after : Store.t) :
  unique_ids before -> sequences_from before after ->
  unique_ids (Store.rollback before after).
Proof.
  intros (Hp & Hv & Hpb & Hvb) [Hps Hvs]. unfold unique_ids. simpl.
  repeat split; auto; intros x Hx; [specialize (Hpb x Hx) | specialize (Hvb x Hx)]; lia.
Qed.

Lemma unique_ids_fresh_ids (ids : list Z) (next : Z) (n : nat) :
  NoDup ids -> (forall i, In i ids -> i < next) ->
  NoDup (ids ++ map (fun k => next + Z.of_nat k) (seq 0 n))
  /\ (forall i, In i (ids ++ map (fun k => next + Z.of_nat k) (seq 0 n)) ->
        i < next + Z.of_nat n).
Proof.
  intros Hnd Hlt. split.
  - apply NoDup_app; [assumption | |].
    + apply NoDup_map_NoDup_ForallPairs; [|apply seq_NoDup].
      intros a b _ _ E. lia.
    + intros i Hi Hi'. apply in_map_iff in Hi' as (k & <- & _).
      specialize (Hlt _ Hi). lia.
  - intros i Hi. apply in_app_or in Hi as [Hi|Hi].
    + specialize (Hlt i Hi). lia.
    + apply in_map_iff in Hi as (k & <- & Hk). apply in_seq in Hk. lia.
Qed.

Lemma in_map_id_bound {A : Type} (key : A -> Z) (l : list A) (bound : Z) :
  (forall i, In i (map key l) -> i < bound) ->
  forall x, In x l -> key x < bound.
Proof. intros Hb x Hx. apply Hb. now apply in_map. Qed.

Section UniqueIds.
Context `{Platform}.

Lemma createProduct_trx_shape (data : TProduct.t) (now : Z) (st : Store.t) :
  (forall x, In x (TProduct.variants data) -> numeric x) ->
  let product :=
    Product.mk (Store.products_seq st) (TProduct.title data)
               (TProduct.description data) (TProduct.imageId data) now None in
  exists rows,
    createProduct_trx data now st
    = (Return (product, rows),
       Store.mk (Store.products st ++ [product]) (Store.variants st ++ rows)
                (Store.purchaseItems st) (Store.products_seq st + 1)
                (Store.variants_seq st + Z.of_nat (List.length rows)))
    /\ Forall2 (inserted_as (Store.products_seq st)) (TProduct.variants data) rows
    /\ map Variant.id rows
       = map (fun k => Store.variants_seq st + Z.of_nat k)
             (seq 0 (List.length (TProduct.variants data))).
Proof.
  intros Hnum product.
  destruct (insert_variants_fields (Product.id product) (TProduct.variants data) Hnum
              (Store.mk (Store.products st ++ [product]) (Store.variants st)
                        (Store.purchaseItems st) (Store.products_seq st + 1)
                        (Store.variants_seq st)))
    as (rows & Hrun & Hrows & Hids).
  exists rows. split; [|split; assumption].
  unfold createProduct_trx, bind, Sql.insert_product. fold product.
  rewrite Hrun. reflexivity.
Qed.

Lemma createProduct_trx_throws (data : TProduct.t) (now : Z) (st : Store.t) :
  (exists x, In x (TProduct.variants data) /\ ~ numeric x) ->
  exists e st', createProduct_trx data now st = (Throw e, st').
Proof.
  intros (x & Hx & Hn).
  unfold createProduct_trx, bind at 1, Sql.insert_product. unfold bind at 1.
  match goal with
  | |- context [mapM ?f ?l ?s] =>
      destruct (mapM_throws f l x Hx (insert_variant_throws _ x Hn) s)
        as (e & st' & ->)
  end.
  eauto.
Qed.

Lemma unique_ids_createProduct_trx (data : TProduct.t) (now : Z) (w : World) :
  unique_ids (db w) ->
  unique_ids (db (snd (transaction (createProduct_trx data now) w))).
Proof.
  intros Hw. destruct (all_numeric_or_not (TProduct.variants data)) as [Hnum|Hnan].
  - destruct (createProduct_trx_shape data now (db w) Hnum)
      as (rows & Htrx & Hrows & Hids).
    unfold transaction. rewrite Htrx. cbn [snd db with_db].
    destruct Hw as (Hp & Hv & Hpb & Hvb).
    assert (Hlen : List.length rows = List.length (TProduct.variants data)).
    { symmetry. eapply Forall2_length. exact Hrows. }
    destruct (unique_ids_fresh_ids (map Variant.id (Store.variants (db w)))
                (Store.variants_seq (db w)) (List.length (TProduct.variants data)) Hv)
      as [Hnd Hb].
    { intros i Hi. apply in_map_iff in Hi as (v & <- & Hv'). now apply Hvb. }
    unfold unique_ids. cbn [Store.products Store.variants Store.products_seq
                              Store.variants_seq].
    rewrite !map_app, Hids, Hlen. cbn [map Product.id].
    split; [|split; [exact Hnd|split]].
    + apply NoDup_app; [assumption | repeat constructor; intros [] |].
      intros i Hi [<-|[]]. apply in_map_iff in Hi as (p & E & Hp').
      specialize (Hpb p Hp'). lia.
    + intros p Hp'. apply in_app_or in Hp' as [Hp'|[<-|[]]].
      * specialize (Hpb p Hp'). lia.
      * simpl. lia.
    + apply in_map_id_bound. rewrite map_app, Hids. exact Hb.
  - assert (Hseq := createProduct_trx_sequences data now (db w) (db w)
                      (conj (Z.le_refl _) (Z.le_refl _))).
    destruct (createProduct_trx_throws data now (db w) Hnan) as (e & st' & Htrx).
    unfold transaction. rewrite Htrx in *. cbn [snd db with_db].
    now apply unique_ids_rollback.
Qed.

Lemma unique_ids_updateProduct_trx (data : TProduct.partial) (id now : Z) (w : World) :
  unique_ids (db w) ->
  unique_ids (db (snd (transaction (updateProduct_trx data id now) w))).
Proof.
  intros Hw.
  destruct (supplies_column_dec data) as [Hcol|Hcol].
  2:{ unfold transaction. rewrite updateProduct_trx_refused by assumption.
      cbn [snd db with_db]. apply unique_ids_rollback; [assumption|].
      split; apply Z.le_refl. }
  destruct (all_numeric_or_not
              (match TProduct.p_variants data with Some vs => vs | None => [] end))
    as [Hnum|Hnan].
  - destruct (updateProduct_trx_shape data id now (db w) Hcol Hnum)
      as (rows & g & Htrx & Hrows & Hids & Hkeys & _).
    unfold transaction. rewrite Htrx. cbn [snd db with_db].
    destruct Hw as (Hp & Hv & Hpb & Hvb).
    assert (Hlen : List.length rows
                   = List.length
                       (addedVariants
                          (filter (fun v => Variant.productId v =? id)
                                  (Store.variants (db w)))
                          (match TProduct.p_variants data with
                           | Some vs => vs | None => [] end))).
    { symmetry. eapply Forall2_length. exact Hrows. }
    destruct (unique_ids_fresh_ids (map Variant.id (Store.variants (db w)))
                (Store.variants_seq (db w)) (List.length rows) Hv)
      as [Hnd Hb].
    { intros i Hi. apply in_map_iff in Hi as (v & <- & Hv'). now apply Hvb. }
    assert (Evids : map Variant.id
                      (map (fun v => stamp_removed id now
                                       (removedVariants
                                          (filter (fun v0 => Variant.productId v0 =? id)
                                                  (Store.variants (db w)))
                                          (match TProduct.p_variants data with
                                           | Some vs => vs | None => [] end)) (g v))
                           (Store.variants (db w) ++ rows))
                    = map Variant.id (Store.variants (db w))
                      ++ map (fun k => Store.variants_seq (db w) + Z.of_nat k)
                             (seq 0 (List.length rows))).
    { rewrite map_map, <- Hlen in *. rewrite <- Hids, <- map_app.
      apply map_ext. intros v.
      destruct (stamp_removed_keeps id now
                  (removedVariants
                     (filter (fun v0 => Variant.productId v0 =? id) (Store.variants (db w)))
                     (match TProduct.p_variants data with Some vs => vs | None => [] end))
                  (g v)) as (-> & _).
      apply Hkeys. }
    assert (Epids : map Product.id
                      (map (fun p => if Product.id p =? id then patched data p else p)
                           (Store.products (db w)))
                    = map Product.id (Store.products (db w))).
    { rewrite map_map. apply map_ext. intros p. now destruct (Product.id p =? id). }
    unfold unique_ids. cbn [Store.products Store.variants Store.products_seq
                              Store.variants_seq].
    rewrite Evids, Epids. split; [assumption|]. split; [assumption|]. split.
    + apply in_map_id_bound. rewrite Epids. intros i Hi.
      apply in_map_iff in Hi as (p & <- & Hp'). now apply Hpb.
    + apply in_map_id_bound. rewrite Evids. exact Hb.
  - assert (Hseq := updateProduct_trx_sequences data id now (db w) (db w)
                      (conj (Z.le_refl _) (Z.le_refl _))).
    destruct (updateProduct_trx_throws data id now (db w) Hnan) as (e & st' & Htrx).
    unfold transaction. rewrite Htrx in *. cbn [snd db with_db].
    now apply unique_ids_rollback.
Qed.

(** X20.  The three writing actions keep the ids of the store in order:
    if product ids and variant ids are unique and below the next value of
    their sequence before [createProduct], [updateProduct] or
    [deleteProduct], they are so afterwards, whatever the input, whether
    the transaction commits or rolls back, and whatever the cache does. *)
Theorem writers_keep_ids_unique (w : World) :
  unique_ids (db w) ->
  (forall data now, unique_ids (db (snd (createProduct data now w))))
  /\ (forall data id now, unique_ids (db (snd (updateProduct data id now w))))
  /\ (forall id now, unique_ids (db (snd (deleteProduct id now w)))).
Proof.
  intros Hw. split; [|split].
  - intros data now. destruct (safeParse_error data) as [message|] eqn:Hvalid.
    + unfold createProduct, try_catch, bind. rewrite Hvalid. exact Hw.
    + rewrite db_after_createProduct by assumption.
      now apply unique_ids_createProduct_trx.
  - intros data id now. rewrite db_after_updateProduct.
    now apply unique_ids_updateProduct_trx.
  - intros id now. rewrite db_after_deleteProduct.
    destruct Hw as (Hp & Hv & Hpb & Hvb).
    assert (Epids : map Product.id (map (Sql.delete_product_row id now)
                                        (Store.products (db w)))
                    = map Product.id (Store.products (db w))).
    { rewrite map_map. apply map_ext. intros p. apply delete_product_row_id. }
    unfold unique_ids. simpl. rewrite Epids. repeat split; auto.
    apply in_map_id_bound. rewrite Epids. intros i Hi.
    apply in_map_iff in Hi as (p & <- & Hp'). now apply Hpb.
Qed.

End UniqueIds.

Lemma writers_keep_ids_unique_witness :
  unique_ids (db (snd (@createProduct example_platform bowl_input 7 vase_world)))
  /\ unique_ids (db (snd (@updateProduct example_platform add_14 1 7 vase_world)))
  /\ unique_ids (db (snd (deleteProduct 1 7 vase_world))).
Proof.
  assert (Hw : unique_ids (db vase_world)).
  { unfold unique_ids. simpl. repeat split.
    - repeat constructor; simpl; intuition discriminate.
    - repeat constructor; simpl; intuition discriminate.
    - intros p [<-|[]]. reflexivity.
    - intros v [<-|[<-|[]]]; reflexivity. }
  destruct (@writers_keep_ids_unique example_platform vase_world Hw) as (Hc & Hu & Hd).
  split; [apply Hc | split; [apply Hu | apply Hd]].
Defined.

(** ** Sizes stay a key of the variants of a product *)

Lemma Forall2_map_eq {A B C : Type} (R : A -> B -> Prop) (f : A -> C) (g : B -> C)
    (l : list A) (l' : list B) :
  (forall x y, R x y -> f x = g y) ->
  Forall2 R l l' -> map f l = map g l'.
Proof.
  intros HR. induction 1 as [|x y l l' Hxy Hl IH]; [reflexivity|].
  cbn [map]. now rewrite (HR x y Hxy), IH.
Qed.

Lemma map_filter_keeps {A B : Type} (key : A -> B) (c : A -> bool) (h : A -> A)
    (l : list A) :
  (forall x, c (h x) = c x /\ key (h x) = key x) ->
  map key (filter c (map h l)) = map key (filter c l).
Proof.
  intros Hh. induction l as [|a l IH]; [reflexivity|].
  cbn [map filter]. destruct (Hh a) as [-> Hk].
  destruct (c a); [cbn [map]; now rewrite Hk, IH | exact IH].
Qed.

Section SizesStayAKey.
Context `{Platform}.

(** X21.  [updateProduct] keeps sizes a key.  If the variants of the
    product have pairwise different sizes, and the desired variants are
    numeric with pairwise different sizes as numbers, then after the
    update the variants of the product, soft-deleted ones included,
    still have pairwise different sizes. *)
Theorem updateProduct_keeps_sizes_unique
    (data : TProduct.partial) (id now : Z) (w : World) (D : list TProduct.variant) :
  TProduct.p_variants data = Some D ->
  (forall x, In x D -> numeric x) ->
  NoDup (map (fun x => Number (TProduct.size x)) D) ->
  NoDup (map Variant.size
           (filter (fun v => Variant.productId v =? id) (Store.variants (db w)))) ->
  NoDup (map Variant.size
           (filter (fun v => Variant.productId v =? id)
                   (Store.variants (db (snd (updateProduct data id now w)))))).
Proof.
  intros HD Hnum HndD HndP.
  destruct (supplies_column_dec data) as [Hcol|Hcol].
  2:{ rewrite (updateProduct_abort data id now w _ _
                 (updateProduct_trx_refused data id now (db w) Hcol)).
      exact HndP. }
  destruct (updateProduct_trx_shape data id now (db w) Hcol)
    as (rows & g & Htrx & Hrows & _ & Hkeys & _).
  { now rewrite HD. }
  rewrite (db_updateProduct_commit data id now w _ Htrx). cbn [Store.variants].
  rewrite HD in *.
  set (prev := filter (fun v => Variant.productId v =? id) (Store.variants (db w))) in *.
  rewrite (map_filter_keeps Variant.size (fun v => Variant.productId v =? id)).
  2:{ intros v.
      destruct (stamp_removed_keeps id now (removedVariants prev D) (g v))
        as (_ & -> & -> & _).
      destruct (Hkeys v) as (_ & -> & ->). split; reflexivity. }
  rewrite filter_app. fold prev.
  assert (Hall : filter (fun v => Variant.productId v =? id) rows = rows).
  { apply forallb_filter_id, forallb_forall. intros r Hr.
    destruct (Forall2_In_r _ _ _ _ Hrows Hr) as (x & _ & _ & _ & _ & Hp & _).
    now apply Z.eqb_eq. }
  rewrite Hall, map_app.
  assert (Hsizes : map (fun x => Number (TProduct.size x)) (addedVariants prev D)
                   = map (fun r => Fin (Variant.size r)) rows).
  { apply (Forall2_map_eq (inserted_as id)); [|exact Hrows].
    intros x r (Es & _). exact Es. }
  apply NoDup_app; [assumption | |].
  - apply (NoDup_map_inv Fin). rewrite map_map, <- Hsizes.
    unfold addedVariants. now apply NoDup_map_filter.
  - intros s Hs Hs'. apply in_map_iff in Hs as (v & <- & Hv).
    apply in_map_iff in Hs' as (r & Er & Hr).
    destruct (Forall2_In_r _ _ _ _ Hrows Hr) as (x & Hx & Es & _).
    apply In_addedVariants in Hx as [_ Hno].
    apply (Hno v Hv). unfold same_size. congruence.
Qed.

End SizesStayAKey.

Lemma updateProduct_keeps_sizes_unique_witness :
  NoDup (map Variant.size
           (filter (fun v => Variant.productId v =? 1)
                   (Store.variants
                      (db (snd (@updateProduct example_platform add_14 1 7 vase_world)))))).
Proof.
  apply (@updateProduct_keeps_sizes_unique example_platform add_14 1 7 vase_world
           [TProduct.mkVariant "10" "5" "1"; TProduct.mkVariant "12" "7" "2";
            TProduct.mkVariant "14" "9" "3"]).
  - reflexivity.
  - intros x [<-|[<-|[<-|[]]]]; repeat split; eexists; reflexivity.
  - vm_compute. repeat constructor; simpl; intuition discriminate.
  - vm_compute. repeat constructor; simpl; intuition discriminate.
Defined.

(** ** [getProducts] with a blank search text, and the count it reports *)

Section GetProductsTotal.
Context `{Platform}.

(** X24.  For a blank search text and a healthy cache, the total that
    [getProducts] reports is the cached count when the cache holds a
    count other than zero, without a look at the store, and otherwise the
    store's count of products that are not deleted, which it then caches.
    The store itself is never written. *)
Theorem getProducts_reports_cached_count
    (q : string) (offset limit : nat) (w : World) :
  trim q = "" ->
  Cache.outages (cache w) = [] ->
  let total :=
    if truthy_count (Cache.count (cache w))
    then ProductsCountCache.current (cache w)
    else getProductsCountFromDB (db w) in
  exists data,
    fst (getProducts (Some q) offset limit w) = Return (Success (data, total))
    /\ Cache.count (cache (snd (getProducts (Some q) offset limit w))) = Some total
    /\ db (snd (getProducts (Some q) offset limit w)) = db w.
Proof.
  intros Hq Hup. destruct w as [st [cp cc co] cons rev]. simpl in Hup. subst co.
  unfold getProducts, try_catch, bind, ProductsCountCache.get,
    ProductsCountCache.set, ProductsCache.get, ProductsCache.set,
    cache_call, query, gets.
  rewrite Hq.
  destruct (negb (Nat.eqb offset 0) || negb (Nat.eqb limit defaultLimit));
    destruct cc as [[|n|n]|], cp as [[|r rs]|];
    cbn -[getProductsFromDBWithoutQuery getProductsCountFromDB];
    eexists; repeat split.
Qed.

Lemma first_group_of_product (st : Store.t) (n : Z) (p : Product.row) :
  In p (Store.products st) ->
  Product.id p = n ->
  (forall q, In q (Store.products st) -> Product.id q = n -> q = p) ->
  has_active_variant st p ->
  hd_error (Sql.join_groups (fun q => Product.id q =? n) st)
  = Some (ProductWithVariants.mk p (Sql.active_variants_of st p) None).
Proof.
  intros Hp Hpn Huniq Hact. unfold Sql.join_groups.
  apply (hd_error_flat_map _ _ p); [exact Hp | |].
  - apply active_variants_nonempty in Hact.
    destruct (Sql.active_variants_of st p); [congruence|].
    rewrite Hpn, Z.eqb_refl. reflexivity.
  - intros q Hq. destruct (Sql.active_variants_of st q) eqn:E; [now left|].
    destruct (Product.id q =? n) eqn:En; [|now left].
    apply Z.eqb_eq in En. rewrite (Huniq q Hq En) in *. right. now rewrite E.
Qed.

(** X27.  Deletion and detail compose: after [deleteProduct], whatever
    the cache did, [getProduct] still answers with the product, now
    carrying its deletion timestamp, and with the variants it had that
    are not soft-deleted. *)
Theorem deleteProduct_then_getProduct
    (id : string) (n now : Z) (w : World) (p : Product.row) :
  Number id = Fin n ->
  In p (Store.products (db w)) ->
  Product.id p = n ->
  (forall q, In q (Store.products (db w)) -> Product.id q = n -> q = p) ->
  has_active_variant (db w) p ->
  let w' := snd (deleteProduct n now w) in
  getProduct id w'
  = (Return (Success (Some (ProductWithVariants.mk
                              (Product.with_deletedAt (Some now) p)
                              (Sql.active_variants_of (db w) p) None))), w').
Proof.
  intros Hid Hp Hpn Huniq Hact w'.
  assert (Hdb : db w' = Sql.map_products (Sql.delete_product_row n now) (db w))
    by apply db_after_deleteProduct.
  assert (Hrow : Sql.delete_product_row n now p = Product.with_deletedAt (Some now) p).
  { unfold Sql.delete_product_row. now rewrite Hpn, Z.eqb_refl. }
  assert (Hvariants : forall q, Sql.active_variants_of (db w')
                                  (Sql.delete_product_row n now q)
                                = Sql.active_variants_of (db w) q).
  { intros q. unfold Sql.active_variants_of. rewrite Hdb. simpl.
    now rewrite delete_product_row_id. }
  unfold getProduct, try_catch, bind, query, gets. rewrite Hid. simpl.
  rewrite (first_group_of_product (db w') n (Product.with_deletedAt (Some now) p)).
  - rewrite <- Hrow, Hvariants. reflexivity.
  - rewrite Hdb, <- Hrow. simpl. now apply in_map.
  - exact Hpn.
  - intros q Hq Hqn. rewrite Hdb in Hq. simpl in Hq.
    apply in_map_iff in Hq as (q0 & <- & Hq0).
    rewrite delete_product_row_id in Hqn.
    rewrite (Huniq q0 Hq0 Hqn). exact Hrow.
  - destruct Hact as (v & Hv & Hvp & Hvd). exists v.
    rewrite Hdb. simpl. repeat split; assumption.
Qed.

End GetProductsTotal.

Lemma getProducts_reports_cached_count_witness :
  exists data,
    fst (@getProducts example_platform (Some "  ") 3 10 cached_vase_world)
    = Return (Success (data, 1))
    /\ Cache.count (cache (snd (@getProducts example_platform (Some "  ") 3 10
                                  cached_vase_world))) = Some 1
    /\ db (snd (@getProducts example_platform (Some "  ") 3 10 cached_vase_world))
       = db cached_vase_world.
Proof.
  apply (@getProducts_reports_cached_count example_platform "  " 3 10 cached_vase_world);
    reflexivity.
Defined.

Lemma deleteProduct_then_getProduct_witness :
  @getProduct example_platform "1" (snd (deleteProduct 1 9 vase_world))
  = (Return (Success (Some (ProductWithVariants.mk
                              (Product.mk 1 "Vase" "Glazed" "vase.png" 0 (Some 9))
                              [vase_12] None))),
     snd (deleteProduct 1 9 vase_world)).
Proof.
  apply (@deleteProduct_then_getProduct example_platform "1" 1 9 vase_world vase).
  - reflexivity.
  - now left.
  - reflexivity.
  - intros q [<-|[]] _. reflexivity.
  - exists vase_12. split; [right; now left | split; reflexivity].
Defined.

Lemma getProducts_blank_first_page_witness :
  exists total,
    fst (@getProducts example_platform (Some "") 0 defaultLimit vase_world)
    = Return (Success ([vase_listed], total))
    /\ Cache.products
         (cache (snd (@getProducts example_platform (Some "") 0 defaultLimit vase_world)))
       = Some [vase_listed].
Proof.
  apply (@getProducts_blank_first_page example_platform "" vase_world); reflexivity.
Defined.


Lemma deleteProduct_cache_outage_witness :
  fst (deleteProduct 1 9 (mkWorld vase_store (Cache.mk None (Some 1) [false; true]) [] []))
  = Return (Failure "Error deleting product")
  /\ db (snd (deleteProduct 1 9
                (mkWorld vase_store (Cache.mk None (Some 1) [false; true]) [] [])))
     = Sql.map_products (Sql.delete_product_row 1 9) vase_store.
Proof.
  apply (deleteProduct_cache_outage 1 9
           (mkWorld vase_store (Cache.mk None (Some 1) [false; true]) [] [])).
  exists 1%nat. split; [lia | reflexivity].
Defined.

(** X26.  A cache outage after the commit does not undo an update: when
    the update names a column of the product, the desired variants are
    numeric and the cache call that follows the transaction fails, the
    caller receives ["Error updating product"] while the store is the
    one the transaction committed, with the product patched. *)
Theorem updateProduct_outage_after_commit `{Platform}
    (data : TProduct.partial) (id now : Z) (w : World) :
  supplies_column data ->
  (forall x, In x (match TProduct.p_variants data with Some vs => vs | None => [] end) ->
             numeric x) ->
  outage_within 1 w ->
  let w' := snd (updateProduct data id now w) in
  fst (updateProduct data id now w) = Return (Failure "Error updating product")
  /\ (exists st', updateProduct_trx data id now (db w) = (Return tt, st') /\ db w' = st')
  /\ Store.products (db w')
     = map (fun p => if Product.id p =? id then patched data p else p)
           (Store.products (db w)).
Proof.
  intros Hcol Hnum Hout w'.
  destruct (updateProduct_cache_outage data id now w Hout) as [Hfst _].
  destruct (updateProduct_trx_shape data id now (db w) Hcol Hnum)
    as (rows & g & Htrx & _).
  split; [exact Hfst|]. unfold w'.
  rewrite (db_updateProduct_commit data id now w _ Htrx).
  split; [eexists; split; [exact Htrx | reflexivity] | reflexivity].
Qed.

Lemma updateProduct_outage_after_commit_witness :
  fst (@updateProduct example_platform rename_keep_12 1 7
         (mkWorld vase_store (Cache.mk None None [true]) [] []))
  = Return (Failure "Error updating product")
  /\ Store.products
       (db (snd (@updateProduct example_platform rename_keep_12 1 7
                   (mkWorld vase_store (Cache.mk None None [true]) [] []))))
     = [Product.mk 1 "Amphora" "Glazed" "vase.png" 0 None].
Proof.
  destruct (@updateProduct_outage_after_commit example_platform rename_keep_12 1 7
              (mkWorld vase_store (Cache.mk None None [true]) [] []))
    as (Hfst & _ & Hproducts).
  - left. reflexivity.
  - intros x [<-|[]]. repeat split; eexists; reflexivity.
  - exists 0%nat. split; [lia | reflexivity].
  - split; [exact Hfst|]. rewrite Hproducts. reflexivity.
Defined.
